(** * Wotan: the rule-execution core and the access-control resolver

    A shallow embedding of
    - [src/linter.ts]  (class [Linter]: [lintFile], [lintAndFix],
      [getFailures], [prepareRules], [applyRules] with its closures
      [addFailure] and [isDisabled]), and
    - the restricted-property-access helper
      ([getRestrictedElementAccessError] and the functions it calls),
    followed by the properties of the specification stated over it.

    Conventions of the embedding.
    - JavaScript numbers that hold text offsets or bit flags are [Z];
      counts are [nat]; strings are [string].
    - [undefined] is [None]; an optional parameter is an [option].
    - A JavaScript exception is a result of its own ([TypeError]); the
      calls on the [debug] logger are tracing only and are left out.
    - Collaborators that live outside the modelled files (the TypeScript
      checker, tsutils, the rule loader, [applyFixes], the line-switch
      parser) are section variables or record fields. *)

From Stdlib Require Import ZArith List Bool Lia.
From stdpp Require Import base option list strings gmap.

Local Open Scope string_scope.
Local Open Scope list_scope.
Local Open Scope nat_scope.

Set Warnings "-register-all".

(* ===================================================================== *)
(** * Part I: definitions                                                  *)
(* ===================================================================== *)

(** ** The linter ([src/linter.ts]) *)

Module Linter.

(** [ts.TextRange] *)
Record TextRange := mkRange { pos : Z; end_ : Z }.

(** [ts.TextChangeRange] *)
Record TextChangeRange := mkChange { span : TextRange; newLength : Z }.

Record Replacement := mkReplacement {
  r_start : Z; r_end : Z; r_text : string }.

Record Fix := mkFix { replacements : list Replacement }.

(** The optional last argument of [addFailure]:
    [fix?: Replacement | Replacement[]]. *)
Inductive FixArg :=
| FixUndefined
| FixOne (r : Replacement)
| FixMany (rs : list Replacement).

Record FailurePosition := mkPosition {
  position : Z; line : Z; character : Z }.

Record Failure := mkFailure {
  f_ruleName : string;
  f_severity : string;
  f_message : string;
  f_start : FailurePosition;
  f_end : FailurePosition;
  f_fix : option Fix }.

(** The map the line-switch parser returns: rule name to disabled ranges. *)
Abbreviation DisableMap := (gmap string (list TextRange)).

(** A rule reports through one of the three callbacks of [RuleContext];
    the argument of [addFailureAtNode] is kept as the two numbers the
    callback reads from the node. *)
Inductive Report :=
| AddFailure (pos end_ : Z) (message : string) (fix_ : FixArg)
| AddFailureAt (start len : Z) (message : string) (fix_ : FixArg)
| AddFailureAtNode (getStart node_end : Z) (message : string) (fix_ : FixArg).

Record LintAndFixFileResult := mkResult {
  content : string;
  failures : list Failure;
  fixes : nat }.

(** Result of [applyFixes] ([./fix]). *)
Record FixResult := mkFixResult {
  result : string; fixed : nat; range : TextChangeRange }.

(** [AbstractProcessor]: an object with a state of its own, which
    [updateSource] may change. *)
Record UpdateSourceResult (S : Type) := mkUpdateSource {
  transformed : string;
  changeRange : option TextChangeRange;
  stateAfter : S }.
Arguments mkUpdateSource {S}.
Arguments transformed {S}.
Arguments changeRange {S}.
Arguments stateAfter {S}.

Record AbstractProcessor := mkProcessor {
  ProcessorState : Type;
  p_state : ProcessorState;
  p_updateSource :
    ProcessorState -> string -> TextChangeRange ->
    UpdateSourceResult ProcessorState;
  p_postprocess : ProcessorState -> list Failure -> list Failure }.

(** [processor.updateSource(content, range)] *)
Definition updateSource (p : AbstractProcessor) (content : string)
    (range : TextChangeRange) : UpdateSourceResult (ProcessorState p) :=
  p_updateSource p (p_state p) content range.

(** The processor object after that call. *)
Definition processorAfter (p : AbstractProcessor)
    (upd : UpdateSourceResult (ProcessorState p)) : AbstractProcessor :=
  mkProcessor (ProcessorState p) (stateAfter upd)
    (p_updateSource p) (p_postprocess p).

(** [processor.postprocess(failures)] *)
Definition postprocess (p : AbstractProcessor) (failures : list Failure)
    : list Failure :=
  p_postprocess p (p_state p) failures.

Section WithCollaborators.

Context {SourceFile Program Options Settings : Type}.

(** What a rule instance can observe when [apply()] runs: the injected
    context, its options, the global settings and the suppression query. *)
Record RuleEnv := mkEnv {
  env_sourceFile : SourceFile;
  env_program : option Program;
  env_options : Options;
  env_settings : Settings;
  env_isDisabled : TextRange -> bool }.

Record RuleConstructor := mkCtor {
  requiresTypeInformation : bool;
  supports : option (SourceFile -> Options -> Settings -> bool);
  apply : RuleEnv -> list Report }.

(** One entry of [EffectiveConfiguration.rules]. *)
Record RuleConfig := mkRuleConfig {
  options : Options;
  severity : string;
  rulesDirectories : option (list string);
  rule : string }.

(** [config.rules] is a [Map]; iteration is in insertion order. *)
Record EffectiveConfiguration := mkConfig {
  rules : list (string * RuleConfig);
  settings : Settings }.

Record PreparedRule := mkPrepared {
  p_ruleName : string;
  p_options : Options;
  p_severity : string;
  p_ctor : RuleConstructor }.

Record UpdateFileResult := mkUpdate {
  u_file : SourceFile; u_program : option Program }.

Definition UpdateFileCallback : Type :=
  string -> TextChangeRange -> UpdateFileResult.

(** Collaborators. *)
Variable loadRule : string -> option (list string) -> option RuleConstructor.
Variable getDisabledRanges : list string -> SourceFile -> DisableMap.
Variable getLineAndCharacterOfPosition : SourceFile -> Z -> Z * Z.
Variable applyFixes : string -> list Fix -> FixResult.
Variable calculateChangeRange : string -> string -> TextChangeRange.
Variable text : SourceFile -> string.

Definition isUndefined {A} (o : option A) : bool :=
  match o with
  | None => true
  | Some _ => false
  end.

(** [prepareRules], one turn of its [for] loop: the state is the array
    [rules] and the messages passed to [logger.warn] so far. *)
Definition prepareRule (config : EffectiveConfiguration)
    (sourceFile : SourceFile) (program : option Program)
    (st : list PreparedRule * list string) (entry : string * RuleConfig)
    : list PreparedRule * list string :=
  let '(ruleName, c) := entry in
  let '(rules, warnings) := st in
  if String.eqb (severity c) "off" then st
  else match loadRule (rule c) (rulesDirectories c) with
       | None => st
       | Some ctor =>
         if isUndefined program && requiresTypeInformation ctor
         then (rules, warnings ++ ["'" +:+ ruleName +:+ "' requires type information."])
         else match supports ctor with
              | Some supp =>
                if negb (supp sourceFile (options c) (settings config)) then st
                else (rules ++ [mkPrepared ruleName (options c) (severity c) ctor], warnings)
              | None =>
                (rules ++ [mkPrepared ruleName (options c) (severity c) ctor], warnings)
              end
       end.

Definition prepareRules (config : EffectiveConfiguration)
    (sourceFile : SourceFile) (program : option Program)
    : list PreparedRule * list string :=
  fold_left (prepareRule config sourceFile program) (rules config) ([], []).

(** The closure [isDisabled] of [applyRules]; [disables] is computed from
    the names of all prepared rules on first use and kept. *)
Definition isDisabled (disables : DisableMap) (ruleName : string)
    (range : TextRange) : bool :=
  match disables !! ruleName with
  | None => false
  | Some ruleDisables =>
    existsb (fun disabledRange =>
               (pos disabledRange <? end_ range)%Z &&
               (pos range <? end_ disabledRange)%Z) ruleDisables
  end.

Definition makeFix (fix_ : FixArg) : option Fix :=
  match fix_ with
  | FixUndefined => None
  | FixOne r => Some (mkFix [r])
  | FixMany [] => None
  | FixMany rs => Some (mkFix rs)
  end.

Definition positionAt (sourceFile : SourceFile) (p : Z) : FailurePosition :=
  let '(l, c) := getLineAndCharacterOfPosition sourceFile p in
  mkPosition p l c.

(** The closure [addFailure]; [result] is the array it pushes to. *)
Definition addFailure (disables : DisableMap) (sourceFile : SourceFile)
    (ruleName severity : string) (result : list Failure)
    (pos end_ : Z) (message : string) (fix_ : FixArg) : list Failure :=
  if isDisabled disables ruleName (mkRange pos end_) then result
  else result ++ [mkFailure ruleName severity message
                    (positionAt sourceFile pos) (positionAt sourceFile end_)
                    (makeFix fix_)].

(** The range [addFailure] is called with, for each callback. *)
Definition reportRange (r : Report) : Z * Z :=
  match r with
  | AddFailure pos end_ _ _ => (pos, end_)
  | AddFailureAt start len _ _ => (start, (start + len)%Z)
  | AddFailureAtNode getStart node_end _ _ => (getStart, node_end)
  end.

Definition reportMessage (r : Report) : string :=
  match r with
  | AddFailure _ _ m _ | AddFailureAt _ _ m _ | AddFailureAtNode _ _ m _ => m
  end.

Definition reportFix (r : Report) : FixArg :=
  match r with
  | AddFailure _ _ _ f | AddFailureAt _ _ _ f | AddFailureAtNode _ _ _ f => f
  end.

Definition report (disables : DisableMap) (sourceFile : SourceFile)
    (ruleName severity : string) (result : list Failure) (r : Report)
    : list Failure :=
  addFailure disables sourceFile ruleName severity result
    (fst (reportRange r)) (snd (reportRange r)) (reportMessage r) (reportFix r).

(** [container.resolve(ctor).apply()] for the current rule. *)
Definition executeRule (disables : DisableMap) (sourceFile : SourceFile)
    (program : option Program) (settings : Settings)
    (result : list Failure) (r : PreparedRule) : list Failure :=
  fold_left (report disables sourceFile (p_ruleName r) (p_severity r))
    (apply (p_ctor r)
       (mkEnv sourceFile program (p_options r) settings
          (isDisabled disables (p_ruleName r))))
    result.

Definition applyRules (sourceFile : SourceFile) (program : option Program)
    (rules : list PreparedRule) (settings : Settings) : list Failure :=
  let disables := getDisabledRanges (map p_ruleName rules) sourceFile in
  fold_left (executeRule disables sourceFile program settings) rules [].

(** [getFailures]: the failures and the warnings logged on the way. *)
Definition getFailures (sourceFile : SourceFile)
    (config : EffectiveConfiguration) (program : option Program)
    (processor : option AbstractProcessor) : list Failure * list string :=
  let '(rules, warnings) := prepareRules config sourceFile program in
  if (length rules =? 0)%nat then ([], warnings)
  else
    let failures := applyRules sourceFile program rules (settings config) in
    match processor with
    | None => (failures, warnings)
    | Some p =>
      if (length failures =? 0)%nat then (failures, warnings)
      else (postprocess p failures, warnings)
    end.

Definition lintFile (file : SourceFile) (config : EffectiveConfiguration)
    (program : option Program) : list Failure * list string :=
  getFailures file config program None.

(** The variables the loop of [lintAndFix] assigns. *)
Record LoopState := mkState {
  s_file : SourceFile;
  s_program : option Program;
  s_processor : option AbstractProcessor;
  s_content : string;
  s_failures : list Failure;
  s_totalFixes : nat;
  s_warnings : list string }.

(** [failures.map((f) => f.fix).filter((f) => f !== undefined)] *)
Definition collectFixes (failures : list Failure) : list Fix :=
  omap f_fix failures.

(** The body of the loop after its two [break] tests (lines 63 to 79). *)
Definition applyIteration (config : EffectiveConfiguration)
    (updateFile : UpdateFileCallback) (st : LoopState) : LoopState :=
  let fixed := applyFixes (s_content st) (collectFixes (s_failures st)) in
  let totalFixes := (s_totalFixes st + Linter.fixed fixed)%nat in
  let content := result fixed in
  let '(newSource, fixedRange, processor) :=
    match s_processor st with
    | Some p =>
      let upd := updateSource p content (range fixed) in
      (transformed upd,
       match changeRange upd with
       | Some cr => cr
       | None => calculateChangeRange (text (s_file st)) (transformed upd)
       end,
       Some (processorAfter p upd))
    | None => (content, range fixed, None)
    end in
  let u := updateFile newSource fixedRange in
  let '(failures, warnings) := getFailures (u_file u) config (u_program u) processor in
  mkState (u_file u) (u_program u) processor content failures totalFixes
    (s_warnings st ++ warnings).

(** [for (let i = 0; i < iterations; ++i)]: [remaining] is
    [iterations - i]. *)
Fixpoint fixLoop (config : EffectiveConfiguration)
    (updateFile : UpdateFileCallback) (remaining : nat) (st : LoopState)
    : LoopState :=
  match remaining with
  | O => st
  | S remaining' =>
    if (length (s_failures st) =? 0)%nat then st
    else if (length (collectFixes (s_failures st)) =? 0)%nat then st
    else fixLoop config updateFile remaining' (applyIteration config updateFile st)
  end.

Definition initialState (file : SourceFile) (content : string)
    (config : EffectiveConfiguration) (program : option Program)
    (processor : option AbstractProcessor) : LoopState :=
  let '(failures, warnings) := getFailures file config program processor in
  mkState file program processor content failures 0 warnings.

Definition lintAndFix (file : SourceFile) (content : string)
    (config : EffectiveConfiguration) (updateFile : UpdateFileCallback)
    (iterations : Z) (program : option Program)
    (processor : option AbstractProcessor)
    : LintAndFixFileResult * list string :=
  let st := fixLoop config updateFile (Z.to_nat iterations)
              (initialState file content config program processor) in
  (mkResult (s_content st) (s_failures st) (s_totalFixes st), s_warnings st).

(** *** Notions used to state the properties *)

(** The conditions under which [prepareRules] keeps a configured rule. *)
Definition applicable (config : EffectiveConfiguration)
    (sourceFile : SourceFile) (program : option Program)
    (c : RuleConfig) (ctor : RuleConstructor) : Prop :=
  severity c ≠ "off" ∧
  loadRule (rule c) (rulesDirectories c) = Some ctor ∧
  ¬ (program = None ∧ requiresTypeInformation ctor = true) ∧
  ∀ supp, supports ctor = Some supp →
          supp sourceFile (options c) (settings config) ≠ false.

(** The rule is skipped for want of type information. *)
Definition lacksTypeInformation (program : option Program)
    (c : RuleConfig) (ctor : RuleConstructor) : Prop :=
  severity c ≠ "off" ∧
  loadRule (rule c) (rulesDirectories c) = Some ctor ∧
  program = None ∧ requiresTypeInformation ctor = true.

(** Two ranges overlap, and do not merely touch. *)
Definition overlaps (r d : TextRange) : Prop :=
  (pos d < end_ r)%Z ∧ (pos r < end_ d)%Z.

(** The ranges share an endpoint: [end == d.pos] or [start == d.end]. *)
Definition touches (r d : TextRange) : Prop :=
  end_ r = pos d ∨ pos r = end_ d.

(** [r] lies within [d]. *)
Definition inside (r d : TextRange) : Prop :=
  (pos d ≤ pos r)%Z ∧ (end_ r ≤ end_ d)%Z.

Definition disabledRangesOf (disables : DisableMap) (ruleName : string)
    : list TextRange :=
  default [] (disables !! ruleName).

(** The range of a report, as [addFailure] receives it. *)
Definition rangeOf (r : Report) : TextRange :=
  mkRange (fst (reportRange r)) (snd (reportRange r)).

(** The record [addFailure] pushes for a report of a rule. *)
Definition failureOf (sourceFile : SourceFile) (r : PreparedRule)
    (rep : Report) : Failure :=
  mkFailure (p_ruleName r) (p_severity r) (reportMessage rep)
    (positionAt sourceFile (pos (rangeOf rep)))
    (positionAt sourceFile (end_ (rangeOf rep)))
    (makeFix (reportFix rep)).

(** The reports of a prepared rule during a pass over [sourceFile]. *)
Definition reportsOf (sourceFile : SourceFile) (program : option Program)
    (settings : Settings) (rules : list PreparedRule) (r : PreparedRule)
    : list Report :=
  apply (p_ctor r)
    (mkEnv sourceFile program (p_options r) settings
       (isDisabled (getDisabledRanges (map p_ruleName rules) sourceFile)
          (p_ruleName r))).

(** The state of [lintAndFix] after [j] turns of its loop that broke at
    neither test. *)
Definition afterIterations (config : EffectiveConfiguration)
    (updateFile : UpdateFileCallback) (st : LoopState) (j : nat) : LoopState :=
  Nat.iter j (applyIteration config updateFile) st.

(** One of the two [break] tests of the loop holds. *)
Definition stops (st : LoopState) : Prop :=
  s_failures st = [] ∨ collectFixes (s_failures st) = [].

(** The number of fixes [applyFixes] reports for the pass of [st]. *)
Definition fixedIn (st : LoopState) : nat :=
  fixed (applyFixes (s_content st) (collectFixes (s_failures st))).

(** The fixes applied in the first [k] turns. *)
Fixpoint fixedUpTo (config : EffectiveConfiguration)
    (updateFile : UpdateFileCallback) (st : LoopState) (k : nat) : nat :=
  match k with
  | O => 0
  | S k' => fixedUpTo config updateFile st k'
            + fixedIn (afterIterations config updateFile st k')
  end.

End WithCollaborators.

End Linter.

(** ** The access-control resolver ([getRestrictedElementAccessError]) *)

Module Access.

(** The members of [ts.SyntaxKind] the resolver tells apart. *)
Inductive SyntaxKind :=
| ThisKeyword | SuperKeyword | AbstractKeyword | StaticKeyword
| PrivateKeyword | ProtectedKeyword
| ComputedPropertyName | ExpressionWithTypeArguments | Decorator
| Parameter_ (* [ts.SyntaxKind.Parameter] *)
| ClassDeclaration | ClassExpression
| PropertyDeclaration | MethodDeclaration | MethodSignature
| GetAccessor | SetAccessor | Constructor
| FunctionDeclaration | FunctionExpression | EnumDeclaration | SourceFile
| OtherKind (n : nat).

#[global] Instance SyntaxKind_eq_dec : EqDecision SyntaxKind.
Proof. solve_decision. Defined.

(** [ts.ModifierFlags] (a const enum of TypeScript; values of 3.x and 4.x). *)
Module ModifierFlags.
Definition None : Z := 0.
Definition Private : Z := 8.
Definition Protected : Z := 16.
Definition Static : Z := 32.
Definition Abstract : Z := 128.
Definition NonPublicAccessibilityModifier : Z := 24.
End ModifierFlags.

(** Types and type nodes are objects of the checker; they are named by
    their identity. *)
Definition TypeId := nat.
Definition TypeNode := nat.

Record ParameterDeclaration := mkParameter {
  isThisParameter : bool;
  type_ : option TypeNode }.

(** A syntax node with the chain of its ancestors. [id] is the identity
    of the object ([===] and [Array.prototype.includes] compare it);
    [modifiers] holds the kinds of the modifier tokens. *)
Inductive Node := mkNode {
  id : nat;
  kind : SyntaxKind;
  pos : Z;
  end_ : Z;
  modifiers : option (list SyntaxKind);
  parameters : list ParameterDeclaration;
  parent : option Node }.

(** [ts.ElementAccessExpression]: the node and the kind of
    [node.expression]. *)
Record ElementAccessExpression := mkAccess {
  expression_kind : SyntaxKind;
  access : Node }.

Record Symbol := mkSymbol { declarations : option (list Node) }.

(** What the resolver reads of a [ts.Type]. *)
Record Type_ := mkType {
  isTypeReference : bool;
  target : TypeId;
  getBaseTypes : option (list TypeId);
  isIntersectionType : bool;
  types : list TypeId;
  symbol : option Symbol;
  isTypeParameter : bool;
  getConstraint : option TypeId }.

Record TypeChecker := mkChecker {
  typeOf : TypeId -> Type_;
  typeToString : TypeId -> string;
  getTypeFromTypeNode : TypeNode -> TypeId }.

(** Outcome of a computation: a value, a thrown [TypeError] (a property
    read on [undefined]), or the recursion budget of [hasBase] used up. *)
Inductive Res (A : Type) :=
| Ok (a : A)
| TypeError
| OutOfFuel.
Arguments Ok {A} a.
Arguments TypeError {A}.
Arguments OutOfFuel {A}.

Definition bind {A B} (m : Res A) (f : A -> Res B) : Res B :=
  match m with
  | Ok a => f a
  | TypeError => TypeError
  | OutOfFuel => OutOfFuel
  end.

Notation "'let!' x ':=' m 'in' k" := (bind m (fun x => k))
  (at level 10, x name, m at level 100, k at level 200).

(** [Array.prototype.some] and [every] with a callback that may throw. *)
Fixpoint some {A} (f : A -> Res bool) (l : list A) : Res bool :=
  match l with
  | [] => Ok false
  | x :: l' => let! b := f x in if b then Ok true else some f l'
  end.

Fixpoint every {A} (f : A -> Res bool) (l : list A) : Res bool :=
  match l with
  | [] => Ok true
  | x :: l' => let! b := f x in if b then every f l' else Ok false
  end.

(** [node.parent!] handed to a function that reads the node at once. *)
Definition ofParent {A} (f : Node -> Res A) (node : Node) : Res A :=
  match parent node with
  | Some p => f p
  | None => TypeError
  end.

(** tsutils [hasModifier(modifiers, kind)]. *)
Definition hasModifier (modifiers : option (list SyntaxKind))
    (k : SyntaxKind) : bool :=
  match modifiers with
  | None => false
  | Some ms => existsb (fun m => bool_decide (m = k)) ms
  end.

Definition isClassLike (k : SyntaxKind) : bool :=
  match k with
  | ClassDeclaration | ClassExpression => true
  | _ => false
  end.

(** One turn of a [while (true)] walk: it returns, or assigns [node]. *)
Inductive Step (A : Type) :=
| Return (a : A)
| Continue (node : option Node)
| Throw.
Arguments Return {A} a.
Arguments Continue {A} node.
Arguments Throw {A}.

Section Resolver.

(** Collaborators from TypeScript and tsutils.
    [getInstanceTypeOfClassLikeDeclaration] asks the checker for the type
    at a class declaration or for the symbol of the name or [class]
    keyword of a class expression; handed a node that is no class, such
    as a constructor, it throws, which is [None]. *)
Variable getCombinedModifierFlags : Node -> Z.
Variable isFunctionScopeBoundary : Node -> bool.
Variable getInstanceTypeOfClassLikeDeclaration :
  Node -> TypeChecker -> option TypeId.

(** A call of [getInstanceTypeOfClassLikeDeclaration]. *)
Definition instanceTypeOf (declaration : Node) (checker : TypeChecker)
    : Res TypeId :=
  match getInstanceTypeOfClassLikeDeclaration declaration checker with
  | Some t => Ok t
  | None => TypeError
  end.

Definition getModifierFlagsOfSymbol (symbol : Symbol) : Z :=
  match declarations symbol with
  | None => ModifierFlags.None
  | Some ds =>
    fold_left (fun flags decl => Z.lor flags (getCombinedModifierFlags decl))
      ds ModifierFlags.None
  end.

Definition isPrototypeKind (k : SyntaxKind) : bool :=
  match k with
  | MethodDeclaration | MethodSignature | GetAccessor | SetAccessor => true
  | _ => false
  end.

Definition hasNonPrototypeDeclaration (symbol : Symbol) : Res bool :=
  match declarations symbol with
  | None => TypeError
  | Some ds => Ok (existsb (fun d => negb (isPrototypeKind (kind d))) ds)
  end.

Fixpoint getEnclosingClassOfAbstractPropertyAccess (node : Node)
    : Res (option Node) :=
  if isFunctionScopeBoundary node then
    match kind node with
    | ClassDeclaration | ClassExpression => Ok (Some node)
    | Constructor => Ok (parent node)
    | _ => Ok None
    end
  else
    match parent node with
    | Some p => getEnclosingClassOfAbstractPropertyAccess p
    | None => TypeError
    end.

Definition isIdentical (a b : TypeId) : Res bool := Ok (a =? b)%nat.

Definition typeContainsDeclaration (checker : TypeChecker) (t : TypeId)
    (declaration : option Node) : Res bool :=
  match symbol (typeOf checker t) with
  | None => TypeError
  | Some s =>
    match declarations s with
    | None => TypeError
    | Some ds =>
      Ok (match declaration with
          | None => false
          | Some d => existsb (fun d' => (id d' =? id d)%nat) ds
          end)
    end
  end.

(** The local function [recur] of [hasBase]. *)
Fixpoint recur {T} (checker : TypeChecker) (needle : T)
    (check : TypeId -> T -> Res bool) (fuel : nat) (t : TypeId) : Res bool :=
  match fuel with
  | O => OutOfFuel
  | S fuel' =>
    let t' := if isTypeReference (typeOf checker t)
              then target (typeOf checker t) else t in
    let! found := (if isTypeReference (typeOf checker t)
                   then check t' needle else Ok false) in
    if found then Ok true
    else
      let! inBases := match getBaseTypes (typeOf checker t') with
                      | Some bs => some (recur checker needle check fuel') bs
                      | None => Ok false
                      end in
      if inBases then Ok true
      else if isIntersectionType (typeOf checker t')
           then some (recur checker needle check fuel') (types (typeOf checker t'))
           else Ok false
  end.

Definition hasBase {T} (checker : TypeChecker) (fuel : nat) (t : TypeId)
    (needle : T) (check : TypeId -> T -> Res bool) : Res bool :=
  recur checker needle check fuel t.

(** [baseClasses.every((baseClass) => hasBase(t, baseClass, typeContainsDeclaration))] *)
Definition hasAllBases (checker : TypeChecker) (fuel : nat) (t : TypeId)
    (baseClasses : list (option Node)) : Res bool :=
  every (fun baseClass =>
           hasBase checker fuel t baseClass (typeContainsDeclaration checker))
    baseClasses.

Fixpoint findEnclosingClass (checker : TypeChecker) (fuel : nat)
    (baseClasses : list (option Node)) (node : Node) : Res (option TypeId) :=
  let next :=
    match parent node with
    | Some p => findEnclosingClass checker fuel baseClasses p
    | None => TypeError
    end in
  match kind node with
  | ClassDeclaration | ClassExpression =>
    let! declaredType := instanceTypeOf node checker in
    let! b := hasAllBases checker fuel declaredType baseClasses in
    if b then Ok (Some declaredType) else next
  | SourceFile => Ok None
  | _ => next
  end.

Definition printClass (checker : TypeChecker) (declaration : option Node)
    : Res string :=
  match declaration with
  | None => TypeError
  | Some d =>
    let! t := instanceTypeOf d checker in
    Ok (typeToString checker t)
  end.

(** The message of line 61. *)
Definition failVisibility (property typeString : string) (isPrivate : bool)
    : string :=
  "Property '" +:+ property +:+ "' is " +:+
  (if isPrivate then "private" else "protected") +:+
  " and only accessible within class '" +:+ typeString +:+ "'" +:+
  (if isPrivate then "" else " and its subclasses") +:+ ".".

(** [levels] applications of [.parent!], [None] when one of them meets
    [undefined]. *)
Fixpoint ascend (levels : nat) (node : Node) : option Node :=
  match levels with
  | O => Some node
  | S l =>
    match parent node with
    | Some p => ascend l p
    | None => None
    end
  end.

(** The assignment to [node] of the [Decorator] case, shared by the two
    walks (lines 109 to 119 and 208 to 218). *)
Definition decoratorStep {A} (node : Node) : Step A :=
  match parent node with
  | None => Throw
  | Some p =>
    match kind p with
    | ClassDeclaration | ClassExpression => Continue (ascend 2 node)
    | Parameter_ => Continue (ascend 4 node)
    | _ => Continue (ascend 3 node)
    end
  end.

(** The body of the loop of [isStaticSuper]. *)
Definition isStaticSuperStep (node : Node) : Step bool :=
  match kind node with
  | ComputedPropertyName | ExpressionWithTypeArguments =>
    Continue (ascend 3 node)
  | Decorator => decoratorStep node
  | PropertyDeclaration | MethodDeclaration | GetAccessor | SetAccessor =>
    Return (hasModifier (modifiers node) StaticKeyword)
  | Constructor => Return false
  | _ => Continue (ascend 1 node)
  end.

(** The body of the loop of [getThisParameterFromContext]. *)
Definition getThisParameterFromContextStep (node : Node)
    : Step (option ParameterDeclaration) :=
  match kind node with
  | FunctionDeclaration | FunctionExpression | MethodDeclaration =>
    Return match parameters node with
           | p0 :: _ => if isThisParameter p0 then Some p0 else None
           | [] => None
           end
  | ClassDeclaration | ClassExpression | SetAccessor | GetAccessor
  | EnumDeclaration | SourceFile => Return None
  | ComputedPropertyName | ExpressionWithTypeArguments =>
    Continue (ascend 3 node)
  | Decorator => decoratorStep node
  | _ => Continue (ascend 1 node)
  end.

Notation "'up!' p ':=' n 'in' k" :=
  (match parent n with Some p => k | None => TypeError end)
  (at level 10, p name, n at level 9, k at level 200).

Fixpoint isStaticSuper (node : Node) : Res bool :=
  match kind node with
  | ComputedPropertyName | ExpressionWithTypeArguments =>
    up! p1 := node in up! p2 := p1 in up! p3 := p2 in isStaticSuper p3
  | Decorator =>
    up! p1 := node in
    match kind p1 with
    | ClassDeclaration | ClassExpression =>
      up! p2 := p1 in isStaticSuper p2
    | Parameter_ =>
      up! p2 := p1 in up! p3 := p2 in up! p4 := p3 in isStaticSuper p4
    | _ =>
      up! p2 := p1 in up! p3 := p2 in isStaticSuper p3
    end
  | PropertyDeclaration | MethodDeclaration | GetAccessor | SetAccessor =>
    Ok (hasModifier (modifiers node) StaticKeyword)
  | Constructor => Ok false
  | _ => up! p := node in isStaticSuper p
  end.

Fixpoint getThisParameterFromContext (node : Node)
    : Res (option ParameterDeclaration) :=
  match kind node with
  | FunctionDeclaration | FunctionExpression | MethodDeclaration =>
    Ok match parameters node with
       | p0 :: _ => if isThisParameter p0 then Some p0 else None
       | [] => None
       end
  | ClassDeclaration | ClassExpression | SetAccessor | GetAccessor
  | EnumDeclaration | SourceFile => Ok None
  | ComputedPropertyName | ExpressionWithTypeArguments =>
    up! p1 := node in up! p2 := p1 in up! p3 := p2 in
    getThisParameterFromContext p3
  | Decorator =>
    up! p1 := node in
    match kind p1 with
    | ClassDeclaration | ClassExpression =>
      up! p2 := p1 in getThisParameterFromContext p2
    | Parameter_ =>
      up! p2 := p1 in up! p3 := p2 in up! p4 := p3 in
      getThisParameterFromContext p4
    | _ =>
      up! p2 := p1 in up! p3 := p2 in getThisParameterFromContext p3
    end
  | _ => up! p := node in getThisParameterFromContext p
  end.

(** How a walk goes on after one turn of its loop. *)
Definition resume {A} (walk : Node -> Res A) (s : Step A) : Res A :=
  match s with
  | Return a => Ok a
  | Continue (Some n) => walk n
  | Continue None => TypeError
  | Throw => TypeError
  end.

Definition getEnclosingClassFromThisParameter (checker : TypeChecker)
    (fuel : nat) (baseClasses : list (option Node)) (node : Node)
    : Res (option TypeId) :=
  let! thisParameter := getThisParameterFromContext node in
  match thisParameter with
  | None => Ok None
  | Some p =>
    match type_ p with
    | None => Ok None
    | Some typeNode =>
      let thisType := getTypeFromTypeNode checker typeNode in
      match (if isTypeParameter (typeOf checker thisType)
             then getConstraint (typeOf checker thisType)
             else Some thisType) with
      | None => Ok None
      | Some thisType =>
        let thisType := if isTypeReference (typeOf checker thisType)
                        then target (typeOf checker thisType) else thisType in
        let! b := hasAllBases checker fuel thisType baseClasses in
        Ok (if b then Some thisType else None)
      end
    end
  end.

(** [symbol.declarations![0].parent] *)
Definition firstDeclarationParent (symbol : Symbol) : Res (option Node) :=
  match declarations symbol with
  | Some (d :: _) => Ok (parent d)
  | _ => TypeError
  end.

Definition flag (flags mask : Z) : bool := negb (Z.land flags mask =? 0)%Z.

(** Lines 21 to 28: the access through [this] to an abstract property. *)
Definition abstractCheck (checker : TypeChecker) (symbol : Symbol)
    (name : string) (node : ElementAccessExpression) (flags : Z)
    : Res (option string) :=
  if bool_decide (expression_kind node = ThisKeyword)
     && flag flags ModifierFlags.Abstract
  then
    let! nonPrototype := hasNonPrototypeDeclaration symbol in
    if nonPrototype then
      let! enclosingClass :=
        ofParent getEnclosingClassOfAbstractPropertyAccess (access node) in
      match enclosingClass with
      | Some c =>
        let! cls := printClass checker (Some c) in
        Ok (Some ("Abstract property '" +:+ name +:+ "' in class '" +:+ cls
                  +:+ "' cannot be accessed during class initialization."))
      | None => Ok None
      end
    else Ok None
  else Ok None.

(** Lines 29 to 37: the access through [super]. *)
Definition superCheck (checker : TypeChecker) (symbol : Symbol)
    (name : string) (node : ElementAccessExpression) (flags : Z)
    : Res (option string) :=
  if bool_decide (expression_kind node = SuperKeyword)
     && negb (flag flags ModifierFlags.Static)
  then
    let! static := isStaticSuper (access node) in
    if negb static then
      let! nonPrototype := hasNonPrototypeDeclaration symbol in
      if nonPrototype then
        Ok (Some "Only public and protected methods and accessors of the base class are accessible via the 'super' keyword.")
      else if flag flags ModifierFlags.Abstract then
        match declarations symbol with
        | None => TypeError
        | Some ds =>
          if forallb (fun d => hasModifier (modifiers d) AbstractKeyword) ds
          then
            let! declaringClass := firstDeclarationParent symbol in
            let! cls := printClass checker declaringClass in
            Ok (Some ("Abstract member '" +:+ name +:+ "' in class '" +:+ cls
                      +:+ "' cannot be accessed via the 'super' keyword."))
          else Ok None
        end
      else Ok None
    else Ok None
  else Ok None.

(** Lines 39 to 57: private and protected members. *)
Definition visibilityCheck (checker : TypeChecker) (fuel : nat)
    (symbol : Symbol) (name : string) (node : ElementAccessExpression)
    (lhsType : TypeId) (flags : Z) : Res (option string) :=
  if negb (flag flags ModifierFlags.NonPublicAccessibilityModifier) then Ok None
  else if flag flags ModifierFlags.Private then
    let! declaringClass := firstDeclarationParent symbol in
    match declaringClass with
    | None => TypeError
    | Some c =>
      if (pos (access node) <? pos c)%Z || (end_ c <? end_ (access node))%Z
      then
        let! cls := printClass checker (Some c) in
        Ok (Some (failVisibility name cls true))
      else Ok None
    end
  else
    match declarations symbol with
    | None => TypeError
    | Some ds =>
      let declaringClasses := map parent ds in
      let! found :=
        ofParent (findEnclosingClass checker fuel declaringClasses) (access node) in
      let! enclosingClass :=
        match found with
        | Some c => Ok (Some c)
        | None =>
          if negb (flag flags ModifierFlags.Static)
          then ofParent (getEnclosingClassFromThisParameter checker fuel
                           declaringClasses) (access node)
          else Ok None
        end in
      match enclosingClass with
      | None => Ok (Some (failVisibility name (typeToString checker lhsType) false))
      | Some c =>
        if negb (flag flags ModifierFlags.Static) then
          let! inherits := hasBase checker fuel lhsType c isIdentical in
          if negb inherits then
            Ok (Some ("Property '" +:+ name +:+
                      "' is protected and only accessible through an instance of class '"
                      +:+ typeToString checker c +:+ "'."))
          else Ok None
        else Ok None
      end
    end.

(** A check that returned a message ends the function; otherwise the
    next one runs. *)
Definition orElse (first : Res (option string))
    (next : Res (option string)) : Res (option string) :=
  let! r := first in
  match r with
  | Some message => Ok (Some message)
  | None => next
  end.

Definition getRestrictedElementAccessError (checker : TypeChecker)
    (fuel : nat) (symbol : Symbol) (name : string)
    (node : ElementAccessExpression) (lhsType : TypeId)
    : Res (option string) :=
  let flags := getModifierFlagsOfSymbol symbol in
  orElse (abstractCheck checker symbol name node flags)
    (orElse (superCheck checker symbol name node flags)
       (visibilityCheck checker fuel symbol name node lhsType flags)).

(** *** Notions used to state the properties *)

(** The type [recur] goes on with once a type reference has been followed
    to its target. *)
Definition resolved (checker : TypeChecker) (t : TypeId) : TypeId :=
  if isTypeReference (typeOf checker t) then target (typeOf checker t) else t.

(** [t] is, or inherits from, a type that [check] accepts for [needle]:
    the target of a type reference is accepted, or a base type or a member
    of an intersection inherits. *)
Inductive inheritsFrom {T} (checker : TypeChecker)
    (check : TypeId -> T -> Res bool) (needle : T) : TypeId -> Prop :=
| inherits_here t :
    isTypeReference (typeOf checker t) = true ->
    check (target (typeOf checker t)) needle = Ok true ->
    inheritsFrom checker check needle t
| inherits_base t bs b :
    getBaseTypes (typeOf checker (resolved checker t)) = Some bs ->
    b ∈ bs ->
    inheritsFrom checker check needle b ->
    inheritsFrom checker check needle t
| inherits_member t m :
    isIntersectionType (typeOf checker (resolved checker t)) = true ->
    m ∈ types (typeOf checker (resolved checker t)) ->
    inheritsFrom checker check needle m ->
    inheritsFrom checker check needle t.

(** The types [recur] calls itself on from [t]. *)
Definition successors (checker : TypeChecker) (t : TypeId) : list TypeId :=
  default [] (getBaseTypes (typeOf checker (resolved checker t))) ++
  (if isIntersectionType (typeOf checker (resolved checker t))
   then types (typeOf checker (resolved checker t)) else []).

(** The first node, from [node] upwards, that is a function scope
    boundary. *)
Fixpoint nearestBoundary (node : Node) : option Node :=
  if isFunctionScopeBoundary node then Some node
  else match parent node with
       | Some p => nearestBoundary p
       | None => None
       end.

(** The class whose initialization a boundary belongs to: the class
    itself, or the class of a constructor. *)
Definition initializedClass (boundary : Node) : option Node :=
  match kind boundary with
  | ClassDeclaration | ClassExpression => Some boundary
  | Constructor => parent boundary
  | _ => None
  end.

(** The number of levels the walks ascend from a decorator, by the kind
    of the decorated node. *)
Definition decoratorLevels (decorated : SyntaxKind) : nat :=
  match decorated with
  | ClassDeclaration | ClassExpression => 2
  | Parameter_ => 4
  | _ => 3
  end.

(** The messages. *)
Definition abstractPropertyMessage (name cls : string) : string :=
  "Abstract property '" +:+ name +:+ "' in class '" +:+ cls
  +:+ "' cannot be accessed during class initialization.".

Definition superMessage : string :=
  "Only public and protected methods and accessors of the base class are accessible via the 'super' keyword.".

Definition abstractSuperMessage (name cls : string) : string :=
  "Abstract member '" +:+ name +:+ "' in class '" +:+ cls
  +:+ "' cannot be accessed via the 'super' keyword.".

Definition protectedInstanceMessage (name cls : string) : string :=
  "Property '" +:+ name +:+
  "' is protected and only accessible through an instance of class '"
  +:+ cls +:+ "'.".

(** [t] is, or inherits from, each of the declaring classes. *)
Definition inheritsFromAll (checker : TypeChecker)
    (baseClasses : list (option Node)) (t : TypeId) : Prop :=
  ∀ b, b ∈ baseClasses →
       inheritsFrom checker (typeContainsDeclaration checker) b t.

(** The [k] nodes nearest to [node], itself included, are passed by the
    search of [findEnclosingClass]: none is the source file, and those
    that are classes do not have all the declaring classes as bases. *)
Definition passedBySearch (checker : TypeChecker) (fuel : nat)
    (baseClasses : list (option Node)) (node : Node) (k : nat) : Prop :=
  ∀ j c, j < k → ascend j node = Some c →
         kind c ≠ SourceFile ∧
         (isClassLike (kind c) = true →
          ∃ t, getInstanceTypeOfClassLikeDeclaration c checker = Some t ∧
               hasAllBases checker fuel t baseClasses = Ok false).

(** What the search answers is the nearest enclosing class that has all
    the declaring classes as bases, or nothing once the source file is
    reached. *)
Definition nearestEnclosing (checker : TypeChecker) (fuel : nat)
    (baseClasses : list (option Node)) (node : Node)
    (answer : option TypeId) : Prop :=
  ∃ k c, ascend k node = Some c ∧
         passedBySearch checker fuel baseClasses node k ∧
         match answer with
         | Some t =>
           isClassLike (kind c) = true ∧
           getInstanceTypeOfClassLikeDeclaration c checker = Some t ∧
           hasAllBases checker fuel t baseClasses = Ok true ∧
           inheritsFromAll checker baseClasses t
         | None => kind c = SourceFile
         end.

(** The last test of the protected branch (line 54), once the enclosing
    class is known. *)
Definition throughInstanceOf (checker : TypeChecker) (fuel : nat)
    (name : string) (lhsType : TypeId) (flags : Z) (enclosingClass : TypeId)
    : Res (option string) :=
  if negb (flag flags ModifierFlags.Static) then
    let! inherits := hasBase checker fuel lhsType enclosingClass isIdentical in
    if negb inherits then
      Ok (Some (protectedInstanceMessage name (typeToString checker enclosingClass)))
    else Ok None
  else Ok None.

End Resolver.

End Access.

(** ** The formatter loader ([NodeFormatterLoader]) *)

Module FormatterLoader.

(** A value a [throw] hands to [catch]: [undefined], [null], or a value
    whose [code] property is read ([None] when it has none). *)
Inductive Thrown :=
| ThrownUndefined
| ThrownNull
| ThrownValue (code : option string).

Inductive Outcome (A : Type) :=
| Returns (a : A)
| Throws (e : Thrown).
Arguments Returns {A} a.
Arguments Throws {A} e.

Section Loader.

Context {FormatterConstructor : Type}.

(** What [require] yields: the [Formatter] export of the module, [None]
    when the module has none. *)
Record LoadedModule := mkModule { Formatter : option FormatterConstructor }.

(** [require], [resolver.resolve], the keys of [require.extensions],
    [module.paths] and the constant of [../utils]. *)
Variable require : string -> Outcome LoadedModule.
Variable resolve :
  string -> string -> list string -> list string -> Outcome string.
Variable extensions : list string.
Variable paths : list string.
Variable OFFSET_TO_NODE_MODULES : nat.

Definition loadCoreFormatter (name : string)
    : Outcome (option FormatterConstructor) :=
  match require ("../formatters/" +:+ name +:+ ".js") with
  | Returns m => Returns (Formatter m)
  | Throws e =>
    match e with
    | ThrownValue (Some code) =>
      if String.eqb code "MODULE_NOT_FOUND" then Returns None else Throws e
    | _ => Throws e
    end
  end.

(** [Object.keys(require.extensions).filter((ext) => ext !== '.json' && ext !== '.node')] *)
Definition resolvableExtensions : list string :=
  List.filter
    (fun ext => negb (String.eqb ext ".json") && negb (String.eqb ext ".node"))
    extensions.

(** [module.paths.slice(OFFSET_TO_NODE_MODULES + 1)] *)
Definition searchPaths : list string :=
  drop (OFFSET_TO_NODE_MODULES + 1) paths.

Definition loadCustomFormatter (name basedir : string)
    : Outcome (option FormatterConstructor) :=
  match resolve name basedir resolvableExtensions searchPaths with
  | Throws _ => Returns None
  | Returns resolved =>
    match require resolved with
    | Returns m => Returns (Formatter m)
    | Throws e => Throws e
    end
  end.

End Loader.

End FormatterLoader.

(** ** The rule on promises returned inside [try] (the second file of
    [part_001]) *)

Module TryCatchRule.

Local Notation "'let!' x ':=' m 'in' k" := (Access.bind m (fun x => k))
  (at level 10, x name, m at level 100, k at level 200).

(** An expression as [checkReturnExpression] reads it. *)
Inductive Expression :=
| ParenthesizedExpression (pos : Z) (expression : Expression)
| AwaitExpression (pos : Z)
| OtherExpression (pos : Z) (id : nat).

Definition pos (e : Expression) : Z :=
  match e with
  | ParenthesizedExpression p _ | AwaitExpression p | OtherExpression p _ => p
  end.

Definition TypeId := nat.
Definition SymbolId := nat.

Record Signature := mkSignature { parameters : list SymbolId }.

(** What the rule reads of a [ts.Type]. *)
Record Type_ := mkType {
  isUnionType : bool;
  types : list TypeId;
  getCallSignatures : list Signature;
  getProperty : string -> option SymbolId }.

Record TypeChecker := mkChecker {
  typeOf : TypeId -> Type_;
  getTypeAtLocation : Expression -> TypeId;
  getApparentType : TypeId -> TypeId;
  getTypeOfSymbolAtLocation : SymbolId -> Expression -> TypeId }.

(** What the rule reads of the node of a wrap. *)
Inductive NodeShape :=
| ReturnStatement (expression : option Expression)
| TryStatement (catchClause finallyBlock : bool)
| OtherNode.

Record TsNode := mkTsNode {
  shape : NodeShape;
  isFunctionWithBody : bool;
  hasAsyncModifier : bool;
  isFunctionScopeBoundary : bool }.

(** A [NodeWrap] of tsutils; the wraps refer to one another, so they are
    named and kept in a store. *)
Definition WrapId := nat.

Record NodeWrap := mkWrap {
  node : TsNode;
  children : list WrapId;
  next : option WrapId;
  skip : option WrapId }.

Record WrappedAst := mkAst {
  wraps : gmap WrapId NodeWrap;
  root : WrapId }.

(** The field [inTryCatch] of the rule and the calls of [addFailure] made
    so far. *)
Record RuleState := mkRuleState {
  inTryCatch : bool;
  reported : list Linter.Report }.

Definition setInTryCatch (b : bool) (st : RuleState) : RuleState :=
  mkRuleState b (reported st).

(** [Rule.supports] *)
Definition supports {SourceFile} (isDeclarationFile : SourceFile -> bool)
    (sourceFile : SourceFile) : bool :=
  negb (isDeclarationFile sourceFile).

Section Rule.

Variable checker : TypeChecker.
(** [Replacement.append] of [../types]. *)
Variable append : Z -> string -> Linter.Replacement.
Variable ast : WrappedAst.

Definition unionOrSingle (t : TypeId) : list TypeId :=
  if isUnionType (typeOf checker t) then types (typeOf checker t) else [t].

Definition isCallback (param : SymbolId) (node : Expression) : bool :=
  let type :=
    getApparentType checker (getTypeOfSymbolAtLocation checker param node) in
  existsb (fun t => negb (length (getCallSignatures (typeOf checker t)) =? 0))
    (unionOrSingle type).

Definition isPromiseLike (node : Expression) : bool :=
  let type := getApparentType checker (getTypeAtLocation checker node) in
  match getProperty (typeOf checker type) "then" with
  | None => false
  | Some then_ =>
    let thenType := getTypeOfSymbolAtLocation checker then_ node in
    existsb
      (fun t =>
         existsb
           (fun signature =>
              match parameters signature with
              | p0 :: _ => isCallback p0 node
              | [] => false
              end)
           (getCallSignatures (typeOf checker t)))
      (unionOrSingle thenType)
  end.

(** [while (isParenthesizedExpression(node)) node = node.expression;] *)
Fixpoint unparenthesized (node : Expression) : Expression :=
  match node with
  | ParenthesizedExpression _ expression => unparenthesized expression
  | _ => node
  end.

Definition message : string :=
  "Missing 'await' of Promise returned inside try-catch.".

Definition checkReturnExpression (node : Expression) (st : RuleState)
    : RuleState :=
  let pos := pos node in
  match unparenthesized node with
  | AwaitExpression _ => st
  | inner =>
    if isPromiseLike inner then
      mkRuleState (inTryCatch st)
        (reported st ++
         [Linter.AddFailure (pos - Z.of_nat (String.length "return")) pos
            message (Linter.FixOne (append pos " await"))])
    else st
  end.

(** [wraps.forEach(this.visitNode, this)] *)
Fixpoint forEach (visit : WrapId -> RuleState -> Access.Res RuleState)
    (wraps : list WrapId) (st : RuleState) : Access.Res RuleState :=
  match wraps with
  | [] => Access.Ok st
  | w :: rest => let! st' := visit w st in forEach visit rest st'
  end.

(** A wrap read through a reference; [undefined] has no property. *)
Definition deref (wrap : option WrapId) : Access.Res NodeWrap :=
  match wrap ≫= (fun w => wraps ast !! w) with
  | Some w => Access.Ok w
  | None => Access.TypeError
  end.

Fixpoint iterate (fuel : nat) (wrap end_ : option WrapId) (inTryCatch : bool)
    (st : RuleState) {struct fuel} : Access.Res RuleState :=
  match fuel with
  | O => Access.OutOfFuel
  | S fuel' =>
    let! w := deref wrap in
    let! turn :=
      (if isFunctionWithBody (node w) && hasAsyncModifier (node w) then
         let! st' := forEach (visitNode fuel') (children w)
                       (setInTryCatch false st) in
         Access.Ok (skip w, setInTryCatch inTryCatch st')
       else Access.Ok (next w, st)) in
    if bool_decide (fst turn = end_) then Access.Ok (snd turn)
    else iterate fuel' (fst turn) end_ inTryCatch (snd turn)
  end
with visitNode (fuel : nat) (wrap : WrapId) (st : RuleState) {struct fuel}
    : Access.Res RuleState :=
  match fuel with
  | O => Access.OutOfFuel
  | S fuel' =>
    let! w := deref (Some wrap) in
    let rest (st : RuleState) :=
      if isFunctionScopeBoundary (node w)
      then iterate fuel' (Some wrap) (skip w) (TryCatchRule.inTryCatch st) st
      else forEach (visitNode fuel') (children w) st in
    let childrenOf (index : nat) (st : RuleState) :=
      let! child := deref (children w !! index) in
      forEach (visitNode fuel') (children child) st in
    if TryCatchRule.inTryCatch st then
      match shape (node w) with
      | ReturnStatement None => Access.Ok st
      | ReturnStatement (Some expression) =>
        let! st' := iterate fuel' (next w) (skip w) true
                      (checkReturnExpression expression st) in
        rest st'
      | _ => rest st
      end
    else
      match shape (node w) with
      | TryStatement catchClause finallyBlock =>
        let! st1 := childrenOf 0 (setInTryCatch true st) in
        let! st2 :=
          (if catchClause
           then childrenOf 1 (setInTryCatch finallyBlock st1)
           else Access.Ok st1) in
        if finallyBlock
        then match length (children w) with
             | O => Access.TypeError
             | S last => childrenOf last (setInTryCatch false st2)
             end
        else Access.Ok (setInTryCatch false st2)
      | _ => rest st
      end
  end.

(** [apply()]: the calls of [addFailure] it makes. *)
Definition apply (fuel : nat) : Access.Res (list Linter.Report) :=
  let! w := deref (Some (root ast)) in
  let! st := iterate fuel (next w) None false (mkRuleState false []) in
  Access.Ok (reported st).

(** *** Notions used to state the properties *)

(** The report [checkReturnExpression] makes for an expression at [pos]. *)
Definition missingAwait (pos : Z) : Linter.Report :=
  Linter.AddFailure (pos - 6) pos message (Linter.FixOne (append pos " await")).

(** The list linked by [next] ends at most [n] wraps after [wrap]. *)
Fixpoint endsWithin (n : nat) (wrap : option WrapId) : bool :=
  match n, wrap with
  | S n', Some w =>
    match wraps ast !! w with
    | Some nw =>
      match next nw with
      | None => true
      | following => endsWithin n' following
      end
    | None => false
    end
  | _, _ => false
  end.

(** A report points at a [return] of the file whose expression, without
    its parentheses, is not an [await] and is like a promise. *)
Definition pointsAtReturn (r : Linter.Report) : Prop :=
  ∃ w wrap expression,
    wraps ast !! w = Some wrap ∧
    shape (node wrap) = ReturnStatement (Some expression) ∧
    (∀ p, unparenthesized expression ≠ AwaitExpression p) ∧
    isPromiseLike (unparenthesized expression) = true ∧
    r = missingAwait (pos expression).

End Rule.

End TryCatchRule.

(** ** A small configuration to run the linter on *)

Module LinterFixtures.
Import Linter.

(** A source file is its text here; there is no program, and options and
    settings carry nothing. *)
Definition noFoo : @RuleConstructor string unit unit unit :=
  mkCtor false None
    (fun _ =>
       [ AddFailure 3 6 "foo is forbidden." (FixOne (mkReplacement 3 6 "bar"));
         AddFailureAt 12 3 "foo is forbidden." FixUndefined;
         AddFailureAtNode 20 23 "foo is forbidden." FixUndefined;
         AddFailure 7 10 "foo is forbidden." (FixMany []) ]).

Definition loadRule (name : string) (_ : option (list string))
    : option (@RuleConstructor string unit unit unit) :=
  if String.eqb name "no-foo" then Some noFoo else None.

(** One disabled range, [10, 20), for the rule [no-foo]. *)
Definition getDisabledRanges (_ : list string) (_ : string) : DisableMap :=
  {[ "no-foo" := [mkRange 10 20] ]}.

Definition getLineAndCharacterOfPosition (_ : string) (p : Z) : Z * Z :=
  (0%Z, p).

Definition applyFixes (content : string) (fixes : list Fix) : FixResult :=
  mkFixResult content (length fixes) (mkChange (mkRange 0 0) 0).

Definition calculateChangeRange (_ _ : string) : TextChangeRange :=
  mkChange (mkRange 0 0) 0.

Definition config : @EffectiveConfiguration unit unit :=
  mkConfig [("no-foo", mkRuleConfig tt "error" None "no-foo")] tt.

Definition prepared : @PreparedRule string unit unit unit :=
  mkPrepared "no-foo" tt "error" noFoo.

Definition updateFile : @UpdateFileCallback string unit :=
  fun content _ => mkUpdate content None.

Definition file : string := "let foo; let foo; let foo;".

(** A processor for a script embedded at an offset of its host file: its
    [postprocess] moves the failures by that offset. *)
Definition shift (offset : Z) (f : Failure) : Failure :=
  mkFailure (f_ruleName f) (f_severity f) (f_message f)
    (mkPosition (position (f_start f) + offset) (line (f_start f))
       (character (f_start f)))
    (mkPosition (position (f_end f) + offset) (line (f_end f))
       (character (f_end f)))
    (f_fix f).

Definition embedded : AbstractProcessor :=
  mkProcessor Z 100%Z
    (fun offset content _ => mkUpdateSource content None offset)
    (fun offset failures => map (shift offset) failures).

(** The same rule switched off. *)
Definition configOff : @EffectiveConfiguration unit unit :=
  mkConfig [("no-foo", mkRuleConfig tt "off" None "no-foo")] tt.

End LinterFixtures.

(** ** Small programs to run the resolver on *)

Module AccessFixtures.
Import Access.

(** Kinds the resolver does not tell apart. *)
Definition Block : SyntaxKind := OtherKind 0.
Definition Statement : SyntaxKind := OtherKind 1.
Definition CallExpression : SyntaxKind := OtherKind 2.
Definition ElementAccess : SyntaxKind := OtherKind 3.
Definition Identifier : SyntaxKind := OtherKind 4.

Definition flagOfModifier (k : SyntaxKind) : Z :=
  match k with
  | AbstractKeyword => ModifierFlags.Abstract
  | StaticKeyword => ModifierFlags.Static
  | PrivateKeyword => ModifierFlags.Private
  | ProtectedKeyword => ModifierFlags.Protected
  | _ => ModifierFlags.None
  end.

(** The flags of the modifiers written on the declaration. *)
Definition getCombinedModifierFlags (n : Node) : Z :=
  fold_left (fun flags k => Z.lor flags (flagOfModifier k))
    (default [] (modifiers n)) 0%Z.

(** tsutils' predicate on the kinds modelled; the file is a module. *)
Definition isFunctionScopeBoundary (n : Node) : bool :=
  match kind n with
  | FunctionExpression | FunctionDeclaration | Constructor
  | ClassDeclaration | ClassExpression | EnumDeclaration
  | MethodDeclaration | MethodSignature | GetAccessor | SetAccessor
  | SourceFile => true
  | _ => false
  end.

Definition node (id : nat) (k : SyntaxKind) (pos end_ : Z)
    (mods : list SyntaxKind) (parent : Node) : Node :=
  mkNode id k pos end_
    (match mods with [] => None | _ => Some mods end) [] (Some parent).

Definition sourceFile : Node :=
  mkNode 0 SourceFile 0 100 None [] None.

(** In each program the first class, [A], is the node 1 and has the type
    10; the second class is the node 2, has the type 11 and extends [A].
    A node that is no class has no class name or keyword to look up. *)
Definition getInstanceTypeOfClassLikeDeclaration (n : Node)
    (_ : TypeChecker) : option TypeId :=
  if isClassLike (kind n) then Some (9 + id n) else None.

Definition classType (self : TypeId) (bases : list TypeId) (declaration : nat)
    : Type_ :=
  mkType true self (Some bases) false []
    (Some (mkSymbol (Some [mkNode declaration ClassDeclaration 0 0 None [] None])))
    false None.

Definition checker : TypeChecker :=
  mkChecker
    (fun t => match t with
              | 10 => classType 10 [] 1
              | 11 => classType 11 [10] 2
              | _ => mkType false 0 None false [] None false None
              end)
    (fun t => match t with 10 => "A" | 11 => "B" | _ => "any" end)
    (fun typeNode => 10).

Definition resolve :=
  getRestrictedElementAccessError getCombinedModifierFlags
    isFunctionScopeBoundary getInstanceTypeOfClassLikeDeclaration checker 8.

(** [abstract class A { abstract m(): void; constructor() { this['m'](); } }] *)
Module AbstractMethodInConstructor.
Definition classA := node 1 ClassDeclaration 0 71 [AbstractKeyword] sourceFile.
Definition m := node 3 MethodDeclaration 18 38 [AbstractKeyword] classA.
Definition ctor := node 4 Constructor 38 69 [] classA.
Definition body := node 5 Block 52 69 [] ctor.
Definition statement := node 6 Statement 54 67 [] body.
Definition call := node 7 CallExpression 54 66 [] statement.
Definition access := mkAccess ThisKeyword (node 8 ElementAccess 54 64 [] call).
Definition symbol := mkSymbol (Some [m]).
End AbstractMethodInConstructor.

(** [abstract class A { abstract x: number; constructor() { this['x']; } }] *)
Module AbstractPropertyInConstructor.
Definition classA := node 1 ClassDeclaration 0 70 [AbstractKeyword] sourceFile.
Definition x := node 3 PropertyDeclaration 18 39 [AbstractKeyword] classA.
Definition ctor := node 4 Constructor 39 68 [] classA.
Definition body := node 5 Block 53 68 [] ctor.
Definition statement := node 6 Statement 55 66 [] body.
Definition access := mkAccess ThisKeyword (node 7 ElementAccess 55 65 [] statement).
Definition symbol := mkSymbol (Some [x]).
End AbstractPropertyInConstructor.

(** [class B extends Base { m() { return super['a']; } }], where the
    property [a] of the base type comes from a mapped type and its symbol
    has no declarations. *)
Module SuperWithoutDeclarations.
Definition classB := node 2 ClassDeclaration 0 51 [] sourceFile.
Definition m := node 3 MethodDeclaration 22 49 [] classB.
Definition body := node 4 Block 26 49 [] m.
Definition statement := node 5 Statement 28 47 [] body.
Definition access := mkAccess SuperKeyword (node 6 ElementAccess 34 46 [] statement).
Definition symbol := mkSymbol None.
End SuperWithoutDeclarations.

(** [abstract class A { abstract m(): void }
     class B extends A { m() { super['m'](); } }] *)
Module AbstractMethodViaSuper.
Definition classA := node 1 ClassDeclaration 0 39 [AbstractKeyword] sourceFile.
Definition mA := node 3 MethodDeclaration 18 37 [AbstractKeyword] classA.
Definition classB := node 2 ClassDeclaration 39 83 [] sourceFile.
Definition mB := node 4 MethodDeclaration 59 81 [] classB.
Definition body := node 5 Block 63 81 [] mB.
Definition statement := node 6 Statement 65 79 [] body.
Definition call := node 7 CallExpression 65 78 [] statement.
Definition access := mkAccess SuperKeyword (node 8 ElementAccess 65 76 [] call).
Definition symbol := mkSymbol (Some [mA]).
End AbstractMethodViaSuper.

(** [class A { private x = 1;
               static B = class extends A { m() { return super['x']; } } }] *)
Module PrivateViaSuperInside.
Definition classA := node 1 ClassDeclaration 0 84 [] sourceFile.
Definition x := node 3 PropertyDeclaration 9 23 [PrivateKeyword] classA.
Definition b := node 4 PropertyDeclaration 23 82 [StaticKeyword] classA.
Definition classB := node 2 ClassExpression 34 82 [] b.
Definition m := node 5 MethodDeclaration 52 80 [] classB.
Definition body := node 6 Block 56 80 [] m.
Definition statement := node 7 Statement 58 78 [] body.
Definition access := mkAccess SuperKeyword (node 8 ElementAccess 64 77 [] statement).
Definition symbol := mkSymbol (Some [x]).
End PrivateViaSuperInside.

(** [class A { private x = 1 }
     class B extends A { m() { return this['x']; } }] *)
Module PrivateInSubclass.
Definition classA := node 1 ClassDeclaration 0 25 [] sourceFile.
Definition x := node 3 PropertyDeclaration 9 23 [PrivateKeyword] classA.
Definition classB := node 2 ClassDeclaration 25 73 [] sourceFile.
Definition m := node 4 MethodDeclaration 45 71 [] classB.
Definition body := node 5 Block 49 71 [] m.
Definition statement := node 6 Statement 51 69 [] body.
Definition access := mkAccess ThisKeyword (node 7 ElementAccess 57 68 [] statement).
Definition symbol := mkSymbol (Some [x]).
End PrivateInSubclass.

(** [class A { constructor(protected x: number) {} m() { return this['x']; } }]:
    the declaration of the property [x] is the parameter, whose parent is
    the constructor. *)
Module ProtectedParameterInOwnClass.
Definition classA := node 1 ClassDeclaration 0 75 [] sourceFile.
Definition ctor := node 3 Constructor 9 45 [] classA.
Definition x := node 4 Parameter_ 22 41 [ProtectedKeyword] ctor.
Definition m := node 5 MethodDeclaration 45 73 [] classA.
Definition body := node 6 Block 49 73 [] m.
Definition statement := node 7 Statement 51 71 [] body.
Definition access := mkAccess ThisKeyword (node 8 ElementAccess 57 70 [] statement).
Definition symbol := mkSymbol (Some [x]).
End ProtectedParameterInOwnClass.

(** [class A { constructor(private x: number) {} m() { return this['x']; } }] *)
Module PrivateParameterInOwnClass.
Definition classA := node 1 ClassDeclaration 0 73 [] sourceFile.
Definition ctor := node 3 Constructor 9 43 [] classA.
Definition x := node 4 Parameter_ 22 39 [PrivateKeyword] ctor.
Definition m := node 5 MethodDeclaration 43 71 [] classA.
Definition body := node 6 Block 47 71 [] m.
Definition statement := node 7 Statement 49 69 [] body.
Definition access := mkAccess ThisKeyword (node 8 ElementAccess 55 68 [] statement).
Definition symbol := mkSymbol (Some [x]).
End PrivateParameterInOwnClass.

(** [class A { protected x = 1 }
     class B extends A { m(other: A) { return other['x']; } }] *)
Module ProtectedThroughBase.
Definition classA := node 1 ClassDeclaration 0 27 [] sourceFile.
Definition x := node 3 PropertyDeclaration 9 25 [ProtectedKeyword] classA.
Definition classB := node 2 ClassDeclaration 27 85 [] sourceFile.
Definition m : Node :=
    mkNode 4 MethodDeclaration 47 83 None [mkParameter false (Some 0)]
      (Some classB).
Definition body := node 5 Block 59 83 [] m.
Definition statement := node 6 Statement 61 81 [] body.
Definition access := mkAccess Identifier (node 7 ElementAccess 67 80 [] statement).
Definition symbol := mkSymbol (Some [x]).
End ProtectedThroughBase.

(** [class A { static m() { @dec(super['x']) class B extends A {} } }] *)
Module ClassDecorator.
Definition classA := node 1 ClassDeclaration 0 64 [] sourceFile.
Definition m := node 3 MethodDeclaration 9 62 [StaticKeyword] classA.
Definition body := node 4 Block 20 62 [] m.
Definition classB := node 2 ClassDeclaration 22 60 [] body.
Definition decorator := node 5 Decorator 22 40 [] classB.
Definition call := node 6 CallExpression 24 40 [] decorator.
Definition access := mkAccess SuperKeyword (node 7 ElementAccess 28 39 [] call).
End ClassDecorator.

(** [class A { private x = 1; m() { return this['x']; } }] *)
Module PrivateInOwnClass.
Definition classA := node 1 ClassDeclaration 0 52 [] sourceFile.
Definition x := node 3 PropertyDeclaration 9 23 [PrivateKeyword] classA.
Definition m := node 4 MethodDeclaration 23 50 [] classA.
Definition body := node 5 Block 27 50 [] m.
Definition statement := node 6 Statement 29 48 [] body.
Definition access := mkAccess ThisKeyword (node 7 ElementAccess 35 47 [] statement).
Definition symbol := mkSymbol (Some [x]).
End PrivateInOwnClass.

(** The rank of the types of [checker]: [B] is above its base [A]. *)
Definition rank (t : TypeId) : nat :=
  match t with
  | 11 => 1
  | _ => 0
  end.

End AccessFixtures.

(** ** A configuration whose fix converges *)

Module FixableFixtures.
Import Linter.

(** A rule that reports a leading [var], with the fix that writes [let],
    and one that reports it without a fix. *)
Definition noVar : @RuleConstructor string unit unit unit :=
  mkCtor false None
    (fun env =>
       if String.prefix "var" (env_sourceFile env)
       then [AddFailure 0 3 "Use let." (FixOne (mkReplacement 0 3 "let"))]
       else []).

Definition warnVar : @RuleConstructor string unit unit unit :=
  mkCtor false None
    (fun env =>
       if String.prefix "var" (env_sourceFile env)
       then [AddFailureAt 0 3 "Avoid var." FixUndefined]
       else []).

Definition loadRule (name : string) (_ : option (list string))
    : option (@RuleConstructor string unit unit unit) :=
  if String.eqb name "no-var" then Some noVar
  else if String.eqb name "warn-var" then Some warnVar
  else None.

Definition getDisabledRanges (_ : list string) (_ : string) : DisableMap := ∅.

Definition getLineAndCharacterOfPosition (_ : string) (p : Z) : Z * Z :=
  (0%Z, p).

Definition applyReplacement (content : string) (r : Replacement) : string :=
  String.substring 0 (Z.to_nat (r_start r)) content +:+ r_text r +:+
  String.substring (Z.to_nat (r_end r))
    (String.length content - Z.to_nat (r_end r)) content.

(** Applies the first replacement of the first fix. *)
Definition applyFixes (content : string) (fixes : list Fix) : FixResult :=
  match fixes with
  | {| replacements := r :: _ |} :: _ =>
    mkFixResult (applyReplacement content r) 1
      (mkChange (mkRange (r_start r) (r_end r))
         (Z.of_nat (String.length (r_text r))))
  | _ => mkFixResult content 0 (mkChange (mkRange 0 0) 0)
  end.

Definition calculateChangeRange (_ _ : string) : TextChangeRange :=
  mkChange (mkRange 0 0) 0.

Definition updateFile : @UpdateFileCallback string unit :=
  fun content _ => mkUpdate content None.

Definition fixing : @EffectiveConfiguration unit unit :=
  mkConfig [("no-var", mkRuleConfig tt "error" None "no-var")] tt.

Definition warning : @EffectiveConfiguration unit unit :=
  mkConfig [("warn-var", mkRuleConfig tt "warning" None "warn-var")] tt.

Definition file : string := "var x = 1;".

End FixableFixtures.

(** ** A function with a [this] parameter *)

Module ThisParameterFixtures.
Import Access AccessFixtures.

(** [class A { x = 1 }
     function f(this: A) { return () => this['x']; }] *)
Definition classA := node 1 ClassDeclaration 0 17 [] sourceFile.
Definition x := node 3 PropertyDeclaration 9 15 [] classA.
Definition thisParameter : ParameterDeclaration := mkParameter true (Some 0).
Definition f : Node :=
  mkNode 4 FunctionDeclaration 17 64 None [thisParameter] (Some sourceFile).
Definition body := node 5 Block 37 64 [] f.
Definition statement := node 6 Statement 39 62 [] body.
Definition arrow := node 7 (OtherKind 5) 46 61 [] statement.
Definition access := mkAccess ThisKeyword (node 8 ElementAccess 52 61 [] arrow).
Definition symbol := mkSymbol (Some [x]).

End ThisParameterFixtures.

(** ** A file to run the rule of [part_001] on *)

Module TryCatchFixtures.
Import TryCatchRule.

(** The type 1 is like a promise: its property [then] (the symbol 1) has
    the type 2, whose signature takes the symbol 2, of the callable type
    3. Expressions with the id 1 have the type 1. *)
Definition checker : TypeChecker :=
  mkChecker
    (fun t => match t with
              | 1 => mkType false [] []
                       (fun name => if String.eqb name "then" then Some 1 else None)
              | 2 => mkType false [] [mkSignature [2]] (fun _ => None)
              | 3 => mkType false [] [mkSignature []] (fun _ => None)
              | _ => mkType false [] [] (fun _ => None)
              end)
    (fun e => match e with
              | OtherExpression _ 1 => 1
              | _ => 0
              end)
    (fun t => t)
    (fun symbol _ => match symbol with 1 => 2 | 2 => 3 | _ => 0 end).

Definition append (pos : Z) (text : string) : Linter.Replacement :=
  Linter.mkReplacement pos pos text.

Definition plain : TsNode := mkTsNode OtherNode false false false.
Definition asyncFunction : TsNode := mkTsNode OtherNode true true true.
Definition function : TsNode := mkTsNode OtherNode true false true.

(** The call [g()], a promise, at the offset 35. *)
Definition call : Expression := OtherExpression 35 1.

(** [async function f() { try { return (g()); } catch { } }] as tsutils
    wraps it: the file 0, the function 1, its body 2, the [try] 3, its
    block 4, the [return] 5, the parentheses 6, the call 7, the catch
    clause 8 and its block 9. *)
Definition wrapsOf (f : TsNode) : gmap WrapId NodeWrap :=
  list_to_map
    [ (0, mkWrap plain [1] (Some 1) None);
      (1, mkWrap f [2] (Some 2) None);
      (2, mkWrap plain [3] (Some 3) None);
      (3, mkWrap (mkTsNode (TryStatement true false) false false false)
            [4; 8] (Some 4) None);
      (4, mkWrap plain [5] (Some 5) (Some 8));
      (5, mkWrap (mkTsNode
                    (ReturnStatement (Some (ParenthesizedExpression 33 call)))
                    false false false)
            [6] (Some 6) (Some 8));
      (6, mkWrap plain [7] (Some 7) (Some 8));
      (7, mkWrap plain [] (Some 8) (Some 8));
      (8, mkWrap plain [9] (Some 9) None);
      (9, mkWrap plain [] None None) ].

Definition asyncFile : WrappedAst := mkAst (wrapsOf asyncFunction) 0.

(** The same file with a function that is not [async]. *)
Definition syncFile : WrappedAst := mkAst (wrapsOf function) 0.

(** [async function f() { try { return async () => { try { return g(); } catch { } }; } catch { } }]:
    the file 0, the function 1, its body 2, the outer [try] 3, its block
    4, the outer [return] 5, the arrow function 6, its body 7, the inner
    [try] 8, its block 9, the inner [return] 10, the call 11, the inner
    catch clause 12 and its block 13, the outer catch clause 14 and its
    block 15. The arrow function, the expression 2, is no promise. *)
Definition nestedFile : WrappedAst :=
  mkAst
    (list_to_map
       [ (0, mkWrap plain [1] (Some 1) None);
         (1, mkWrap asyncFunction [2] (Some 2) None);
         (2, mkWrap plain [3] (Some 3) None);
         (3, mkWrap (mkTsNode (TryStatement true false) false false false)
               [4; 14] (Some 4) None);
         (4, mkWrap plain [5] (Some 5) (Some 14));
         (5, mkWrap (mkTsNode (ReturnStatement (Some (OtherExpression 33 2)))
                       false false false)
               [6] (Some 6) (Some 14));
         (6, mkWrap asyncFunction [7] (Some 7) (Some 14));
         (7, mkWrap plain [8] (Some 8) (Some 14));
         (8, mkWrap (mkTsNode (TryStatement true false) false false false)
               [9; 12] (Some 9) (Some 14));
         (9, mkWrap plain [10] (Some 10) (Some 12));
         (10, mkWrap (mkTsNode (ReturnStatement (Some (OtherExpression 60 1)))
                        false false false)
                [11] (Some 11) (Some 12));
         (11, mkWrap plain [] (Some 12) (Some 12));
         (12, mkWrap plain [13] (Some 13) (Some 14));
         (13, mkWrap plain [] (Some 14) (Some 14));
         (14, mkWrap plain [15] (Some 15) None);
         (15, mkWrap plain [] None None) ])
    0.

(** The rule as the linter loads it. A source file is its
    [isDeclarationFile] here, and the rule runs on [asyncFile]. *)
Definition isDeclarationFile (file : bool) : bool := file.

Definition rule : @Linter.RuleConstructor bool unit unit unit :=
  Linter.mkCtor true
    (Some (fun file _ _ => supports isDeclarationFile file))
    (fun _ =>
       match apply checker append asyncFile 20 with
       | Access.Ok reports => reports
       | _ => []
       end).

Definition loadRule (name : string) (_ : option (list string))
    : option (@Linter.RuleConstructor bool unit unit unit) :=
  if String.eqb name "try-catch-return-await" then Some rule else None.

Definition config : @Linter.EffectiveConfiguration unit unit :=
  Linter.mkConfig
    [("try-catch-return-await",
      Linter.mkRuleConfig tt "error" None "try-catch-return-await")] tt.

End TryCatchFixtures.

(** ** Modules for the formatter loader to find *)

Module LoaderFixtures.
Import FormatterLoader.

(** A formatter is its name here. The core formatter [json] exists, the
    file of [broken] fails to parse, and the custom formatter [custom]
    resolves to a file that throws [null] when it is loaded. *)
Definition require (file : string) : Outcome (@LoadedModule string) :=
  if String.eqb file "../formatters/json.js"
  then Returns (mkModule (Some "json"))
  else if String.eqb file "../formatters/broken.js"
  then Throws (ThrownValue (Some "ERR_INVALID_SYNTAX"))
  else if String.eqb file "/project/node_modules/custom/index.js"
  then Throws ThrownNull
  else Throws (ThrownValue (Some "MODULE_NOT_FOUND")).

Definition resolve (name basedir : string) (extensions paths : list string)
    : Outcome string :=
  if String.eqb name "custom"
  then Returns (basedir +:+ "/node_modules/custom/index.js")
  else Throws (ThrownValue (Some "MODULE_NOT_FOUND")).

Definition extensions : list string := [".js"; ".json"; ".node"; ".ts"].

Definition paths : list string :=
  ["/wotan/src/services/node_modules"; "/wotan/src/node_modules";
   "/wotan/node_modules"; "/node_modules"].

End LoaderFixtures.

(* ===================================================================== *)
(** * Part II: properties                                                  *)
(* ===================================================================== *)

#[local] Set Default Proof Using "Type".

Module LinterProperties.
Import Linter.

(** *** [prepareRules] *)

Section Prepare.

Context {SourceFile Program Options Settings : Type}.

Local Abbreviation Ctor := (@RuleConstructor SourceFile Program Options Settings).
Local Abbreviation Config := (@EffectiveConfiguration Options Settings).
Local Abbreviation Prepared := (@PreparedRule SourceFile Program Options Settings).

Variable loadRule : string -> option (list string) -> option Ctor.

(** What one configured rule contributes to the prepared list. *)
Let kept (config : Config) (sourceFile : SourceFile)
    (program : option Program) (entry : string * RuleConfig)
    : option Prepared :=
  fst (prepareRule loadRule config sourceFile program ([], []) entry) !! 0%nat.

Let warned (config : Config) (sourceFile : SourceFile)
    (program : option Program) (entry : string * RuleConfig)
    : option string :=
  snd (prepareRule loadRule config sourceFile program ([], []) entry) !! 0%nat.

Lemma prepareRule_acc config sourceFile program rs ws entry :
  prepareRule loadRule config sourceFile program (rs, ws) entry =
  (rs ++ option_list (kept config sourceFile program entry),
   ws ++ option_list (warned config sourceFile program entry)).
Proof.
  unfold kept, warned, prepareRule. destruct entry as [name c].
  destruct (String.eqb (severity c) "off"); simpl;
    [by rewrite !app_nil_r|].
  destruct (loadRule (rule c) (rulesDirectories c)) as [ctor|]; simpl;
    [|by rewrite !app_nil_r].
  destruct (isUndefined program && requiresTypeInformation ctor); simpl;
    [by rewrite !app_nil_r|].
  destruct (supports ctor) as [supp|]; simpl; [|by rewrite !app_nil_r].
  destruct (supp sourceFile (options c) (settings config)); simpl;
    by rewrite !app_nil_r.
Qed.

Lemma prepareRules_fold config sourceFile program entries rs ws :
  fold_left (prepareRule loadRule config sourceFile program) entries (rs, ws) =
  (rs ++ omap (kept config sourceFile program) entries,
   ws ++ omap (warned config sourceFile program) entries).
Proof.
  revert rs ws. induction entries as [|entry entries IH]; intros rs ws; simpl.
  - by rewrite !app_nil_r.
  - rewrite prepareRule_acc, IH, <- !app_assoc. f_equal; f_equal.
    + by destruct (kept config sourceFile program entry).
    + by destruct (warned config sourceFile program entry).
Qed.

Lemma kept_Some config sourceFile program name c p :
  kept config sourceFile program (name, c) = Some p ↔
  ∃ ctor, applicable loadRule config sourceFile program c ctor ∧
          p = mkPrepared name (options c) (severity c) ctor.
Proof.
  unfold kept, prepareRule, applicable.
  destruct (String.eqb_spec (severity c) "off") as [Hoff|Hoff]; simpl.
  { split; [done|]. intros (ctor & (Hs & _) & _). done. }
  destruct (loadRule (rule c) (rulesDirectories c)) as [ctor|]; simpl.
  2:{ split; [done|]. intros (ctor & (_ & Hl & _) & _). done. }
  assert (Hskip : isUndefined program && requiresTypeInformation ctor = true ↔
                  program = None ∧ requiresTypeInformation ctor = true).
  { destruct program, (requiresTypeInformation ctor); simpl; intuition congruence. }
  destruct (isUndefined program && requiresTypeInformation ctor); simpl.
  { split; [done|]. intros (ctor' & (_ & [= <-] & Hn & _) & _).
    destruct Hn. by apply Hskip. }
  assert (Hneed : ¬ (program = None ∧ requiresTypeInformation ctor = true)).
  { intros H. by apply Hskip in H. }
  destruct (supports ctor) as [supp|] eqn:Hsupp; simpl.
  - destruct (supp sourceFile (options c) (settings config)) eqn:Hs; simpl.
    + split.
      * intros [= <-]. exists ctor. repeat split; try done.
        intros supp' E. rewrite Hsupp in E. simplify_eq. by rewrite Hs.
      * intros (ctor' & (_ & [= <-] & _) & ->). done.
    + split; [done|].
      intros (ctor' & (_ & [= <-] & _ & Hsup) & _).
      by destruct (Hsup supp Hsupp).
  - split.
    + intros [= <-]. exists ctor. repeat split; try done.
      intros supp' E. congruence.
    + intros (ctor' & (_ & [= <-] & _) & ->). done.
Qed.

Lemma warned_Some config sourceFile program name c w :
  warned config sourceFile program (name, c) = Some w ↔
  ∃ ctor, lacksTypeInformation loadRule program c ctor ∧
          w = "'" +:+ name +:+ "' requires type information.".
Proof.
  unfold warned, prepareRule, lacksTypeInformation.
  destruct (String.eqb_spec (severity c) "off") as [Hoff|Hoff]; simpl.
  { split; [done|]. intros (ctor & (Hs & _) & _). done. }
  destruct (loadRule (rule c) (rulesDirectories c)) as [ctor|]; simpl.
  2:{ split; [done|]. intros (ctor & (_ & Hl & _) & _). done. }
  destruct program as [prog|]; simpl.
  - destruct (supports ctor) as [supp|]; simpl;
      [destruct (supp sourceFile (options c) (settings config)); simpl|];
      (split; [done|]; intros (ctor' & (_ & _ & ? & _) & _); done).
  - destruct (requiresTypeInformation ctor) eqn:Hreq; simpl.
    + split.
      * intros [= <-]. by exists ctor.
      * intros (ctor' & (_ & [= <-] & _) & ->). done.
    + destruct (supports ctor) as [supp|]; simpl;
        [destruct (supp sourceFile (options c) (settings config)); simpl|];
        (split; [done|]; intros (ctor' & (_ & [= <-] & _ & ?) & _); congruence).
Qed.

(** C8. A configured rule is in the list [prepareRules] returns exactly
    when its severity is not ['off'], its module loads, it does not need
    type information while no program is given, and its [supports]
    predicate, if it has one, does not return false on the file, the
    options and the settings. A rule skipped for want of type information
    leaves the warning that names it with the logger, and no other
    warning is logged; the rules after it are treated as before, the
    membership being decided rule by rule. *)
Theorem prepareRules_keeps_applicable
    (config : Config) (sourceFile : SourceFile) (program : option Program) :
  (∀ p, p ∈ fst (prepareRules loadRule config sourceFile program) ↔
        ∃ name c ctor,
          (name, c) ∈ rules config ∧
          applicable loadRule config sourceFile program c ctor ∧
          p = mkPrepared name (options c) (severity c) ctor) ∧
  (∀ w, w ∈ snd (prepareRules loadRule config sourceFile program) ↔
        ∃ name c ctor,
          (name, c) ∈ rules config ∧
          lacksTypeInformation loadRule program c ctor ∧
          w = "'" +:+ name +:+ "' requires type information.").
Proof.
  unfold prepareRules. rewrite prepareRules_fold. simpl. split.
  - intros p. rewrite list_elem_of_omap. split.
    + intros ([name c] & Hin & Hk). apply kept_Some in Hk as (ctor & Ha & ->).
      by exists name, c, ctor.
    + intros (name & c & ctor & Hin & Ha & ->). exists (name, c).
      split; [done|]. apply kept_Some. by exists ctor.
  - intros w. rewrite list_elem_of_omap. split.
    + intros ([name c] & Hin & Hw). apply warned_Some in Hw as (ctor & Ha & ->).
      by exists name, c, ctor.
    + intros (name & c & ctor & Hin & Ha & ->). exists (name, c).
      split; [done|]. apply warned_Some. by exists ctor.
Qed.

End Prepare.

(** *** [applyRules], [addFailure] and [isDisabled] *)

Section Apply.

Context {SourceFile Program Options Settings : Type}.

Local Abbreviation Prepared := (@PreparedRule SourceFile Program Options Settings).

Variable getDisabledRanges : list string -> SourceFile -> DisableMap.
Variable getLineAndCharacterOfPosition : SourceFile -> Z -> Z * Z.

Lemma isDisabled_true disables ruleName r :
  isDisabled disables ruleName r = true ↔
  ∃ d, d ∈ disabledRangesOf disables ruleName ∧ overlaps r d.
Proof.
  unfold isDisabled, disabledRangesOf, overlaps.
  destruct (disables !! ruleName) as [ds|]; simpl.
  - rewrite existsb_exists. split.
    + intros (d & Hin & Hd). exists d. apply list_elem_of_In in Hin.
      apply andb_true_iff in Hd as [H1 H2]. split; [done|]. lia.
    + intros (d & Hin & H1 & H2). exists d. apply list_elem_of_In in Hin.
      split; [done|]. apply andb_true_iff. lia.
  - split; [done|]. intros (d & Hin & _). by apply not_elem_of_nil in Hin.
Qed.

Lemma isDisabled_false disables ruleName r :
  isDisabled disables ruleName r = false ↔
  ¬ ∃ d, d ∈ disabledRangesOf disables ruleName ∧ overlaps r d.
Proof.
  rewrite <- isDisabled_true. by destruct (isDisabled disables ruleName r).
Qed.

Lemma position_positionAt sourceFile p :
  position (positionAt getLineAndCharacterOfPosition sourceFile p) = p.
Proof.
  unfold positionAt. by destruct (getLineAndCharacterOfPosition sourceFile p).
Qed.

(** What one report of a rule contributes to the result. *)
Let reported (disables : DisableMap) (sourceFile : SourceFile)
    (r : Prepared) (rep : Report) : option Failure :=
  if isDisabled disables (p_ruleName r) (rangeOf rep) then None
  else Some (failureOf getLineAndCharacterOfPosition sourceFile r rep).

Lemma report_fold disables sourceFile r reports result :
  fold_left (report getLineAndCharacterOfPosition disables sourceFile
               (p_ruleName r) (p_severity r)) reports result =
  result ++ omap (reported disables sourceFile r) reports.
Proof.
  revert result. induction reports as [|rep reports IH]; intros result; simpl.
  - by rewrite app_nil_r.
  - rewrite IH. unfold report, addFailure, reported, failureOf, rangeOf.
    simpl. destruct (isDisabled _ _ _); [done|]. by rewrite <- app_assoc.
Qed.

Lemma executeRule_fold disables sourceFile program settings rs acc :
  fold_left (executeRule getLineAndCharacterOfPosition disables sourceFile
               program settings) rs acc =
  acc ++ flat_map (fun r =>
                     omap (reported disables sourceFile r)
                       (apply (p_ctor r)
                          (mkEnv sourceFile program (p_options r) settings
                             (isDisabled disables (p_ruleName r))))) rs.
Proof.
  revert acc. induction rs as [|r rs IH]; intros acc; simpl.
  - by rewrite app_nil_r.
  - rewrite IH. unfold executeRule. by rewrite report_fold, <- app_assoc.
Qed.

Lemma applyRules_flat sourceFile program rules settings :
  applyRules getDisabledRanges getLineAndCharacterOfPosition
    sourceFile program rules settings =
  flat_map (fun r =>
              omap (reported (getDisabledRanges (map p_ruleName rules) sourceFile)
                      sourceFile r)
                (reportsOf getDisabledRanges sourceFile program settings rules r))
    rules.
Proof. unfold applyRules. by rewrite executeRule_fold. Qed.

Lemma elem_of_applyRules sourceFile program rules settings f :
  f ∈ applyRules getDisabledRanges getLineAndCharacterOfPosition
        sourceFile program rules settings ↔
  ∃ (r : Prepared) (rep : Report),
    r ∈ rules ∧
    rep ∈ reportsOf getDisabledRanges sourceFile program settings rules r ∧
    isDisabled (getDisabledRanges (map p_ruleName rules) sourceFile)
      (p_ruleName r) (rangeOf rep) = false ∧
    f = failureOf getLineAndCharacterOfPosition sourceFile r rep.
Proof.
  rewrite applyRules_flat, list_elem_of_In, in_flat_map. split.
  - intros (r & Hr & Hf). apply list_elem_of_In, list_elem_of_omap in Hf.
    destruct Hf as (rep & Hrep & Hf). exists r, rep. unfold reported in Hf.
    apply list_elem_of_In in Hr.
    destruct (isDisabled _ _ _); [done|]. by simplify_eq.
  - intros (r & rep & Hr & Hrep & Hd & ->). exists r.
    split; [by apply list_elem_of_In|].
    apply list_elem_of_In, list_elem_of_omap. exists rep. split; [done|].
    unfold reported. by rewrite Hd.
Qed.

Lemma touches_not_overlaps r d : touches r d → ¬ overlaps r d.
Proof. unfold touches, overlaps. lia. Qed.

Lemma inside_overlaps r d :
  inside r d → (pos r ≤ end_ r)%Z → ¬ touches r d → overlaps r d.
Proof. unfold inside, touches, overlaps. lia. Qed.

(** C2. A failure a rule reports during a pass is in the list the pass
    returns exactly when its range overlaps none of the ranges disabled
    for the rule's name, where two ranges overlap when each begins before
    the other ends (so a failure of length zero strictly within a
    disabled range overlaps it). A disabled range that the failure's
    range only shares an endpoint with does not suppress it: the failure
    is reported when no other disabled range overlaps it. A failure whose
    range [start <= end] lies within a disabled range, other than as an
    empty range on its border, is not in the list. *)
Theorem reported_iff_not_disabled
    (sourceFile : SourceFile) (program : option Program)
    (rules : list Prepared) (settings : Settings)
    (r : Prepared) (rep : Report) :
  let disabled :=
    disabledRangesOf (getDisabledRanges (map p_ruleName rules) sourceFile)
      (p_ruleName r) in
  let failure := failureOf getLineAndCharacterOfPosition sourceFile r rep in
  let returned :=
    applyRules getDisabledRanges getLineAndCharacterOfPosition
      sourceFile program rules settings in
  r ∈ rules →
  rep ∈ reportsOf getDisabledRanges sourceFile program settings rules r →
  (failure ∈ returned ↔ ¬ ∃ d, d ∈ disabled ∧ overlaps (rangeOf rep) d) ∧
  (∀ d, d ∈ disabled → touches (rangeOf rep) d →
        (∀ d', d' ∈ disabled → d' ≠ d → ¬ overlaps (rangeOf rep) d') →
        failure ∈ returned) ∧
  (∀ d, d ∈ disabled → inside (rangeOf rep) d →
        (pos (rangeOf rep) ≤ end_ (rangeOf rep))%Z →
        ¬ touches (rangeOf rep) d →
        failure ∉ returned).
Proof.
  intros disabled failure returned Hr Hrep.
  assert (Hiff : failure ∈ returned ↔
                 ¬ ∃ d, d ∈ disabled ∧ overlaps (rangeOf rep) d).
  { unfold returned, failure, disabled.
    rewrite elem_of_applyRules, <- isDisabled_false. split.
    - intros (r' & rep' & _ & _ & Hd & Heq).
      assert (p_ruleName r' = p_ruleName r) as <-
        by (by apply (f_equal f_ruleName) in Heq).
      assert (rangeOf rep' = rangeOf rep) as <-; [|done].
      pose proof (f_equal (fun f => position (f_start f)) Heq) as Hs.
      pose proof (f_equal (fun f => position (f_end f)) Heq) as He.
      unfold failureOf, rangeOf in Hs, He. simpl in Hs, He.
      rewrite !position_positionAt in Hs, He.
      unfold rangeOf. by f_equal.
    - intros Hd. by exists r, rep. }
  split; [done|]. split.
  - intros d Hd Ht Hothers. apply Hiff. intros (d' & Hd' & Ho).
    apply (Hothers d' Hd'); [|done].
    intros ->. by apply touches_not_overlaps in Ht.
  - intros d Hd Hin Hle Ht. rewrite Hiff. intros Hno. apply Hno.
    exists d. split; [done|]. by apply inside_overlaps.
Qed.

End Apply.

(** *** [lintAndFix] *)

Section Fix.

Context {SourceFile Program Options Settings : Type}.

Local Abbreviation Ctor := (@RuleConstructor SourceFile Program Options Settings).
Local Abbreviation Config := (@EffectiveConfiguration Options Settings).
Local Abbreviation State := (@LoopState SourceFile Program).

Variable loadRule : string -> option (list string) -> option Ctor.
Variable getDisabledRanges : list string -> SourceFile -> DisableMap.
Variable getLineAndCharacterOfPosition : SourceFile -> Z -> Z * Z.
Variable applyFixes : string -> list Fix -> FixResult.
Variable calculateChangeRange : string -> string -> TextChangeRange.
Variable text : SourceFile -> string.

Lemma length_zero {A} (l : list A) : (length l =? 0)%nat = true ↔ l = [].
Proof. destruct l; simpl; split; intros; done. Qed.

Section Loop.

Variable config : Config.
Variable updateFile : @UpdateFileCallback SourceFile Program.

Let iteration : State -> State :=
  applyIteration loadRule getDisabledRanges getLineAndCharacterOfPosition
    applyFixes calculateChangeRange text config updateFile.
Let after : State -> nat -> State :=
  afterIterations loadRule getDisabledRanges getLineAndCharacterOfPosition
    applyFixes calculateChangeRange text config updateFile.
Let loop : nat -> State -> State :=
  fixLoop loadRule getDisabledRanges getLineAndCharacterOfPosition
    applyFixes calculateChangeRange text config updateFile.
Let lintPass (st : State) : list Failure :=
  fst (getFailures loadRule getDisabledRanges getLineAndCharacterOfPosition
         (s_file st) config (s_program st) (s_processor st)).

Lemma after_shift st k : after (iteration st) k = after st (S k).
Proof. unfold after, afterIterations. by rewrite Nat.iter_succ_r. Qed.

Lemma fixLoop_stops_first n st :
  ∃ k, k ≤ n ∧
       (∀ j, j < k → ¬ stops (after st j)) ∧
       (stops (after st k) ∨ k = n) ∧
       loop n st = after st k.
Proof.
  revert st. induction n as [|n IH]; intros st.
  - exists 0. split; [lia|]. split; [intros j Hj; lia|]. by split; [right|].
  - unfold loop. simpl.
    destruct (length (s_failures st) =? 0)%nat eqn:Hf.
    { exists 0. split; [lia|]. split; [intros j Hj; lia|].
      split; [|done]. left. left. by apply length_zero. }
    destruct (length (collectFixes (s_failures st)) =? 0)%nat eqn:Hx.
    { exists 0. split; [lia|]. split; [intros j Hj; lia|].
      split; [|done]. left. right. by apply length_zero. }
    destruct (IH (iteration st)) as (k & Hk & Hbefore & Hat & Heq).
    exists (S k). split; [lia|]. split; [|split].
    + intros [|j] Hj.
      * intros [H|H]; apply length_zero in H; simpl in H; congruence.
      * rewrite <- after_shift. apply Hbefore. lia.
    + rewrite <- after_shift. destruct Hat as [Hs|Hn]; [by left|right; lia].
    + by rewrite <- after_shift.
Qed.

Lemma iteration_fields st :
  s_content (iteration st) =
    result (applyFixes (s_content st) (collectFixes (s_failures st))) ∧
  s_totalFixes (iteration st) = s_totalFixes st + fixedIn applyFixes st ∧
  s_failures (iteration st) = lintPass (iteration st).
Proof.
  unfold lintPass, iteration, applyIteration, fixedIn.
  destruct (s_processor st) as [p|];
    destruct (getFailures _ _ _ _ _ _ _) as [fs ws] eqn:E; simpl;
    by rewrite E.
Qed.

Lemma after_totalFixes st k :
  s_totalFixes (after st k) =
  s_totalFixes st +
  fixedUpTo loadRule getDisabledRanges getLineAndCharacterOfPosition
    applyFixes calculateChangeRange text config updateFile st k.
Proof.
  induction k as [|k IH].
  - unfold after, afterIterations. simpl. lia.
  - assert (after st (S k) = iteration (after st k)) as -> by reflexivity.
    destruct (iteration_fields (after st k)) as (_ & -> & _).
    rewrite IH. simpl. unfold after. lia.
Qed.

Lemma after_failures st k :
  s_failures st = lintPass st → s_failures (after st k) = lintPass (after st k).
Proof.
  intros H0. destruct k as [|k]; [done|].
  assert (after st (S k) = iteration (after st k)) as -> by reflexivity.
  by destruct (iteration_fields (after st k)) as (_ & _ & ?).
Qed.

(** What a turn of the loop hands to [updateFile], and the processor it
    leaves. *)
Lemma iteration_update st :
  let fixed := applyFixes (s_content st) (omap f_fix (s_failures st)) in
  match s_processor st with
  | None =>
    s_processor (iteration st) = None ∧
    s_file (iteration st) = u_file (updateFile (result fixed) (range fixed)) ∧
    s_program (iteration st) =
      u_program (updateFile (result fixed) (range fixed))
  | Some p =>
    let upd := updateSource p (result fixed) (range fixed) in
    let fixedRange :=
      match changeRange upd with
      | Some cr => cr
      | None => calculateChangeRange (text (s_file st)) (transformed upd)
      end in
    s_processor (iteration st) = Some (processorAfter p upd) ∧
    s_file (iteration st) = u_file (updateFile (transformed upd) fixedRange) ∧
    s_program (iteration st) =
      u_program (updateFile (transformed upd) fixedRange)
  end.
Proof.
  unfold iteration, applyIteration, collectFixes.
  destruct (s_processor st) as [p|];
    by destruct (getFailures _ _ _ _ _ _ _) as [fs ws].
Qed.

Lemma not_stops (st : State) :
  ¬ stops st →
  s_failures st ≠ [] ∧ omap f_fix (s_failures st) ≠ [].
Proof.
  unfold stops, collectFixes. intros H.
  split; intros E; apply H; [by left|by right].
Qed.

Lemma omap_nil_Forall (fs : list Failure) :
  omap f_fix fs = [] ↔ Forall (fun f => f_fix f = None) fs.
Proof.
  induction fs as [|f fs IH]; simpl; [by split; [constructor|]|].
  destruct (f_fix f) as [fx|] eqn:Hf; simpl.
  - split; [done|]. intros H. apply Forall_cons_1 in H as [H _]. congruence.
  - rewrite IH. split.
    + by constructor.
    + intros H. by apply Forall_cons_1 in H as [_ H].
Qed.

Lemma fixedUpTo_sum st k :
  fixedUpTo loadRule getDisabledRanges getLineAndCharacterOfPosition
    applyFixes calculateChangeRange text config updateFile st k =
  sum_list_with
    (fun j => fixed (applyFixes (s_content (after st j))
                       (omap f_fix (s_failures (after st j)))))
    (seq 0 k).
Proof.
  induction k as [|k IH]; [done|].
  rewrite seq_S, sum_list_with_app. simpl. rewrite IH.
  unfold fixedIn, collectFixes, after. lia.
Qed.

End Loop.

(** C1. [lintAndFix] runs a number [k] of fixing turns, at most
    [iterations], over passes [pass 0], ..., [pass k]. The first pass
    lints the file as given, and every pass holds the failures of linting
    its file with its program and processor. Each pass before the [k]-th
    has a failure and a fix: the fixes of its failures, those that are
    not undefined, go to [applyFixes] with its content, whose result is
    the content of the next pass; the new source (the one the processor
    makes of it, when there is a processor) goes to [updateFile], which
    gives the file and the program of the next pass. The [k]-th pass is
    the first without a failure or without a fix, or [k] is the cap. The
    record returned holds the content and the failures of the [k]-th
    pass, and the sum of the counts [applyFixes] gave in the [k] turns. *)
Theorem lintAndFix_stops_at_first_break
    (file : SourceFile) (content : string) (config : Config)
    (updateFile : @UpdateFileCallback SourceFile Program) (iterations : Z)
    (program : option Program) (processor : option AbstractProcessor) :
  let returned :=
    fst (lintAndFix loadRule getDisabledRanges getLineAndCharacterOfPosition
           applyFixes calculateChangeRange text
           file content config updateFile iterations program processor) in
  ∃ (k : nat) (pass : nat -> State),
    let fixesOf j := omap f_fix (s_failures (pass j)) in
    let fixed j := applyFixes (s_content (pass j)) (fixesOf j) in
    k ≤ Z.to_nat iterations ∧
    s_file (pass 0) = file ∧ s_program (pass 0) = program ∧
    s_processor (pass 0) = processor ∧ s_content (pass 0) = content ∧
    (∀ j, j ≤ k →
          s_failures (pass j) =
          fst (getFailures loadRule getDisabledRanges
                 getLineAndCharacterOfPosition (s_file (pass j)) config
                 (s_program (pass j)) (s_processor (pass j)))) ∧
    (∀ j, j < k →
          s_failures (pass j) ≠ [] ∧ fixesOf j ≠ [] ∧
          s_content (pass (S j)) = result (fixed j) ∧
          match s_processor (pass j) with
          | None =>
            s_processor (pass (S j)) = None ∧
            s_file (pass (S j)) =
              u_file (updateFile (result (fixed j)) (range (fixed j))) ∧
            s_program (pass (S j)) =
              u_program (updateFile (result (fixed j)) (range (fixed j)))
          | Some p =>
            let upd := updateSource p (result (fixed j)) (range (fixed j)) in
            let fixedRange :=
              match changeRange upd with
              | Some cr => cr
              | None =>
                calculateChangeRange (text (s_file (pass j))) (transformed upd)
              end in
            s_processor (pass (S j)) = Some (processorAfter p upd) ∧
            s_file (pass (S j)) =
              u_file (updateFile (transformed upd) fixedRange) ∧
            s_program (pass (S j)) =
              u_program (updateFile (transformed upd) fixedRange)
          end) ∧
    (k = Z.to_nat iterations ∨ s_failures (pass k) = [] ∨
     Forall (fun f => f_fix f = None) (s_failures (pass k))) ∧
    Linter.content returned = s_content (pass k) ∧
    failures returned = s_failures (pass k) ∧
    fixes returned =
      sum_list_with (fun j => Linter.fixed (fixed j)) (seq 0 k).
Proof.
  intros returned.
  set (st0 := initialState loadRule getDisabledRanges
                getLineAndCharacterOfPosition
                file content config program processor).
  set (after := afterIterations loadRule getDisabledRanges
                  getLineAndCharacterOfPosition applyFixes
                  calculateChangeRange text config updateFile st0).
  assert (Hst0 : s_file st0 = file ∧ s_program st0 = program ∧
                 s_processor st0 = processor ∧ s_content st0 = content ∧
                 s_totalFixes st0 = 0 ∧
                 s_failures st0 =
                   fst (getFailures loadRule getDisabledRanges
                          getLineAndCharacterOfPosition (s_file st0) config
                          (s_program st0) (s_processor st0))).
  { unfold st0, initialState.
    by destruct (getFailures _ _ _ _ _ _ _) as [fs ws] eqn:E; simpl; rewrite E. }
  destruct Hst0 as (Hfile & Hprogram & Hprocessor & Hcontent & Htotal & Hlint).
  destruct (fixLoop_stops_first config updateFile (Z.to_nat iterations) st0)
    as (k & Hk & Hbefore & Hat & Heq).
  exists k, after. cbv zeta.
  split; [done|]. do 4 (split; [done|]).
  split; [|split; [|split; [|split; [|split]]]].
  - intros j _. by apply after_failures.
  - intros j Hj. destruct (not_stops _ (Hbefore j Hj)) as [Hfailures Hfixes].
    split; [done|]. split; [done|].
    assert (after (S j) =
            applyIteration loadRule getDisabledRanges
              getLineAndCharacterOfPosition applyFixes calculateChangeRange
              text config updateFile (after j)) as -> by reflexivity.
    split.
    + by destruct (iteration_fields config updateFile (after j)) as (-> & _).
    + apply (iteration_update config updateFile (after j)).
  - destruct Hat as [[Hstop|Hstop]|Hcap]; [by right; left| |by left].
    right. right. by apply omap_nil_Forall.
  - unfold returned, lintAndFix. fold st0. simpl. by rewrite Heq.
  - unfold returned, lintAndFix. fold st0. simpl. by rewrite Heq.
  - unfold returned, lintAndFix. fold st0. simpl. rewrite Heq.
    rewrite after_totalFixes, Htotal. simpl. apply fixedUpTo_sum.
Qed.

(** C9, as the code has it. With [iterations = 0] and no processor,
    [lintAndFix] returns the failure list (and logs the warnings) of one
    [lintFile] call on the same file, configuration and program, with the
    content unchanged and no fix counted. When a processor is given the
    failure list is the one of [lintFile] handed to the processor's
    [postprocess], unless it is empty. *)
Theorem lintAndFix_zero_iterations
    (file : SourceFile) (content : string) (config : Config)
    (updateFile : @UpdateFileCallback SourceFile Program)
    (program : option Program) :
  let linted :=
    lintFile loadRule getDisabledRanges getLineAndCharacterOfPosition
      file config program in
  lintAndFix loadRule getDisabledRanges getLineAndCharacterOfPosition
    applyFixes calculateChangeRange text
    file content config updateFile 0 program None =
  (mkResult content (fst linted) 0, snd linted) ∧
  ∀ p : AbstractProcessor,
    lintAndFix loadRule getDisabledRanges getLineAndCharacterOfPosition
      applyFixes calculateChangeRange text
      file content config updateFile 0 program (Some p) =
    (mkResult content
       (if (length (fst linted) =? 0)%nat then fst linted
        else postprocess p (fst linted)) 0,
     snd linted).
Proof.
  intros linted. unfold linted, lintAndFix, lintFile, initialState. simpl.
  split.
  - by destruct (getFailures _ _ _ _ _ _ _).
  - intros p. unfold getFailures.
    destruct (prepareRules _ _ _ _) as [rs ws]. simpl.
    destruct (length rs =? 0)%nat; simpl; [done|].
    by destruct (length (applyRules _ _ _ _ _ _) =? 0)%nat.
Qed.

End Fix.

End LinterProperties.

(** *** The linter on a small configuration *)

Module LinterExamples.
Import Linter LinterFixtures.

(** The report at [12, 15) lies within the disabled range [10, 20). *)
Lemma reported_iff_not_disabled_witness :
  let disabled := disabledRangesOf (getDisabledRanges ["no-foo"] file) "no-foo" in
  let rep := AddFailureAt 12 3 "foo is forbidden." FixUndefined in
  let failure := failureOf getLineAndCharacterOfPosition file prepared rep in
  let returned :=
    applyRules getDisabledRanges getLineAndCharacterOfPosition
      file None [prepared] tt in
  (failure ∈ returned ↔ ¬ ∃ d, d ∈ disabled ∧ overlaps (rangeOf rep) d) ∧
  (∀ d, d ∈ disabled → touches (rangeOf rep) d →
        (∀ d', d' ∈ disabled → d' ≠ d → ¬ overlaps (rangeOf rep) d') →
        failure ∈ returned) ∧
  (∀ d, d ∈ disabled → inside (rangeOf rep) d →
        (pos (rangeOf rep) ≤ end_ (rangeOf rep))%Z →
        ¬ touches (rangeOf rep) d →
        failure ∉ returned).
Proof.
  apply (LinterProperties.reported_iff_not_disabled
           getDisabledRanges getLineAndCharacterOfPosition
           file None [prepared] tt prepared
           (AddFailureAt 12 3 "foo is forbidden." FixUndefined)).
  - apply list_elem_of_here.
  - apply list_elem_of_further, list_elem_of_here.
Defined.

(** C9 as the specification words it fails when a processor is given:
    with [iterations = 0] the failures returned are the postprocessed
    ones, which [lintFile] does not return. *)
Lemma lintAndFix_zero_differs_with_processor :
  failures
    (fst (lintAndFix loadRule getDisabledRanges getLineAndCharacterOfPosition
            applyFixes calculateChangeRange id
            file file config updateFile 0 None (Some embedded))) ≠
  fst (lintFile loadRule getDisabledRanges getLineAndCharacterOfPosition
         file config None).
Proof. vm_compute. discriminate. Qed.

(** Without an applicable rule [lintFile] returns no failure. *)
Example lintFile_without_rules :
  lintFile loadRule getDisabledRanges getLineAndCharacterOfPosition
    file configOff None = ([], []).
Proof. reflexivity. Qed.

(** The failure at [12, 15) is suppressed, those at [7, 10) and [20, 23),
    which touch the disabled range [10, 20), are reported. *)
Example lintFile_suppresses_inside :
  map (fun f => (position (f_start f), position (f_end f)))
    (fst (lintFile loadRule getDisabledRanges getLineAndCharacterOfPosition
            file config None)) =
  [(3, 6); (20, 23); (7, 10)]%Z.
Proof. by vm_compute. Qed.

End LinterExamples.

(** ** The access-control resolver *)

Module AccessProperties.
Import Access.

(** Induction along the chain of ancestors. *)
Lemma Node_parent_ind (P : Node -> Prop) :
  (∀ n, (∀ p, parent n = Some p → P p) → P n) → ∀ n, P n.
Proof.
  intros H. fix IH 1. intros [i k ps e ms pars [p|]]; apply H; simpl.
  - intros p' [= <-]. apply IH.
  - intros p' [=].
Qed.

(** *** The two walks and the turns of their loops *)

Ltac walk_cases node :=
  destruct node as [? k ? ? ? ? [[? k1 ? ? ? ? [[? ? ? ? ? ? [[? ? ? ? ? ? [?|]]|]]|]]|]];
  destruct k; try reflexivity; destruct k1; reflexivity.

Lemma isStaticSuper_turn node :
  isStaticSuper node = resume isStaticSuper (isStaticSuperStep node).
Proof. walk_cases node. Qed.

Lemma getThisParameterFromContext_turn node :
  getThisParameterFromContext node =
  resume getThisParameterFromContext (getThisParameterFromContextStep node).
Proof. walk_cases node. Qed.

(** Induction with the property at hand for every proper ancestor. *)
Lemma Node_ancestor_ind (P : Node -> Prop) :
  (∀ n, (∀ k a, ascend (S k) n = Some a → P a) → P n) → ∀ n, P n.
Proof.
  intros H n. apply H.
  induction n as [n IH] using Node_parent_ind. intros k a. simpl.
  destruct (parent n) as [p|] eqn:Hp; [|done].
  destruct k as [|k]; simpl.
  - intros [= <-]. apply H. by apply IH.
  - by apply IH.
Qed.

Lemma bind_in_fuel {A B} (m : Res A) (f : A -> Res B) :
  m ≠ OutOfFuel → (∀ a, f a ≠ OutOfFuel) → Access.bind m f ≠ OutOfFuel.
Proof. destruct m; simpl; [intros _ H; apply H|done|done]. Qed.

Lemma decoratorStep_ascends {A} node a :
  @decoratorStep A node = Continue (Some a) → ∃ k, ascend (S k) node = Some a.
Proof.
  unfold decoratorStep. destruct (parent node) as [p|] eqn:Hp; [|done].
  destruct (kind p); intros [= H];
    first [by exists 1 | by exists 2 | by exists 3].
Qed.

Lemma isStaticSuperStep_ascends node a :
  isStaticSuperStep node = Continue (Some a) →
  ∃ k, ascend (S k) node = Some a.
Proof.
  unfold isStaticSuperStep.
  destruct (kind node);
    try (intros [= H]; first [by exists 0 | by exists 2]);
    apply decoratorStep_ascends.
Qed.

Lemma getThisParameterFromContextStep_ascends node a :
  getThisParameterFromContextStep node = Continue (Some a) →
  ∃ k, ascend (S k) node = Some a.
Proof.
  unfold getThisParameterFromContextStep.
  destruct (kind node);
    try (intros [= H]; first [by exists 0 | by exists 2]);
    apply decoratorStep_ascends.
Qed.

(** The walks are total: they return or throw. *)
Lemma isStaticSuper_in_fuel node : isStaticSuper node ≠ OutOfFuel.
Proof.
  induction node as [node IH] using Node_ancestor_ind.
  rewrite isStaticSuper_turn.
  destruct (isStaticSuperStep node) as [b|[a|]|] eqn:E; simpl; try done.
  apply isStaticSuperStep_ascends in E as [k Hk]. by apply (IH k).
Qed.

Lemma getThisParameterFromContext_in_fuel node :
  getThisParameterFromContext node ≠ OutOfFuel.
Proof.
  induction node as [node IH] using Node_ancestor_ind.
  rewrite getThisParameterFromContext_turn.
  destruct (getThisParameterFromContextStep node) as [b|[a|]|] eqn:E;
    simpl; try done.
  apply getThisParameterFromContextStep_ascends in E as [k Hk].
  by apply (IH k).
Qed.

(** C7, as the code has it. In the walks of [isStaticSuper] and
    [getThisParameterFromContext], a turn of the loop at a computed
    property name or at a heritage-clause expression assigns the third
    ancestor to [node]; a turn at a decorator assigns the fourth ancestor
    when the decorated node is a parameter, the second when it is a class
    declaration or class expression, and the third for any other
    decorator. Each walk continues from the node so assigned. *)
Theorem walks_ascend_by_kind (node : Node) :
  (kind node = ComputedPropertyName ∨ kind node = ExpressionWithTypeArguments →
   isStaticSuperStep node = Continue (ascend 3 node) ∧
   getThisParameterFromContextStep node = Continue (ascend 3 node)) ∧
  (∀ decorated,
     kind node = Decorator → parent node = Some decorated →
     isStaticSuperStep node =
       Continue (ascend (decoratorLevels (kind decorated)) node) ∧
     getThisParameterFromContextStep node =
       Continue (ascend (decoratorLevels (kind decorated)) node)) ∧
  isStaticSuper node = resume isStaticSuper (isStaticSuperStep node) ∧
  getThisParameterFromContext node =
    resume getThisParameterFromContext (getThisParameterFromContextStep node).
Proof.
  split; [|split; [|split]].
  - unfold isStaticSuperStep, getThisParameterFromContextStep.
    by intros [-> | ->].
  - intros decorated Hk Hp.
    unfold isStaticSuperStep, getThisParameterFromContextStep, decoratorStep.
    rewrite Hk, Hp. by destruct (kind decorated).
  - apply isStaticSuper_turn.
  - apply getThisParameterFromContext_turn.
Qed.

(** *** [hasBase] *)

Section Inheritance.

Context {T : Type}.
Variable checker : TypeChecker.
Variable check : TypeId -> T -> Res bool.
Variable needle : T.

Lemma some_true {A} (f : A -> Res bool) l :
  some f l = Ok true → ∃ x, x ∈ l ∧ f x = Ok true.
Proof.
  induction l as [|x l IH]; simpl; [done|].
  destruct (f x) as [[|]| |] eqn:E; simpl; try done.
  - intros _. exists x. split; [apply list_elem_of_here|done].
  - intros H. destruct (IH H) as (y & Hy & Hf). exists y.
    split; [by apply list_elem_of_further|done].
Qed.

Lemma some_false {A} (f : A -> Res bool) l :
  some f l = Ok false → ∀ x, x ∈ l → f x = Ok false.
Proof.
  induction l as [|x l IH]; simpl; intros H y Hy.
  - by apply not_elem_of_nil in Hy.
  - destruct (f x) as [[|]| |] eqn:E; simpl in H; try done.
    apply elem_of_cons in Hy as [->|Hy]; [done|by apply IH].
Qed.

Lemma some_in_fuel {A} (f : A -> Res bool) l :
  (∀ x, x ∈ l → f x ≠ OutOfFuel) → some f l ≠ OutOfFuel.
Proof.
  induction l as [|x l IH]; simpl; intros H; [done|].
  pose proof (H x (list_elem_of_here _ _)) as Hx.
  destruct (f x) as [[|]| |]; simpl; try done.
  apply IH. intros y Hy. apply H. by apply list_elem_of_further.
Qed.

Lemma every_true {A} (f : A -> Res bool) l :
  every f l = Ok true → ∀ x, x ∈ l → f x = Ok true.
Proof.
  induction l as [|x l IH]; simpl; intros H y Hy.
  - by apply not_elem_of_nil in Hy.
  - destruct (f x) as [[|]| |] eqn:E; simpl in H; try done.
    apply elem_of_cons in Hy as [->|Hy]; [done|by apply IH].
Qed.

Lemma every_false {A} (f : A -> Res bool) l :
  every f l = Ok false → ∃ x, x ∈ l ∧ f x = Ok false.
Proof.
  induction l as [|x l IH]; simpl; [done|].
  destruct (f x) as [[|]| |] eqn:E; simpl; try done.
  - intros H. destruct (IH H) as (y & Hy & Hf). exists y.
    split; [by apply list_elem_of_further|done].
  - intros _. exists x. split; [apply list_elem_of_here|done].
Qed.

Lemma recur_unfold fuel t :
  recur checker needle check (S fuel) t =
  let t' := resolved checker t in
  let! found := (if isTypeReference (typeOf checker t)
                 then check t' needle else Ok false) in
  if found then Ok true
  else
    let! inBases := match getBaseTypes (typeOf checker t') with
                    | Some bs => some (recur checker needle check fuel) bs
                    | None => Ok false
                    end in
    if inBases then Ok true
    else if isIntersectionType (typeOf checker t')
         then some (recur checker needle check fuel) (types (typeOf checker t'))
         else Ok false.
Proof. reflexivity. Qed.

(** [hasBase] answers true only for a type that inherits. *)
Lemma hasBase_true fuel t :
  hasBase checker fuel t needle check = Ok true →
  inheritsFrom checker check needle t.
Proof.
  unfold hasBase. revert t. induction fuel as [|fuel IH]; intros t; [done|].
  rewrite recur_unfold. simpl. unfold resolved at 1.
  destruct (isTypeReference (typeOf checker t)) eqn:Href.
  - destruct (check _ needle) as [[|]| |] eqn:Hc; simpl; try done.
    { intros _. by apply inherits_here. }
    destruct (getBaseTypes _) as [bs|] eqn:Hb; simpl.
    + destruct (some _ bs) as [[|]| |] eqn:Hs; simpl; try done.
      { intros _. apply some_true in Hs as (b & Hin & Hr).
        eapply inherits_base; [done|done|by apply IH]. }
      destruct (isIntersectionType _) eqn:Hi; [|done].
      intros Hs'. apply some_true in Hs' as (m & Hin & Hr).
      eapply inherits_member; [done|done|by apply IH].
    + destruct (isIntersectionType _) eqn:Hi; [|done].
      intros Hs'. apply some_true in Hs' as (m & Hin & Hr).
      eapply inherits_member; [done|done|by apply IH].
  - simpl. destruct (getBaseTypes _) as [bs|] eqn:Hb; simpl.
    + destruct (some _ bs) as [[|]| |] eqn:Hs; simpl; try done.
      { intros _. apply some_true in Hs as (b & Hin & Hr).
        eapply inherits_base; [done|done|by apply IH]. }
      destruct (isIntersectionType _) eqn:Hi; [|done].
      intros Hs'. apply some_true in Hs' as (m & Hin & Hr).
      eapply inherits_member; [done|done|by apply IH].
    + destruct (isIntersectionType _) eqn:Hi; [|done].
      intros Hs'. apply some_true in Hs' as (m & Hin & Hr).
      eapply inherits_member; [done|done|by apply IH].
Qed.

Lemma recur_false_inv fuel t :
  recur checker needle check (S fuel) t = Ok false →
  (isTypeReference (typeOf checker t) = true →
   check (target (typeOf checker t)) needle = Ok false) ∧
  (∀ bs, getBaseTypes (typeOf checker (resolved checker t)) = Some bs →
         some (recur checker needle check fuel) bs = Ok false) ∧
  (isIntersectionType (typeOf checker (resolved checker t)) = true →
   some (recur checker needle check fuel)
     (types (typeOf checker (resolved checker t))) = Ok false).
Proof.
  rewrite recur_unfold. simpl.
  set (t' := resolved checker t).
  assert (Ht' : isTypeReference (typeOf checker t) = true →
                t' = target (typeOf checker t)).
  { unfold t', resolved. by intros ->. }
  destruct (isTypeReference (typeOf checker t)) eqn:Href.
  - rewrite <- (Ht' eq_refl).
    destruct (check t' needle) as [[|]| |]; simpl; try done.
    destruct (getBaseTypes _) as [bs|]; simpl.
    + destruct (some _ bs) as [[|]| |] eqn:Hs; simpl; try done.
      destruct (isIntersectionType _); intros H;
        (split; [done|split; [by intros ? [= <-]|done]]).
    + destruct (isIntersectionType _); intros H;
        (split; [done|split; [done|done]]).
  - simpl. destruct (getBaseTypes _) as [bs|]; simpl.
    + destruct (some _ bs) as [[|]| |] eqn:Hs; simpl; try done.
      destruct (isIntersectionType _); intros H;
        (split; [done|split; [by intros ? [= <-]|done]]).
    + destruct (isIntersectionType _); intros H;
        (split; [done|split; [done|done]]).
Qed.

(** [hasBase] answers false only for a type that does not inherit. *)
Lemma hasBase_false fuel t :
  hasBase checker fuel t needle check = Ok false →
  ¬ inheritsFrom checker check needle t.
Proof.
  unfold hasBase. revert t. induction fuel as [|fuel IH]; intros t; [done|].
  intros H. apply recur_false_inv in H as (Hhere & Hbases & Hmembers).
  intros Hinh. destruct Hinh as [t Href Hc|t bs b Hbs Hin Hb|t m Hi Hin Hm].
  - rewrite (Hhere Href) in Hc. done.
  - apply (IH b); [|done]. by apply (some_false _ _ (Hbases bs Hbs)).
  - apply (IH m); [|done]. by apply (some_false _ _ (Hmembers Hi)).
Qed.

(** When the types [recur] visits from one another go down a rank, a
    budget above the rank of the type is enough for [hasBase] to answer. *)
Lemma hasBase_enough_fuel (rank : TypeId -> nat) :
  (∀ t s, s ∈ successors checker t → rank s < rank t) →
  (∀ t n, check t n ≠ OutOfFuel) →
  ∀ fuel t, rank t < fuel →
            hasBase checker fuel t needle check ≠ OutOfFuel.
Proof.
  intros Hrank Hcheck. unfold hasBase.
  induction fuel as [|fuel IH]; intros t Hfuel; [lia|].
  rewrite recur_unfold. simpl.
  assert (Hsome : ∀ l, (∀ s, s ∈ l → s ∈ successors checker t) →
                       some (recur checker needle check fuel) l ≠ OutOfFuel).
  { intros l Hl. apply some_in_fuel. intros s Hs. apply IH.
    specialize (Hrank t s (Hl s Hs)). lia. }
  assert (Hbases : match getBaseTypes (typeOf checker (resolved checker t)) with
                   | Some bs => some (recur checker needle check fuel) bs
                   | None => Ok false
                   end ≠ OutOfFuel).
  { unfold successors in Hsome. destruct (getBaseTypes _) as [bs|]; [|done].
    apply Hsome. intros s Hs. apply elem_of_app. by left. }
  assert (Hmembers : (if isIntersectionType (typeOf checker (resolved checker t))
                      then some (recur checker needle check fuel)
                             (types (typeOf checker (resolved checker t)))
                      else Ok false) ≠ OutOfFuel).
  { unfold successors in Hsome. destruct (isIntersectionType _); [|done].
    apply Hsome. intros s Hs. apply elem_of_app. by right. }
  assert (Hfound : (if isTypeReference (typeOf checker t)
                    then check (resolved checker t) needle else Ok false)
                   ≠ OutOfFuel).
  { by destruct (isTypeReference _). }
  destruct (if isTypeReference (typeOf checker t) then _ else _)
    as [[|]| |]; simpl; try done.
  destruct (match getBaseTypes _ with Some _ => _ | None => _ end)
    as [[|]| |]; simpl; done.
Qed.

Lemma some_no_error {A} (f : A -> Res bool) l :
  (∀ x, x ∈ l → f x ≠ TypeError) → some f l ≠ TypeError.
Proof.
  induction l as [|x l IH]; simpl; intros H; [done|].
  pose proof (H x (list_elem_of_here _ _)) as Hx.
  destruct (f x) as [[|]| |]; simpl; try done.
  apply IH. intros y Hy. apply H. by apply list_elem_of_further.
Qed.

(** [hasBase] throws only if [check] does. *)
Lemma hasBase_no_error fuel t :
  (∀ t n, check t n ≠ TypeError) →
  hasBase checker fuel t needle check ≠ TypeError.
Proof.
  intros Hcheck. unfold hasBase. revert t.
  induction fuel as [|fuel IH]; intros t; [done|].
  rewrite recur_unfold. simpl.
  assert (Hsome : ∀ l, some (recur checker needle check fuel) l ≠ TypeError).
  { intros l. apply some_no_error. intros s _. apply IH. }
  assert (Hfound : (if isTypeReference (typeOf checker t)
                    then check (resolved checker t) needle else Ok false)
                   ≠ TypeError).
  { by destruct (isTypeReference _). }
  destruct (if isTypeReference (typeOf checker t) then _ else _)
    as [[|]| |]; simpl; try done.
  destruct (getBaseTypes _) as [bs|]; simpl.
  - pose proof (Hsome bs) as Hbs.
    destruct (some _ bs) as [[|]| |]; simpl; try done.
    by destruct (isIntersectionType _).
  - by destruct (isIntersectionType _).
Qed.

End Inheritance.

(** *** The search for the enclosing class *)

Section EnclosingClass.

Variable getInstanceTypeOfClassLikeDeclaration :
  Node -> TypeChecker -> option TypeId.
Variable checker : TypeChecker.
Variable fuel : nat.
Variable baseClasses : list (option Node).

Let find := findEnclosingClass getInstanceTypeOfClassLikeDeclaration
              checker fuel baseClasses.

Lemma hasAllBases_true t :
  hasAllBases checker fuel t baseClasses = Ok true →
  inheritsFromAll checker baseClasses t.
Proof.
  intros H b Hb. apply (hasBase_true _ _ _ fuel).
  by apply (every_true _ _ H).
Qed.

Lemma findEnclosingClass_unfold node :
  find node =
  let next := match parent node with
              | Some p => find p
              | None => TypeError
              end in
  if isClassLike (kind node) then
    let! declaredType :=
      instanceTypeOf getInstanceTypeOfClassLikeDeclaration node checker in
    let! b := hasAllBases checker fuel declaredType baseClasses in
    if b then Ok (Some declaredType) else next
  else if bool_decide (kind node = SourceFile) then Ok None
  else next.
Proof. destruct node as [? k ? ? ? ? [?|]]; by destruct k. Qed.

Lemma findEnclosingClass_nearest node answer :
  find node = Ok answer →
  nearestEnclosing getInstanceTypeOfClassLikeDeclaration
    checker fuel baseClasses node answer.
Proof.
  revert answer. induction node as [node IH] using Node_parent_ind.
  intros answer. rewrite findEnclosingClass_unfold. simpl.
  assert (Hnext : match parent node with
                  | Some p => find p
                  | None => TypeError
                  end = Ok answer →
                  kind node ≠ SourceFile →
                  (isClassLike (kind node) = true →
                   ∃ t, getInstanceTypeOfClassLikeDeclaration node checker
                        = Some t ∧
                        hasAllBases checker fuel t baseClasses = Ok false) →
                  nearestEnclosing getInstanceTypeOfClassLikeDeclaration
                    checker fuel baseClasses node answer).
  { destruct (parent node) as [p|] eqn:Hp; [|done].
    intros Hfind Hkind Hclass.
    destruct (IH p eq_refl answer Hfind) as (k & c & Hc & Hpassed & Hans).
    exists (S k), c. split; [by simpl; rewrite Hp|]. split; [|done].
    intros [|j] c' Hj; simpl.
    - by intros [= <-].
    - rewrite Hp. apply Hpassed. lia. }
  destruct (isClassLike (kind node)) eqn:Hclass.
  - unfold instanceTypeOf.
    destruct (getInstanceTypeOfClassLikeDeclaration node checker)
      as [t|] eqn:Ht; simpl; [|done].
    destruct (hasAllBases _ _ _ _) as [[|]| |] eqn:Hall; simpl; try done.
    + intros [= <-]. exists 0, node. split; [done|]. split.
      * intros j c Hj. lia.
      * repeat split; try done. by apply hasAllBases_true.
    + intros Hfind. apply Hnext; [done| |by exists t].
      intros Hk. by rewrite Hk in Hclass.
  - destruct (bool_decide_reflect (kind node = SourceFile)) as [Hk|Hk].
    + intros [= <-]. exists 0, node. split; [done|]. split; [|done].
      intros j c Hj. lia.
    + intros Hfind. by apply Hnext.
Qed.

End EnclosingClass.

(** *** The class an abstract property is initialized in *)

Lemma getEnclosingClass_nearestBoundary isFunctionScopeBoundary node :
  getEnclosingClassOfAbstractPropertyAccess isFunctionScopeBoundary node =
  match nearestBoundary isFunctionScopeBoundary node with
  | Some b => Ok (initializedClass b)
  | None => TypeError
  end.
Proof.
  induction node as [node IH] using Node_parent_ind.
  destruct node as [i k ps e ms pars par]. simpl in *.
  unfold initializedClass. simpl.
  destruct (isFunctionScopeBoundary _); [by destruct k|].
  destruct par as [p|]; [|done]. by apply IH.
Qed.

(** *** The recursion budget *)

Section Budget.

Variable rank : TypeId -> nat.
Variable checker : TypeChecker.
Variable fuel : nat.

Hypothesis rank_decreases :
  ∀ t s, s ∈ successors checker t → rank s < rank t.
Hypothesis rank_below_fuel : ∀ t, rank t < fuel.

Lemma every_in_fuel {A} (f : A -> Res bool) l :
  (∀ x, x ∈ l → f x ≠ OutOfFuel) → every f l ≠ OutOfFuel.
Proof.
  induction l as [|x l IH]; simpl; intros H; [done|].
  pose proof (H x (list_elem_of_here _ _)) as Hx.
  destruct (f x) as [[|]| |]; simpl; try done.
  apply IH. intros y Hy. apply H. by apply list_elem_of_further.
Qed.

Lemma typeContainsDeclaration_in_fuel t declaration :
  typeContainsDeclaration checker t declaration ≠ OutOfFuel.
Proof. unfold typeContainsDeclaration. by repeat case_match. Qed.

Lemma hasAllBases_in_fuel t baseClasses :
  hasAllBases checker fuel t baseClasses ≠ OutOfFuel.
Proof using rank rank_decreases rank_below_fuel.
  apply every_in_fuel. intros b _.
  apply (hasBase_enough_fuel checker _ _ rank); [done| |done].
  apply typeContainsDeclaration_in_fuel.
Qed.

Lemma hasBase_isIdentical_in_fuel t enclosing :
  hasBase checker fuel t enclosing isIdentical ≠ OutOfFuel.
Proof using rank rank_decreases rank_below_fuel. by apply (hasBase_enough_fuel checker _ _ rank). Qed.

Lemma findEnclosingClass_in_fuel instanceType baseClasses node :
  findEnclosingClass instanceType checker fuel baseClasses node ≠ OutOfFuel.
Proof using rank rank_decreases rank_below_fuel.
  induction node as [node IH] using Node_parent_ind.
  rewrite findEnclosingClass_unfold. simpl.
  assert (Hnext : match parent node with
                  | Some p =>
                    findEnclosingClass instanceType checker fuel baseClasses p
                  | None => TypeError
                  end ≠ OutOfFuel).
  { destruct (parent node) as [p|]; [by apply IH|done]. }
  destruct (isClassLike (kind node)).
  - unfold instanceTypeOf. destruct (instanceType node checker); [|done].
    simpl. apply bind_in_fuel; [apply hasAllBases_in_fuel|]. by intros [|].
  - by destruct (bool_decide _).
Qed.

Lemma getEnclosingClassFromThisParameter_in_fuel baseClasses node :
  getEnclosingClassFromThisParameter checker fuel baseClasses node
  ≠ OutOfFuel.
Proof using rank rank_decreases rank_below_fuel.
  unfold getEnclosingClassFromThisParameter.
  apply bind_in_fuel; [apply getThisParameterFromContext_in_fuel|].
  intros thisParameter. repeat case_match; try done;
    (apply bind_in_fuel; [apply hasAllBases_in_fuel|done]).
Qed.

Lemma getEnclosingClassOfAbstractPropertyAccess_in_fuel boundary node :
  getEnclosingClassOfAbstractPropertyAccess boundary node ≠ OutOfFuel.
Proof.
  rewrite getEnclosingClass_nearestBoundary. by case_match.
Qed.

(** With types that go down a rank from each type to those [hasBase]
    visits from it, and a budget above every rank, the resolver returns or
    throws: the budget is never the reason of its answer. *)
Lemma resolver_enough_fuel flagsOfNode boundary instanceType
    symbol name node lhsType :
  getRestrictedElementAccessError flagsOfNode boundary instanceType
    checker fuel symbol name node lhsType ≠ OutOfFuel.
Proof using rank rank_decreases rank_below_fuel.
  unfold getRestrictedElementAccessError, orElse.
  apply bind_in_fuel.
  { unfold abstractCheck, ofParent, printClass, instanceTypeOf,
      hasNonPrototypeDeclaration.
    repeat first [ done
                 | apply getEnclosingClassOfAbstractPropertyAccess_in_fuel
                 | apply bind_in_fuel | case_match | intros ? ]. }
  intros [message|]; [done|]. apply bind_in_fuel.
  { unfold superCheck, firstDeclarationParent, printClass, instanceTypeOf,
      hasNonPrototypeDeclaration.
    repeat first [ done | apply isStaticSuper_in_fuel
                 | apply bind_in_fuel | case_match | intros ? ]. }
  intros [message|]; [done|].
  unfold visibilityCheck, ofParent, firstDeclarationParent, printClass,
    instanceTypeOf.
  repeat first [ done
               | apply findEnclosingClass_in_fuel
               | apply getEnclosingClassFromThisParameter_in_fuel
               | apply hasBase_isIdentical_in_fuel
               | apply bind_in_fuel | case_match | intros ? ].
Qed.

End Budget.

(** *** [getRestrictedElementAccessError] *)

Section Resolver.

Variable getCombinedModifierFlags : Node -> Z.
Variable isFunctionScopeBoundary : Node -> bool.
Variable getInstanceTypeOfClassLikeDeclaration :
  Node -> TypeChecker -> option TypeId.

Let flagsOf := getModifierFlagsOfSymbol getCombinedModifierFlags.
Let resolver :=
  getRestrictedElementAccessError getCombinedModifierFlags
    isFunctionScopeBoundary getInstanceTypeOfClassLikeDeclaration.
Let visibility := visibilityCheck getInstanceTypeOfClassLikeDeclaration.
(** [returned] is the message made of the name the checker prints for the
    instance type of the class [c]; when tsutils throws on [c], so does
    the resolver. *)
Let names (checker : TypeChecker) (c : Node) (returned : Res (option string))
    (message : string -> string) : Prop :=
  (∀ t, getInstanceTypeOfClassLikeDeclaration c checker = Some t →
        returned = Ok (Some (message (typeToString checker t)))) ∧
  (getInstanceTypeOfClassLikeDeclaration c checker = None →
   returned = TypeError).

Lemma printClass_names checker c (message : string -> string) :
  names checker c
    (let! cls := printClass getInstanceTypeOfClassLikeDeclaration
                   checker (Some c) in
     Ok (Some (message cls)))
    message.
Proof.
  unfold names, printClass, instanceTypeOf.
  split; [intros t Ht|intros Ht]; by rewrite Ht.
Qed.

Lemma flag_None mask : flag ModifierFlags.None mask = false.
Proof. unfold flag, ModifierFlags.None. by rewrite Z.land_0_l. Qed.

Lemma flagsOf_undefined symbol :
  declarations symbol = None → flagsOf symbol = ModifierFlags.None.
Proof. unfold flagsOf, getModifierFlagsOfSymbol. by intros ->. Qed.

Lemma flagsOf_nil symbol mask :
  declarations symbol = Some [] → flag (flagsOf symbol) mask = false.
Proof.
  unfold flagsOf, getModifierFlagsOfSymbol. intros ->. apply flag_None.
Qed.

Lemma flag_NonPublic flags :
  flag flags ModifierFlags.NonPublicAccessibilityModifier =
  flag flags ModifierFlags.Private || flag flags ModifierFlags.Protected.
Proof.
  unfold flag.
  change ModifierFlags.NonPublicAccessibilityModifier
    with (Z.lor ModifierFlags.Private ModifierFlags.Protected).
  rewrite Z.land_lor_distr_r.
  destruct (Z.eqb_spec (Z.land flags ModifierFlags.Private) 0) as [E1|E1];
    destruct (Z.eqb_spec (Z.land flags ModifierFlags.Protected) 0) as [E2|E2];
    simpl; rewrite ?negb_false_iff, ?negb_true_iff, ?Z.eqb_eq, ?Z.eqb_neq,
             Z.lor_eq_0_iff; tauto.
Qed.

Lemma abstractCheck_not_this checker symbol name node flags :
  expression_kind node ≠ ThisKeyword →
  abstractCheck isFunctionScopeBoundary getInstanceTypeOfClassLikeDeclaration
    checker symbol name node flags = Ok None.
Proof. intros H. unfold abstractCheck. by rewrite bool_decide_eq_false_2. Qed.

Lemma superCheck_not_super checker symbol name node flags :
  expression_kind node ≠ SuperKeyword →
  superCheck getInstanceTypeOfClassLikeDeclaration
    checker symbol name node flags = Ok None.
Proof. intros H. unfold superCheck. by rewrite bool_decide_eq_false_2. Qed.

Lemma hasNonPrototypeDeclaration_true symbol ds :
  declarations symbol = Some ds →
  (hasNonPrototypeDeclaration symbol = Ok true ↔
   ∃ d, d ∈ ds ∧ isPrototypeKind (kind d) = false) ∧
  (hasNonPrototypeDeclaration symbol = Ok false ↔
   ∀ d, d ∈ ds → isPrototypeKind (kind d) = true).
Proof.
  intros Hds. unfold hasNonPrototypeDeclaration. rewrite Hds.
  destruct (existsb _ ds) eqn:E.
  - apply existsb_exists in E as (d & Hin & Hd).
    apply list_elem_of_In in Hin. apply negb_true_iff in Hd. split.
    + split; [by exists d|done].
    + split; [done|]. intros H. rewrite (H d Hin) in Hd. done.
  - split.
    + split; [done|]. intros (d & Hin & Hd).
      assert (existsb (fun d => negb (isPrototypeKind (kind d))) ds = true);
        [|congruence].
      apply existsb_exists. exists d. apply list_elem_of_In in Hin.
      by rewrite Hd.
    + split; [|done]. intros _ d Hin.
      destruct (isPrototypeKind (kind d)) eqn:Hd; [done|].
      assert (existsb (fun d => negb (isPrototypeKind (kind d))) ds = true);
        [|congruence].
      apply existsb_exists. exists d. apply list_elem_of_In in Hin.
      by rewrite Hd.
Qed.

(** A symbol without declarations: the flags are [None]; an access that is
    not through [super], or that is in a static context, is permitted
    without [declarations] being read; the access through [super]
    elsewhere reads it and throws. *)
Lemma undefined_declarations checker fuel symbol name node lhsType :
  declarations symbol = None →
  flagsOf symbol = ModifierFlags.None ∧
  (expression_kind node ≠ SuperKeyword →
   resolver checker fuel symbol name node lhsType = Ok None) ∧
  (isStaticSuper (access node) = Ok true →
   resolver checker fuel symbol name node lhsType = Ok None) ∧
  (expression_kind node = SuperKeyword →
   isStaticSuper (access node) = Ok false →
   resolver checker fuel symbol name node lhsType = TypeError).
Proof.
  intros Hds. pose proof (flagsOf_undefined symbol Hds) as Hflags.
  unfold flagsOf in Hflags. split; [done|].
  unfold resolver, getRestrictedElementAccessError. rewrite Hflags.
  assert (Ha : abstractCheck isFunctionScopeBoundary
                 getInstanceTypeOfClassLikeDeclaration checker symbol name
                 node ModifierFlags.None = Ok None).
  { unfold abstractCheck. rewrite flag_None. by rewrite andb_false_r. }
  rewrite Ha. simpl. unfold superCheck, visibilityCheck.
  rewrite !flag_None. simpl. repeat split.
  - intros Hk. by rewrite bool_decide_eq_false_2.
  - intros ->. by destruct (bool_decide _).
  - intros Hk ->. rewrite bool_decide_eq_true_2 by done. simpl.
    unfold hasNonPrototypeDeclaration. by rewrite Hds.
Qed.

(** The access through [super] to a symbol that has a list of
    declarations and is not static, from a place that is not a static
    member ([isStaticSuper] answers false): when a declaration of the
    symbol is neither a method, a method signature nor an accessor, the
    violation of line 31 is returned; otherwise, when the symbol is
    flagged abstract and each of its declarations has the [abstract]
    modifier, the violation of line 36, naming the class of the first
    declaration, is returned; otherwise the check lets the access through
    to the visibility check. *)
Lemma super_access_restricted
    (checker : TypeChecker) (fuel : nat) (symbol : Symbol) (name : string)
    (node : ElementAccessExpression) (lhsType : TypeId) (ds : list Node) :
  let flags := flagsOf symbol in
  let returned := resolver checker fuel symbol name node lhsType in
  expression_kind node = SuperKeyword →
  declarations symbol = Some ds →
  flag flags ModifierFlags.Static = false →
  isStaticSuper (access node) = Ok false →
  ((∃ d, d ∈ ds ∧ isPrototypeKind (kind d) = false) →
   returned = Ok (Some superMessage)) ∧
  ((∀ d, d ∈ ds → isPrototypeKind (kind d) = true) →
   flag flags ModifierFlags.Abstract = true →
   (∀ d, d ∈ ds → hasModifier (modifiers d) AbstractKeyword = true) →
   ∃ d0, head ds = Some d0 ∧
         ∀ c, parent d0 = Some c →
              names checker c returned (abstractSuperMessage name)) ∧
  ((∀ d, d ∈ ds → isPrototypeKind (kind d) = true) →
   ¬ (flag flags ModifierFlags.Abstract = true ∧
      ∀ d, d ∈ ds → hasModifier (modifiers d) AbstractKeyword = true) →
   returned = visibility checker fuel symbol name node lhsType flags).
Proof.
  intros flags returned Hk Hds Hstatic Hsuper.
  assert (Hret : returned =
            orElse (superCheck getInstanceTypeOfClassLikeDeclaration
                      checker symbol name node flags)
              (visibility checker fuel symbol name node lhsType flags)).
  { unfold returned, resolver, getRestrictedElementAccessError.
    fold flagsOf. fold flags. rewrite abstractCheck_not_this; [done|].
    by rewrite Hk. }
  destruct (hasNonPrototypeDeclaration_true symbol ds Hds) as [Htrue Hfalse].
  rewrite Hret. unfold superCheck.
  rewrite bool_decide_eq_true_2 by done. rewrite Hstatic, Hsuper. simpl.
  split; [|split].
  - intros Hex. apply Htrue in Hex. by rewrite Hex.
  - intros Hall Habs Hmods. apply Hfalse in Hall. rewrite Hall, Habs, Hds.
    simpl.
    assert (forallb (fun d => hasModifier (modifiers d) AbstractKeyword) ds = true)
      as ->.
    { apply forallb_forall. intros d Hin. apply Hmods.
      by apply list_elem_of_In. }
    destruct ds as [|d0 rest].
    { by rewrite (flagsOf_nil symbol _ Hds) in Habs. }
    exists d0. split; [done|]. intros c Hc.
    unfold firstDeclarationParent. rewrite Hds. simpl. rewrite Hc.
    unfold names, printClass, instanceTypeOf.
    split; [intros t Ht|intros Ht]; by rewrite Ht.
  - intros Hall Hnot. apply Hfalse in Hall. rewrite Hall. simpl.
    destruct (flag flags ModifierFlags.Abstract) eqn:Habs; [|done].
    rewrite Hds.
    destruct (forallb _ ds) eqn:Hmods; [|done].
    destruct Hnot. split; [done|]. intros d Hin.
    rewrite forallb_forall in Hmods. apply Hmods. by apply list_elem_of_In.
Qed.

Lemma String_append_head c s t : String c s +:+ t = String c (s +:+ t).
Proof. reflexivity. Qed.

Lemma visibility_not_abstract_message
    checker fuel symbol name node lhsType flags cls :
  visibility checker fuel symbol name node lhsType flags ≠
  Ok (Some (abstractPropertyMessage name cls)).
Proof.
  unfold visibility, visibilityCheck, abstractPropertyMessage, failVisibility,
    ofParent, Access.bind.
  repeat case_match; try discriminate; rewrite !String_append_head;
    intros [=].
Qed.

(** C4, as the code has it. For an element access through [this] to a
    symbol flagged abstract, the abstract-property violation is returned
    exactly when a declaration of the symbol is neither a method, a method
    signature nor an accessor, and the nearest function scope boundary
    around the access is a class (the access is in the class body, outside
    any method) or a constructor; the violation names that class (and
    the resolver throws if tsutils does on that class). In every other
    case the check lets the access through to the visibility check. *)
Theorem abstract_this_access_restricted
    (checker : TypeChecker) (fuel : nat) (symbol : Symbol) (name : string)
    (node : ElementAccessExpression) (lhsType : TypeId)
    (ds : list Node) (p boundary : Node) :
  let flags := flagsOf symbol in
  let returned := resolver checker fuel symbol name node lhsType in
  let property := ∃ d, d ∈ ds ∧ isPrototypeKind (kind d) = false in
  expression_kind node = ThisKeyword →
  flag flags ModifierFlags.Abstract = true →
  declarations symbol = Some ds →
  parent (access node) = Some p →
  nearestBoundary isFunctionScopeBoundary p = Some boundary →
  (∀ c, property → initializedClass boundary = Some c →
        names checker c returned (abstractPropertyMessage name)) ∧
  (¬ (property ∧ is_Some (initializedClass boundary)) →
   returned = visibility checker fuel symbol name node lhsType flags ∧
   ∀ cls, returned ≠ Ok (Some (abstractPropertyMessage name cls))).
Proof.
  intros flags returned property Hk Habs Hds Hp Hb.
  destruct (hasNonPrototypeDeclaration_true symbol ds Hds) as [Htrue Hfalse].
  assert (Hsuper : superCheck getInstanceTypeOfClassLikeDeclaration
                     checker symbol name node flags = Ok None).
  { apply superCheck_not_super. by rewrite Hk. }
  assert (Hret : returned =
            orElse (abstractCheck isFunctionScopeBoundary
                      getInstanceTypeOfClassLikeDeclaration
                      checker symbol name node flags)
              (visibility checker fuel symbol name node lhsType flags)).
  { unfold returned, resolver, getRestrictedElementAccessError.
    fold flagsOf. fold flags. by rewrite Hsuper. }
  assert (Hcheck : abstractCheck isFunctionScopeBoundary
                     getInstanceTypeOfClassLikeDeclaration
                     checker symbol name node flags =
            let! nonPrototype := hasNonPrototypeDeclaration symbol in
            if nonPrototype then
              match initializedClass boundary with
              | Some c =>
                let! cls := printClass getInstanceTypeOfClassLikeDeclaration
                              checker (Some c) in
                Ok (Some (abstractPropertyMessage name cls))
              | None => Ok None
              end
            else Ok None).
  { unfold abstractCheck. rewrite bool_decide_eq_true_2 by done.
    rewrite Habs. simpl. unfold ofParent. rewrite Hp.
    by rewrite getEnclosingClass_nearestBoundary, Hb. }
  rewrite Hret, Hcheck. split.
  - intros c Hprop Hc. apply Htrue in Hprop. rewrite Hprop, Hc. simpl.
    unfold names, printClass, instanceTypeOf.
    split; [intros t Ht|intros Ht]; by rewrite Ht.
  - intros Hnot.
    assert (Hvis : orElse
              (let! nonPrototype := hasNonPrototypeDeclaration symbol in
               if nonPrototype then
                 match initializedClass boundary with
                 | Some c =>
                   let! cls := printClass getInstanceTypeOfClassLikeDeclaration
                                 checker (Some c) in
                   Ok (Some (abstractPropertyMessage name cls))
                 | None => Ok None
                 end
               else Ok None)
              (visibility checker fuel symbol name node lhsType flags) =
            visibility checker fuel symbol name node lhsType flags).
    { destruct (hasNonPrototypeDeclaration symbol) as [[|]| |] eqn:E.
      - destruct (initializedClass boundary) as [c|] eqn:Hc; [|done].
        destruct Hnot. split; [by apply Htrue|done].
      - done.
      - unfold hasNonPrototypeDeclaration in E. by rewrite Hds in E.
      - unfold hasNonPrototypeDeclaration in E. by rewrite Hds in E. }
    rewrite Hvis. split; [done|]. intros cls.
    apply visibility_not_abstract_message.
Qed.

(** C6, as the code has it. For an access to a private member on which
    neither the abstract-property check nor the [super] check returned a
    message, with the declaring class [c] the parent of the symbol's
    first declaration (a class: the parameter property, whose parent is
    the constructor, is left out): the access is permitted exactly when
    the span of the access node lies within the span of [c], and
    otherwise the private-visibility message naming [c] is returned (the
    resolver throws if tsutils does on [c]). *)
Theorem private_access_within_declaring_class
    (checker : TypeChecker) (fuel : nat) (symbol : Symbol) (name : string)
    (node : ElementAccessExpression) (lhsType : TypeId) (c : Node) :
  let flags := flagsOf symbol in
  let returned := resolver checker fuel symbol name node lhsType in
  let within :=
    (pos c ≤ pos (access node))%Z ∧ (end_ (access node) ≤ end_ c)%Z in
  flag flags ModifierFlags.Private = true →
  abstractCheck isFunctionScopeBoundary getInstanceTypeOfClassLikeDeclaration
    checker symbol name node flags = Ok None →
  superCheck getInstanceTypeOfClassLikeDeclaration
    checker symbol name node flags = Ok None →
  firstDeclarationParent symbol = Ok (Some c) →
  isClassLike (kind c) = true →
  (returned = Ok None ↔ within) ∧
  (¬ within →
   names checker c returned (fun cls => failVisibility name cls true)).
Proof.
  intros flags returned within Hpriv Ha Hs Hc _.
  assert (Hret : returned =
            if (pos (access node) <? pos c)%Z || (end_ c <? end_ (access node))%Z
            then
              let! cls := printClass getInstanceTypeOfClassLikeDeclaration
                            checker (Some c) in
              Ok (Some (failVisibility name cls true))
            else Ok None).
  { unfold returned, resolver, getRestrictedElementAccessError.
    fold flagsOf. fold flags. rewrite Ha, Hs. simpl.
    unfold visibilityCheck. by rewrite flag_NonPublic, Hpriv, Hc. }
  pose proof (printClass_names checker c
                (fun cls => failVisibility name cls true)) as Hnames.
  rewrite Hret. unfold within.
  destruct (Z.ltb_spec (pos (access node)) (pos c)) as [H1|H1];
    destruct (Z.ltb_spec (end_ c) (end_ (access node))) as [H2|H2]; simpl.
  4: { split; [split; [intros _; lia|done]|]. intros Hn. lia. }
  all: split; [split; [|intros [? ?]; lia]|intros _; exact Hnames].
  all: unfold printClass, instanceTypeOf;
    by destruct (getInstanceTypeOfClassLikeDeclaration c checker).
Qed.

Lemma throughInstanceOf_inherits checker fuel name lhsType flags enclosing :
  flag flags ModifierFlags.Static = false →
  hasBase checker fuel lhsType enclosing isIdentical ≠ OutOfFuel →
  (inheritsFrom checker isIdentical enclosing lhsType →
   throughInstanceOf checker fuel name lhsType flags enclosing = Ok None) ∧
  (¬ inheritsFrom checker isIdentical enclosing lhsType →
   throughInstanceOf checker fuel name lhsType flags enclosing =
   Ok (Some (protectedInstanceMessage name (typeToString checker enclosing)))).
Proof.
  intros Hstatic Hfuel. unfold throughInstanceOf. rewrite Hstatic. simpl.
  pose proof (hasBase_true checker isIdentical enclosing fuel lhsType) as Ht.
  pose proof (hasBase_false checker isIdentical enclosing fuel lhsType) as Hf.
  pose proof (hasBase_no_error checker isIdentical enclosing fuel lhsType) as He.
  destruct (hasBase checker fuel lhsType enclosing isIdentical)
    as [[|]| |]; simpl.
  - split; [done|]. intros Hn. by destruct Hn; apply Ht.
  - split; [|done]. intros Hi. by destruct (Hf eq_refl).
  - by destruct He.
  - done.
Qed.

(** The protected branch, for an access to a protected member on which
    neither the abstract-property check nor the [super] check returned a
    message: the resolver searches, from the parent of the access, the
    nearest enclosing class whose type is or inherits from each declaring
    class of the symbol and, when there is none and the member is not
    static, takes the type of the [this] parameter of the enclosing
    function if that type does. Without such a class the
    protected-visibility message naming the type of the left-hand side is
    returned; with one, for a member that is not static, a violation is
    returned when the left-hand side type neither is nor inherits from
    that class, and the access is permitted otherwise. The searches and
    the resolver itself answer whenever the recursion budget is above the
    ranks of the types. *)
Lemma protected_access_needs_enclosing_class
    (checker : TypeChecker) (fuel : nat) (symbol : Symbol) (name : string)
    (node : ElementAccessExpression) (lhsType : TypeId)
    (ds : list Node) (p : Node) :
  let flags := flagsOf symbol in
  let returned := resolver checker fuel symbol name node lhsType in
  let declaringClasses := map parent ds in
  let found :=
    findEnclosingClass getInstanceTypeOfClassLikeDeclaration
      checker fuel declaringClasses p in
  let fromThis :=
    getEnclosingClassFromThisParameter checker fuel declaringClasses p in
  let enclosed enclosing :=
    found = Ok (Some enclosing) ∨
    (found = Ok None ∧ flag flags ModifierFlags.Static = false ∧
     fromThis = Ok (Some enclosing)) in
  flag flags ModifierFlags.Protected = true →
  flag flags ModifierFlags.Private = false →
  abstractCheck isFunctionScopeBoundary getInstanceTypeOfClassLikeDeclaration
    checker symbol name node flags = Ok None →
  superCheck getInstanceTypeOfClassLikeDeclaration
    checker symbol name node flags = Ok None →
  declarations symbol = Some ds →
  parent (access node) = Some p →
  (∀ answer, found = Ok answer →
             nearestEnclosing getInstanceTypeOfClassLikeDeclaration
               checker fuel declaringClasses p answer) ∧
  (∀ enclosing, enclosed enclosing →
                inheritsFromAll checker declaringClasses enclosing) ∧
  (found = Ok None →
   flag flags ModifierFlags.Static = true ∨ fromThis = Ok None →
   returned = Ok (Some (failVisibility name (typeToString checker lhsType) false))) ∧
  (∀ enclosing,
     enclosed enclosing →
     returned = throughInstanceOf checker fuel name lhsType flags enclosing ∧
     (flag flags ModifierFlags.Static = true → returned = Ok None) ∧
     (flag flags ModifierFlags.Static = false →
      hasBase checker fuel lhsType enclosing isIdentical ≠ OutOfFuel →
      (¬ inheritsFrom checker isIdentical enclosing lhsType →
       returned =
       Ok (Some (protectedInstanceMessage name (typeToString checker enclosing)))) ∧
      (inheritsFrom checker isIdentical enclosing lhsType →
       returned = Ok None))) ∧
  (∀ rank : TypeId -> nat,
     (∀ t s, s ∈ successors checker t → rank s < rank t) →
     (∀ t, rank t < fuel) →
     found ≠ OutOfFuel ∧ fromThis ≠ OutOfFuel ∧ returned ≠ OutOfFuel).
Proof.
  intros flags returned declaringClasses found fromThis enclosed
    Hprot Hpriv Ha Hs Hds Hp.
  assert (Hret : returned =
    let! found := found in
    let! enclosingClass :=
      match found with
      | Some c => Ok (Some c)
      | None => if negb (flag flags ModifierFlags.Static)
                then fromThis else Ok None
      end in
    match enclosingClass with
    | None => Ok (Some (failVisibility name (typeToString checker lhsType) false))
    | Some c => throughInstanceOf checker fuel name lhsType flags c
    end).
  { unfold returned, resolver, getRestrictedElementAccessError.
    fold flagsOf. fold flags. rewrite Ha, Hs. simpl.
    unfold visibilityCheck. rewrite flag_NonPublic, Hpriv, Hprot, Hds. simpl.
    unfold ofParent. rewrite Hp. reflexivity. }
  assert (Hinh : ∀ enclosing, enclosed enclosing →
                   inheritsFromAll checker declaringClasses enclosing).
  { intros enclosing [Hfound|(_ & _ & Hthis)].
    - apply findEnclosingClass_nearest in Hfound as (k & c & _ & _ & Hans).
      by destruct Hans as (_ & _ & _ & ?).
    - unfold fromThis, getEnclosingClassFromThisParameter, Access.bind in Hthis.
      repeat case_match; simplify_eq; by eapply hasAllBases_true. }
  assert (Hthrough : ∀ enclosing, enclosed enclosing →
            returned = throughInstanceOf checker fuel name lhsType flags enclosing).
  { intros enclosing [Hfound|(Hfound & Hstatic & Hthis)]; rewrite Hret, Hfound.
    - done.
    - simpl. by rewrite Hstatic, Hthis. }
  split; [|split; [|split; [|split]]].
  - intros answer. apply findEnclosingClass_nearest.
  - done.
  - intros Hfound Hnone. rewrite Hret, Hfound. simpl.
    destruct Hnone as [->| ->]; [done|]. by destruct (negb _).
  - intros enclosing Henc. split; [by apply Hthrough|]. split.
    + intros Hstatic. rewrite (Hthrough _ Henc).
      unfold throughInstanceOf. by rewrite Hstatic.
    + intros Hstatic Hfuel. rewrite (Hthrough _ Henc).
      destruct (throughInstanceOf_inherits checker fuel name lhsType flags
                  enclosing Hstatic Hfuel) as [Hyes Hno].
      by split.
  - intros rank Hdecreases Hbound. split; [|split].
    + by apply (findEnclosingClass_in_fuel rank).
    + by apply (getEnclosingClassFromThisParameter_in_fuel rank).
    + by apply (resolver_enough_fuel rank).
Qed.

End Resolver.

End AccessProperties.

(** *** The resolver on small programs *)

Module AccessExamples.
Import Access AccessFixtures.

Local Ltac only_declaration :=
  let d := fresh "d" in
  let Hd := fresh "Hd" in
  intros d Hd; apply list_elem_of_singleton in Hd as ->; reflexivity.

(** C10. A symbol whose [declarations] is undefined has the flags [None],
    yet an access to it through [super] from a member that is not static
    reaches [hasNonPrototypeDeclaration], which reads [declarations] and
    throws, where the specification has the resolver return undefined. *)
Theorem super_without_declarations_throws :
  declarations SuperWithoutDeclarations.symbol = None ∧
  getModifierFlagsOfSymbol getCombinedModifierFlags
    SuperWithoutDeclarations.symbol = ModifierFlags.None ∧
  expression_kind SuperWithoutDeclarations.access = SuperKeyword ∧
  isStaticSuper (access SuperWithoutDeclarations.access) = Ok false ∧
  hasNonPrototypeDeclaration SuperWithoutDeclarations.symbol = TypeError ∧
  resolve SuperWithoutDeclarations.symbol "a"
    SuperWithoutDeclarations.access 0 = TypeError.
Proof. repeat split. Qed.

(** C3. The access [super['a']] from a method that is not static, to a
    symbol that is not static, has no declaration other than methods and
    accessors and is not abstract: where the specification has the check
    permit the access, [hasNonPrototypeDeclaration] reads the undefined
    [declarations] and the [super] check throws. *)
Theorem super_check_throws_without_declarations :
  let flags :=
    getModifierFlagsOfSymbol getCombinedModifierFlags
      SuperWithoutDeclarations.symbol in
  expression_kind SuperWithoutDeclarations.access = SuperKeyword ∧
  flag flags ModifierFlags.Static = false ∧
  isStaticSuper (access SuperWithoutDeclarations.access) = Ok false ∧
  (∀ ds d, declarations SuperWithoutDeclarations.symbol = Some ds →
           d ∈ ds → isPrototypeKind (kind d) = true) ∧
  flag flags ModifierFlags.Abstract = false ∧
  superCheck getInstanceTypeOfClassLikeDeclaration checker
    SuperWithoutDeclarations.symbol "a" SuperWithoutDeclarations.access flags
    = TypeError ∧
  resolve SuperWithoutDeclarations.symbol "a"
    SuperWithoutDeclarations.access 0 ≠ Ok None.
Proof. repeat split; done. Qed.

(** The access [super['m']] to the abstract method of the base class. *)
Lemma super_access_restricted_witness :
  resolve AbstractMethodViaSuper.symbol "m" AbstractMethodViaSuper.access 10 =
  Ok (Some (abstractSuperMessage "m" "A")).
Proof.
  destruct (AccessProperties.super_access_restricted
              getCombinedModifierFlags isFunctionScopeBoundary
              getInstanceTypeOfClassLikeDeclaration checker 8
              AbstractMethodViaSuper.symbol "m" AbstractMethodViaSuper.access
              10 [AbstractMethodViaSuper.mA]
              eq_refl eq_refl eq_refl eq_refl) as (_ & H & _).
  destruct H as (d0 & Hd0 & H);
    [only_declaration | reflexivity | only_declaration |].
  injection Hd0 as <-.
  exact (proj1 (H AbstractMethodViaSuper.classA eq_refl) 10 eq_refl).
Defined.

(** C4 as the specification words it fails: [this['m']] in the constructor
    of the class that declares the abstract method [m], a member without
    a declaration other than methods and accessors, is permitted. *)
Lemma abstract_method_in_constructor_permitted :
  expression_kind AbstractMethodInConstructor.access = ThisKeyword ∧
  flag (getModifierFlagsOfSymbol getCombinedModifierFlags
          AbstractMethodInConstructor.symbol) ModifierFlags.Abstract = true ∧
  hasNonPrototypeDeclaration AbstractMethodInConstructor.symbol = Ok false ∧
  ofParent (getEnclosingClassOfAbstractPropertyAccess isFunctionScopeBoundary)
    (access AbstractMethodInConstructor.access) =
    Ok (Some AbstractMethodInConstructor.classA) ∧
  parent AbstractMethodInConstructor.m =
    Some AbstractMethodInConstructor.classA ∧
  resolve AbstractMethodInConstructor.symbol "m"
    AbstractMethodInConstructor.access 10 = Ok None.
Proof. repeat split. Qed.

(** The access [this['x']] to an abstract property in the constructor. *)
Lemma abstract_this_access_restricted_witness :
  resolve AbstractPropertyInConstructor.symbol "x"
    AbstractPropertyInConstructor.access 10 =
  Ok (Some (abstractPropertyMessage "x" "A")).
Proof.
  destruct (AccessProperties.abstract_this_access_restricted
              getCombinedModifierFlags isFunctionScopeBoundary
              getInstanceTypeOfClassLikeDeclaration checker 8
              AbstractPropertyInConstructor.symbol "x"
              AbstractPropertyInConstructor.access 10
              [AbstractPropertyInConstructor.x]
              AbstractPropertyInConstructor.statement
              AbstractPropertyInConstructor.ctor
              eq_refl eq_refl eq_refl eq_refl eq_refl) as (H & _).
  refine (proj1 (H AbstractPropertyInConstructor.classA _ eq_refl) 10 eq_refl).
  exists AbstractPropertyInConstructor.x.
  split; [apply list_elem_of_here|reflexivity].
Defined.

(** C6 as the specification words it fails: the access [super['x']] to
    the private property lies within the class that declares it and is
    not permitted. *)
Lemma private_via_super_inside_rejected :
  flag (getModifierFlagsOfSymbol getCombinedModifierFlags
          PrivateViaSuperInside.symbol) ModifierFlags.Private = true ∧
  firstDeclarationParent PrivateViaSuperInside.symbol =
    Ok (Some PrivateViaSuperInside.classA) ∧
  (pos PrivateViaSuperInside.classA ≤
   pos (access PrivateViaSuperInside.access))%Z ∧
  (end_ (access PrivateViaSuperInside.access) ≤
   end_ PrivateViaSuperInside.classA)%Z ∧
  resolve PrivateViaSuperInside.symbol "x" PrivateViaSuperInside.access 10 =
    Ok (Some superMessage).
Proof. repeat split; by vm_compute. Qed.

(** The access [this['x']] in a subclass of the class of the private [x]. *)
Lemma private_access_within_declaring_class_witness :
  resolve PrivateInSubclass.symbol "x" PrivateInSubclass.access 11 =
  Ok (Some (failVisibility "x" "A" true)).
Proof.
  destruct (AccessProperties.private_access_within_declaring_class
              getCombinedModifierFlags isFunctionScopeBoundary
              getInstanceTypeOfClassLikeDeclaration checker 8
              PrivateInSubclass.symbol "x" PrivateInSubclass.access 11
              PrivateInSubclass.classA
              eq_refl eq_refl eq_refl eq_refl eq_refl) as (_ & H).
  refine (proj1 (H _) 10 eq_refl). simpl. lia.
Defined.

(** What C6 leaves out: the private parameter property read in a method
    of its own class. The parent of the declaration is the constructor,
    the access lies outside of it, and tsutils throws when asked for the
    instance type of a constructor. *)
Example private_parameter_in_own_class_throws :
  firstDeclarationParent PrivateParameterInOwnClass.symbol =
    Ok (Some PrivateParameterInOwnClass.ctor) ∧
  (pos PrivateParameterInOwnClass.classA ≤
   pos (access PrivateParameterInOwnClass.access))%Z ∧
  (end_ (access PrivateParameterInOwnClass.access) ≤
   end_ PrivateParameterInOwnClass.classA)%Z ∧
  resolve PrivateParameterInOwnClass.symbol "x"
    PrivateParameterInOwnClass.access 10 = TypeError.
Proof. repeat split; by vm_compute. Qed.

(** C5. The protected parameter property [x] of the class [A] read
    through [this] in a method of [A]. The class [A] encloses the access,
    declares the member and is the type of the left-hand side, so the
    specification has the search find it and the access pass. The code
    takes the parent of the declaration, the constructor, for the
    declaring class: [A] does not have it among its declarations, the
    search finds no class, and the protected-visibility message is
    returned for an access inside the class itself. *)
Theorem protected_parameter_in_own_class_rejected :
  let flags :=
    getModifierFlagsOfSymbol getCombinedModifierFlags
      ProtectedParameterInOwnClass.symbol in
  flag flags ModifierFlags.Protected = true ∧
  flag flags ModifierFlags.Static = false ∧
  expression_kind ProtectedParameterInOwnClass.access = ThisKeyword ∧
  ascend 4 (access ProtectedParameterInOwnClass.access) =
    Some ProtectedParameterInOwnClass.classA ∧
  ascend 2 ProtectedParameterInOwnClass.x =
    Some ProtectedParameterInOwnClass.classA ∧
  getInstanceTypeOfClassLikeDeclaration ProtectedParameterInOwnClass.classA
    checker = Some 10 ∧
  hasBase checker 8 10 10 isIdentical = Ok true ∧
  hasAllBases checker 8 10 [Some ProtectedParameterInOwnClass.classA]
    = Ok true ∧
  map parent [ProtectedParameterInOwnClass.x] =
    [Some ProtectedParameterInOwnClass.ctor] ∧
  hasAllBases checker 8 10 [Some ProtectedParameterInOwnClass.ctor]
    = Ok false ∧
  findEnclosingClass getInstanceTypeOfClassLikeDeclaration checker 8
    [Some ProtectedParameterInOwnClass.ctor]
    ProtectedParameterInOwnClass.statement = Ok None ∧
  resolve ProtectedParameterInOwnClass.symbol "x"
    ProtectedParameterInOwnClass.access 10 =
    Ok (Some (failVisibility "x" "A" false)).
Proof. repeat split; by vm_compute. Qed.

(** The access [other['x']] in [B], where [other] is an [A]. *)
Lemma protected_access_needs_enclosing_class_witness :
  resolve ProtectedThroughBase.symbol "x" ProtectedThroughBase.access 10 =
  Ok (Some (protectedInstanceMessage "x" "B")).
Proof.
  destruct (AccessProperties.protected_access_needs_enclosing_class
              getCombinedModifierFlags isFunctionScopeBoundary
              getInstanceTypeOfClassLikeDeclaration checker 8
              ProtectedThroughBase.symbol "x" ProtectedThroughBase.access 10
              [ProtectedThroughBase.x] ProtectedThroughBase.statement
              eq_refl eq_refl eq_refl eq_refl eq_refl eq_refl)
    as (_ & _ & _ & H & _).
  destruct (H 11 (or_introl eq_refl)) as (-> & _). reflexivity.
Defined.

(** C7 as the specification words it fails: from the decorator of a class
    declaration the walks go on at the second ancestor, not the third. *)
Lemma class_decorator_ascends_two_levels :
  kind ClassDecorator.decorator = Decorator ∧
  parent ClassDecorator.decorator = Some ClassDecorator.classB ∧
  kind ClassDecorator.classB ≠ Parameter_ ∧
  isStaticSuperStep ClassDecorator.decorator =
    Continue (Some ClassDecorator.body) ∧
  getThisParameterFromContextStep ClassDecorator.decorator =
    Continue (Some ClassDecorator.body) ∧
  ascend 3 ClassDecorator.decorator = Some ClassDecorator.m ∧
  isStaticSuperStep ClassDecorator.decorator ≠
    Continue (ascend 3 ClassDecorator.decorator) ∧
  getThisParameterFromContextStep ClassDecorator.decorator ≠
    Continue (ascend 3 ClassDecorator.decorator).
Proof. repeat split; by vm_compute. Qed.

(** The decorator of the class [B]. *)
Lemma walks_ascend_by_kind_witness :
  isStaticSuperStep ClassDecorator.decorator =
    Continue (ascend 2 ClassDecorator.decorator) ∧
  getThisParameterFromContextStep ClassDecorator.decorator =
    Continue (ascend 2 ClassDecorator.decorator).
Proof.
  destruct (AccessProperties.walks_ascend_by_kind ClassDecorator.decorator)
    as (_ & H & _).
  exact (H ClassDecorator.classB eq_refl eq_refl).
Defined.

(** The private property read through [this] in its own class. *)
Example private_in_own_class_permitted :
  resolve PrivateInOwnClass.symbol "x" PrivateInOwnClass.access 10 = Ok None.
Proof. reflexivity. Qed.

(** The same access through an instance of [B] is permitted. *)
Example protected_through_subclass_permitted :
  resolve ProtectedThroughBase.symbol "x" ProtectedThroughBase.access 11 =
  Ok None.
Proof. reflexivity. Qed.

(** The types of [checker] go down in rank, below the budget of
    [resolve]. *)
Example fixture_types_ranked :
  (∀ t s, s ∈ successors checker t → rank s < rank t) ∧ (∀ t, rank t < 8).
Proof.
  split.
  - intros t s. do 11 (destruct t as [|t]; [by intros ?%elem_of_nil|]).
    destruct t as [|t]; [|by intros ?%elem_of_nil].
    intros ->%list_elem_of_singleton. simpl. lia.
  - intros t. unfold rank. repeat (destruct t as [|t]; [lia|]). lia.
Qed.

End AccessExamples.

(** ** Further properties of the linter *)

Module LinterExtras.
Import Linter.

(** *** [prepareRules] and [getFailures] *)

Section Prepare.

Context {SourceFile Program Options Settings : Type}.

Local Abbreviation Ctor := (@RuleConstructor SourceFile Program Options Settings).
Local Abbreviation Config := (@EffectiveConfiguration Options Settings).

Variable loadRule : string -> option (list string) -> option Ctor.

(** X1. The rules [prepareRules] returns are in the order of the
    configuration: their names are a subsequence of the configured names,
    so no rule is prepared twice for one entry or moved. *)
Theorem prepareRules_in_configuration_order
    (config : Config) (sourceFile : SourceFile) (program : option Program) :
  sublist
    (map p_ruleName (fst (prepareRules loadRule config sourceFile program)))
    (map fst (rules config)).
Proof.
  unfold prepareRules. rewrite LinterProperties.prepareRules_fold. simpl.
  induction (rules config) as [|[name c] entries IH]; simpl; [constructor|].
  destruct (_ !! 0) as [p|] eqn:E.
  - apply LinterProperties.kept_Some in E as (ctor & _ & ->). simpl.
    by apply sublist_skip.
  - by apply sublist_cons.
Qed.

(** X2. When every configured rule is switched off, a pass loads no rule
    module, logs nothing and returns no failure, whatever the loader, the
    processor and the rest of the configuration are. *)
Theorem getFailures_all_off
    (getDisabledRanges : list string -> SourceFile -> DisableMap)
    (getLineAndCharacterOfPosition : SourceFile -> Z -> Z * Z)
    (config : Config) (sourceFile : SourceFile) (program : option Program)
    (processor : option AbstractProcessor) :
  (∀ entry, entry ∈ rules config → severity (snd entry) = "off") →
  getFailures loadRule getDisabledRanges getLineAndCharacterOfPosition
    sourceFile config program processor = ([], []) ∧
  ∀ otherLoader : string -> option (list string) -> option Ctor,
    prepareRules otherLoader config sourceFile program = ([], []).
Proof.
  intros Hoff.
  assert (Hprep : ∀ loader : string -> option (list string) -> option Ctor,
            prepareRules loader config sourceFile program = ([], [])).
  { intros loader. unfold prepareRules.
    assert (Hfold : ∀ st, fold_left (prepareRule loader config sourceFile program)
                            (rules config) st = st); [|apply Hfold].
    induction (rules config) as [|[name c] entries IH]; intros st; [done|].
    simpl. destruct st as [rs ws].
    pose proof (Hoff (name, c) (list_elem_of_here _ _)) as Hc. simpl in Hc.
    rewrite Hc. simpl.
    apply IH. intros entry Hin. apply Hoff. by apply list_elem_of_further. }
  split; [|done]. unfold getFailures. by rewrite Hprep.
Qed.

End Prepare.

(** *** [applyRules] *)

Section Apply.

Context {SourceFile Program Options Settings : Type}.

Local Abbreviation Prepared := (@PreparedRule SourceFile Program Options Settings).

Variable getDisabledRanges : list string -> SourceFile -> DisableMap.
Variable getLineAndCharacterOfPosition : SourceFile -> Z -> Z * Z.

Lemma omap_filter_map {A B} (c : A -> bool) (f : A -> B) l :
  omap (fun x => if c x then None else Some (f x)) l =
  map f (List.filter (fun x => negb (c x)) l).
Proof.
  induction l as [|x l IH]; [done|].
  change (omap (fun x => if c x then None else Some (f x)) (x :: l))
    with (match (if c x then None else Some (f x)) with
          | Some y => y :: omap (fun x => if c x then None else Some (f x)) l
          | None => omap (fun x => if c x then None else Some (f x)) l
          end).
  simpl. destruct (c x); simpl; [exact IH | f_equal; exact IH].
Qed.

(** X3. The failures of a pass come in the order of the prepared rules
    and, for one rule, in the order of its reports: the result is the
    concatenation, rule by rule, of the failures of the reports that are
    not disabled. *)
Theorem applyRules_in_rule_then_report_order
    (sourceFile : SourceFile) (program : option Program)
    (rules : list Prepared) (settings : Settings) :
  applyRules getDisabledRanges getLineAndCharacterOfPosition
    sourceFile program rules settings =
  flat_map
    (fun r =>
       map (failureOf getLineAndCharacterOfPosition sourceFile r)
         (List.filter
            (fun rep =>
               negb (isDisabled
                       (getDisabledRanges (map p_ruleName rules) sourceFile)
                       (p_ruleName r) (rangeOf rep)))
            (reportsOf getDisabledRanges sourceFile program settings rules r)))
    rules.
Proof.
  rewrite LinterProperties.applyRules_flat.
  apply flat_map_ext. intros r.
  apply (omap_filter_map
           (fun rep =>
              isDisabled (getDisabledRanges (map p_ruleName rules) sourceFile)
                (p_ruleName r) (rangeOf rep))).
Qed.

(** X4. No failure of a pass carries an empty fix: the fix of a failure
    is absent or has at least one replacement, also when the rule passed
    an empty array. *)
Theorem applyRules_no_empty_fix
    (sourceFile : SourceFile) (program : option Program)
    (rules : list Prepared) (settings : Settings) :
  Forall (fun f => f_fix f ≠ Some (mkFix []))
    (applyRules getDisabledRanges getLineAndCharacterOfPosition
       sourceFile program rules settings).
Proof.
  apply Forall_forall. intros f Hf.
  apply LinterProperties.elem_of_applyRules in Hf
    as (r & rep & _ & _ & _ & ->).
  unfold failureOf, makeFix. simpl.
  destruct (reportFix rep) as [|x|[|x xs]]; done.
Qed.

(** X5. A rule for which the line-switch map has no entry, or an empty
    one, has none of its reports suppressed. *)
Theorem applyRules_reports_all_without_disabled_ranges
    (sourceFile : SourceFile) (program : option Program)
    (rules : list Prepared) (settings : Settings) (r : Prepared) :
  r ∈ rules →
  disabledRangesOf (getDisabledRanges (map p_ruleName rules) sourceFile)
    (p_ruleName r) = [] →
  Forall
    (fun rep =>
       failureOf getLineAndCharacterOfPosition sourceFile r rep ∈
       applyRules getDisabledRanges getLineAndCharacterOfPosition
         sourceFile program rules settings)
    (reportsOf getDisabledRanges sourceFile program settings rules r).
Proof.
  intros Hr Hnone. apply Forall_forall. intros rep Hrep.
  apply LinterProperties.elem_of_applyRules. exists r, rep.
  repeat split; try done.
  apply LinterProperties.isDisabled_false. rewrite Hnone.
  intros (d & Hd & _). by apply not_elem_of_nil in Hd.
Qed.

End Apply.

(** *** [getFailures] and [lintAndFix] *)

Section Fix.

Context {SourceFile Program Options Settings : Type}.

Local Abbreviation Ctor := (@RuleConstructor SourceFile Program Options Settings).
Local Abbreviation Config := (@EffectiveConfiguration Options Settings).
Local Abbreviation State := (@LoopState SourceFile Program).

Variable loadRule : string -> option (list string) -> option Ctor.
Variable getDisabledRanges : list string -> SourceFile -> DisableMap.
Variable getLineAndCharacterOfPosition : SourceFile -> Z -> Z * Z.
Variable applyFixes : string -> list Fix -> FixResult.
Variable calculateChangeRange : string -> string -> TextChangeRange.
Variable text : SourceFile -> string.

(** X6. Every failure [lintFile] returns bears the name and the severity
    of a configured rule whose severity is not ['off']. *)
Theorem lintFile_failures_of_configured_rules
    (file : SourceFile) (config : Config) (program : option Program) :
  Forall
    (fun f => ∃ name c,
         (name, c) ∈ rules config ∧ severity c ≠ "off" ∧
         f_ruleName f = name ∧ f_severity f = severity c)
    (fst (lintFile loadRule getDisabledRanges getLineAndCharacterOfPosition
            file config program)).
Proof.
  apply Forall_forall. intros f.
  unfold lintFile, getFailures.
  destruct (prepareRules loadRule config file program) as [rs ws] eqn:Hprep.
  destruct (length rs =? 0); simpl; [by intros ?%not_elem_of_nil|].
  intros Hf.
  apply LinterProperties.elem_of_applyRules in Hf
    as (r & rep & Hr & _ & _ & ->).
  unfold prepareRules in Hprep.
  rewrite LinterProperties.prepareRules_fold in Hprep. simpl in Hprep.
  injection Hprep as <- _.
  apply list_elem_of_omap in Hr as ([name c] & Hin & Hkept).
  apply LinterProperties.kept_Some in Hkept as (ctor & (Hoff & _) & ->).
  by exists name, c.
Qed.

Lemma fixLoop_stopped config updateFile n (st : State) :
  stops st →
  fixLoop loadRule getDisabledRanges getLineAndCharacterOfPosition
    applyFixes calculateChangeRange text config updateFile n st = st.
Proof.
  intros Hstop. destruct n as [|n]; [done|]. simpl.
  destruct (length (s_failures st) =? 0) eqn:Hf; [done|].
  destruct (length (collectFixes (s_failures st)) =? 0) eqn:Hx; [done|].
  destruct Hstop as [H|H]; rewrite H in *; done.
Qed.

Lemma fixLoop_add config updateFile n d (st : State) :
  fixLoop loadRule getDisabledRanges getLineAndCharacterOfPosition
    applyFixes calculateChangeRange text config updateFile (n + d) st =
  fixLoop loadRule getDisabledRanges getLineAndCharacterOfPosition
    applyFixes calculateChangeRange text config updateFile d
    (fixLoop loadRule getDisabledRanges getLineAndCharacterOfPosition
       applyFixes calculateChangeRange text config updateFile n st).
Proof.
  revert st. induction n as [|n IH]; intros st; [done|]. simpl.
  destruct (length (s_failures st) =? 0) eqn:Hf.
  { symmetry. apply fixLoop_stopped. left. by apply LinterProperties.length_zero. }
  destruct (length (collectFixes (s_failures st)) =? 0) eqn:Hx.
  { symmetry. apply fixLoop_stopped. right. by apply LinterProperties.length_zero. }
  apply IH.
Qed.

(** X7. Once [lintAndFix] has ended with no failure left, or with no
    fix among the failures left, a higher iteration cap changes nothing:
    the content, the failures, the count of fixes and the warnings are
    the same for every cap from there on. *)
Theorem lintAndFix_cap_irrelevant_once_settled
    (file : SourceFile) (content : string) (config : Config)
    (updateFile : @UpdateFileCallback SourceFile Program)
    (program : option Program) (processor : option AbstractProcessor)
    (n m : Z) :
  let run cap :=
    lintAndFix loadRule getDisabledRanges getLineAndCharacterOfPosition
      applyFixes calculateChangeRange text
      file content config updateFile cap program processor in
  (n ≤ m)%Z →
  failures (fst (run n)) = [] ∨ collectFixes (failures (fst (run n))) = [] →
  run m = run n.
Proof.
  intros run Hnm Hsettled. unfold run, lintAndFix in *. simpl in Hsettled.
  set (st0 := initialState _ _ _ _ _ _ _ _) in *.
  destruct (Z.le_gt_cases n 0) as [Hn|Hn].
  - replace (Z.to_nat n) with 0 in * by lia. simpl in *.
    by rewrite fixLoop_stopped.
  - replace (Z.to_nat m) with (Z.to_nat n + Z.to_nat (m - n)) by lia.
    rewrite fixLoop_add. by rewrite (fixLoop_stopped _ _ (Z.to_nat (m - n))).
Qed.

(** X8. When no failure of the first pass carries a fix, [lintAndFix]
    returns the content as given, the failures and warnings of that pass
    and a count of zero, for every iteration cap and without consulting
    [updateFile]. *)
Theorem lintAndFix_without_fixes
    (file : SourceFile) (content : string) (config : Config)
    (updateFile : @UpdateFileCallback SourceFile Program)
    (iterations : Z) (program : option Program)
    (processor : option AbstractProcessor) :
  let pass :=
    getFailures loadRule getDisabledRanges getLineAndCharacterOfPosition
      file config program processor in
  collectFixes (fst pass) = [] →
  lintAndFix loadRule getDisabledRanges getLineAndCharacterOfPosition
    applyFixes calculateChangeRange text
    file content config updateFile iterations program processor =
  (mkResult content (fst pass) 0, snd pass).
Proof.
  intros pass Hnone. unfold lintAndFix. rewrite fixLoop_stopped.
  - unfold initialState. fold pass. by destruct pass.
  - right. unfold initialState. fold pass. by destruct pass.
Qed.

End Fix.

End LinterExtras.

(** ** Further properties of the access-control resolver *)

Module AccessExtras.
Import Access.

Lemma flag_lor a b mask : flag (Z.lor a b) mask = flag a mask || flag b mask.
Proof.
  unfold flag. rewrite Z.land_lor_distr_l.
  destruct (Z.eqb_spec (Z.land a mask) 0) as [E1|E1];
    destruct (Z.eqb_spec (Z.land b mask) 0) as [E2|E2];
    simpl; rewrite ?negb_false_iff, ?negb_true_iff, ?Z.eqb_eq, ?Z.eqb_neq,
             Z.lor_eq_0_iff; tauto.
Qed.

(** X9. A symbol has a modifier flag exactly when one of its declarations
    has it: the flags of merged declarations add up, and a symbol without
    declarations has none. *)
Theorem symbol_flag_iff_some_declaration
    (getCombinedModifierFlags : Node -> Z) (symbol : Symbol) (mask : Z) :
  flag (getModifierFlagsOfSymbol getCombinedModifierFlags symbol) mask = true ↔
  ∃ ds d, declarations symbol = Some ds ∧ d ∈ ds ∧
          flag (getCombinedModifierFlags d) mask = true.
Proof.
  unfold getModifierFlagsOfSymbol.
  destruct (declarations symbol) as [ds|].
  2:{ rewrite AccessProperties.flag_None. split; [done|].
      by intros (ds & d & [=] & _). }
  assert (Hfold : ∀ acc,
            flag (fold_left (fun flags decl =>
                               Z.lor flags (getCombinedModifierFlags decl))
                    ds acc) mask = true ↔
            flag acc mask = true ∨
            ∃ d, d ∈ ds ∧ flag (getCombinedModifierFlags d) mask = true).
  { induction ds as [|d ds IH]; intros acc; simpl.
    - split; [by left|]. intros [H|(d & Hd & _)]; [done|].
      by apply not_elem_of_nil in Hd.
    - rewrite IH, flag_lor, orb_true_iff. split.
      + intros [[H|H]|(d' & Hd' & H)]; [by left| |].
        * right. exists d. split; [apply list_elem_of_here|done].
        * right. exists d'. split; [by apply list_elem_of_further|done].
      + intros [H|(d' & Hd' & H)]; [by left; left|].
        apply elem_of_cons in Hd' as [->|Hd']; [by left; right|].
        right. by exists d'. }
  rewrite Hfold, AccessProperties.flag_None. split.
  - intros [H|(d & Hd & H)]; [done|]. by exists ds, d.
  - intros (ds' & d & [= <-] & Hd & H). right. by exists d.
Qed.

Local Ltac in_list :=
  try match goal with
      | H : kind ?n = _ |- kind ?n ∈ _ => rewrite H
      end;
  repeat first [ apply list_elem_of_here | apply list_elem_of_further ].

Lemma ascend_add j k node a m :
  ascend j node = Some a → ascend k a = Some m → ascend (j + k) node = Some m.
Proof.
  revert node. induction j as [|j IH]; intros node; simpl.
  - by intros [= ->].
  - destruct (parent node) as [p|]; [apply IH|done].
Qed.

(** X10. What [isStaticSuper] answers is read off an enclosing member: a
    constructor, for which it answers false, or a property, method or
    accessor, for which it answers whether that member has the [static]
    modifier. Without such a member it throws. *)
Theorem isStaticSuper_of_enclosing_member (node : Node) (b : bool) :
  isStaticSuper node = Ok b →
  ∃ k member,
    ascend k node = Some member ∧
    ((kind member = Constructor ∧ b = false) ∨
     (kind member ∈ [PropertyDeclaration; MethodDeclaration;
                     GetAccessor; SetAccessor] ∧
      b = hasModifier (modifiers member) StaticKeyword)).
Proof.
  induction node as [node IH] using AccessProperties.Node_ancestor_ind.
  rewrite AccessProperties.isStaticSuper_turn.
  destruct (isStaticSuperStep node) as [b'|[a|]|] eqn:E; simpl; try done.
  - intros [= ->]. exists 0, node. split; [done|].
    unfold isStaticSuperStep, decoratorStep in E.
    destruct (kind node) eqn:Hk; repeat case_match; simplify_eq;
      first [ by left | right; split; [in_list|done] ].
  - intros Hwalk.
    apply AccessProperties.isStaticSuperStep_ascends in E as [j Hj].
    destruct (IH j a Hj Hwalk) as (k & member & Hk & Hmember).
    exists (S j + k), member. split; [|done]. by apply (ascend_add _ _ _ a).
Qed.

(** X11. The parameter [getThisParameterFromContext] answers is a [this]
    parameter, and it is the first parameter of an enclosing function
    declaration, function expression or method. *)
Theorem getThisParameterFromContext_of_enclosing_function
    (node : Node) (p : ParameterDeclaration) :
  getThisParameterFromContext node = Ok (Some p) →
  isThisParameter p = true ∧
  ∃ k f,
    ascend k node = Some f ∧
    kind f ∈ [FunctionDeclaration; FunctionExpression; MethodDeclaration] ∧
    head (parameters f) = Some p.
Proof.
  induction node as [node IH] using AccessProperties.Node_ancestor_ind.
  rewrite AccessProperties.getThisParameterFromContext_turn.
  destruct (getThisParameterFromContextStep node) as [r|[a|]|] eqn:E;
    simpl; try done.
  - intros [= ->].
    unfold getThisParameterFromContextStep, decoratorStep in E.
    destruct (kind node) eqn:Hk; repeat case_match; simplify_eq;
      (split; [done|]); exists 0, node;
      (split; [done|]); (split; [in_list|]);
      by match goal with H : parameters _ = _ |- _ => rewrite H end.
  - intros Hwalk.
    apply AccessProperties.getThisParameterFromContextStep_ascends in E
      as [j Hj].
    destruct (IH j a Hj Hwalk) as (Hthis & k & f & Hk & Hf).
    split; [done|]. exists (S j + k), f. split; [|done].
    by apply (ascend_add _ _ _ a).
Qed.

Section Resolver.

Variable getCombinedModifierFlags : Node -> Z.
Variable isFunctionScopeBoundary : Node -> bool.
Variable getInstanceTypeOfClassLikeDeclaration :
  Node -> TypeChecker -> option TypeId.

(** X12. An access to a member that is neither private nor protected,
    through an expression other than [this] and [super], is permitted:
    the resolver returns undefined and reads neither the syntax tree nor
    a type, so it cannot throw. *)
Theorem public_access_permitted
    (checker : TypeChecker) (fuel : nat) (symbol : Symbol) (name : string)
    (node : ElementAccessExpression) (lhsType : TypeId) :
  expression_kind node ≠ ThisKeyword →
  expression_kind node ≠ SuperKeyword →
  flag (getModifierFlagsOfSymbol getCombinedModifierFlags symbol)
    ModifierFlags.NonPublicAccessibilityModifier = false →
  getRestrictedElementAccessError getCombinedModifierFlags
    isFunctionScopeBoundary getInstanceTypeOfClassLikeDeclaration
    checker fuel symbol name node lhsType = Ok None.
Proof.
  intros Hthis Hsuper Hpublic. unfold getRestrictedElementAccessError.
  rewrite AccessProperties.abstractCheck_not_this by done.
  rewrite AccessProperties.superCheck_not_super by done. simpl.
  unfold visibilityCheck. by rewrite Hpublic.
Qed.

(** X13. A message the resolver returns is one of its five: the [super]
    message, or one that names the property and a class. *)
Theorem resolver_messages
    (checker : TypeChecker) (fuel : nat) (symbol : Symbol) (name : string)
    (node : ElementAccessExpression) (lhsType : TypeId) (message : string) :
  getRestrictedElementAccessError getCombinedModifierFlags
    isFunctionScopeBoundary getInstanceTypeOfClassLikeDeclaration
    checker fuel symbol name node lhsType = Ok (Some message) →
  message = superMessage ∨
  ∃ cls,
    message = abstractPropertyMessage name cls ∨
    message = abstractSuperMessage name cls ∨
    message = failVisibility name cls true ∨
    message = failVisibility name cls false ∨
    message = protectedInstanceMessage name cls.
Proof.
  unfold getRestrictedElementAccessError, orElse, abstractCheck, superCheck,
    visibilityCheck, ofParent, printClass, instanceTypeOf,
    firstDeclarationParent, Access.bind.
  repeat case_match; intros [= <-]; simplify_eq; eauto 10.
Qed.

End Resolver.

(** X14. For types that go down a rank from each type to its base types
    and intersection members, [hasBase] with [isIdentical] and a budget
    above the rank decides inheritance: it answers true exactly for a type
    that is a reference to the class or that reaches one through base
    types and intersection members, and false otherwise. *)
Theorem hasBase_decides_inheritance
    (rank : TypeId -> nat) (checker : TypeChecker) (fuel : nat)
    (t enclosing : TypeId) :
  (∀ t s, s ∈ successors checker t → rank s < rank t) →
  rank t < fuel →
  (hasBase checker fuel t enclosing isIdentical = Ok true ↔
   inheritsFrom checker isIdentical enclosing t) ∧
  (hasBase checker fuel t enclosing isIdentical = Ok false ↔
   ¬ inheritsFrom checker isIdentical enclosing t).
Proof.
  intros Hrank Hfuel.
  pose proof (AccessProperties.hasBase_true checker isIdentical enclosing fuel t)
    as Htrue.
  pose proof (AccessProperties.hasBase_false checker isIdentical enclosing fuel t)
    as Hfalse.
  pose proof (AccessProperties.hasBase_no_error checker isIdentical enclosing
                fuel t) as Herror.
  pose proof (AccessProperties.hasBase_enough_fuel checker isIdentical enclosing
                rank Hrank) as Henough.
  destruct (hasBase checker fuel t enclosing isIdentical) as [[|]| |] eqn:E.
  - split; [done|]. split; [done|]. intros Hn. destruct Hn. by apply Htrue.
  - split; [|done]. split; [done|]. intros Hi. by destruct (Hfalse eq_refl).
  - by destruct Herror.
  - by destruct (Henough (fun _ _ => ltac:(done)) fuel t Hfuel).
Qed.

End AccessExtras.

(** ** Properties of the formatter loader *)

Module LoaderExtras.
Import FormatterLoader.

Section Loader.

Context {FormatterConstructor : Type}.

Variable require : string -> Outcome (@LoadedModule FormatterConstructor).
Variable resolve :
  string -> string -> list string -> list string -> Outcome string.
Variable extensions : list string.
Variable paths : list string.
Variable OFFSET_TO_NODE_MODULES : nat.

(** X15. [loadCoreFormatter] turns into undefined only the failure of
    [require] whose [code] is MODULE_NOT_FOUND: every other thrown value,
    [null] and [undefined] among them, is thrown on unchanged, and
    undefined is returned otherwise only for a module without a
    [Formatter] export. *)
Theorem loadCoreFormatter_swallows_only_missing_module (name : string) :
  let outcome := require ("../formatters/" +:+ name +:+ ".js") in
  (∀ e, loadCoreFormatter require name = Throws e ↔
        outcome = Throws e ∧ e ≠ ThrownValue (Some "MODULE_NOT_FOUND")) ∧
  (loadCoreFormatter require name = Returns None ↔
   outcome = Throws (ThrownValue (Some "MODULE_NOT_FOUND")) ∨
   ∃ m, outcome = Returns m ∧ Formatter m = None).
Proof.
  intros outcome. unfold loadCoreFormatter. fold outcome.
  destruct outcome as [m|[| |[code|]]]; simpl; split.
  - intros e. split; [done|by intros [? _]].
  - split.
    + intros [= E]. right. by exists m.
    + intros [H|(m' & [= <-] & ->)]; done.
  - intros e. split; [by intros [= <-]|by intros [[= <-] _]].
  - split; [done|]. intros [H|(m & H & _)]; done.
  - intros e. split; [by intros [= <-]|by intros [[= <-] _]].
  - split; [done|]. intros [H|(m & H & _)]; done.
  - intros e. destruct (String.eqb_spec code "MODULE_NOT_FOUND") as [->|Hne].
    + split; [done|]. by intros [[= <-] H].
    + split; [intros [= <-]; split; [done|congruence]|by intros [[= <-] _]].
  - destruct (String.eqb_spec code "MODULE_NOT_FOUND") as [->|Hne].
    + split; [by left|done].
    + split; [done|]. intros [[= H]|(m & H & _)]; done.
  - intros e. split; [by intros [= <-]|by intros [[= <-] _]].
  - split; [done|]. intros [H|(m & H & _)]; done.
Qed.

(** X16. [loadCustomFormatter] asks the resolver for every extension of
    [require.extensions] but ['.json'] and ['.node'], in their order, and
    for the tail of [module.paths] after the first
    [OFFSET_TO_NODE_MODULES + 1] entries. A failure of the resolver,
    whatever is thrown, gives undefined, while a failure of [require] on
    the resolved file is thrown on, MODULE_NOT_FOUND included. *)
Theorem loadCustomFormatter_resolution (name basedir : string) :
  let asked := resolvableExtensions extensions in
  let searched := searchPaths paths OFFSET_TO_NODE_MODULES in
  (∀ ext, ext ∈ asked ↔
          ext ∈ extensions ∧ ext ≠ ".json" ∧ ext ≠ ".node") ∧
  sublist asked extensions ∧
  suffix searched paths ∧
  length searched = length paths - (OFFSET_TO_NODE_MODULES + 1) ∧
  (∀ e, resolve name basedir asked searched = Throws e →
        loadCustomFormatter require resolve extensions paths
          OFFSET_TO_NODE_MODULES name basedir = Returns None) ∧
  (∀ resolved e,
     resolve name basedir asked searched = Returns resolved →
     require resolved = Throws e →
     loadCustomFormatter require resolve extensions paths
       OFFSET_TO_NODE_MODULES name basedir = Throws e).
Proof.
  intros asked searched.
  unfold asked, searched, loadCustomFormatter, resolvableExtensions, searchPaths.
  split; [|split; [|split; [|split; [|split]]]].
  - intros ext. rewrite list_elem_of_In, filter_In, <- list_elem_of_In.
    rewrite andb_true_iff, !negb_true_iff.
    destruct (String.eqb_spec ext ".json"), (String.eqb_spec ext ".node");
      intuition congruence.
  - induction extensions as [|ext exts IH]; simpl; [constructor|].
    destruct (_ && _); [by apply sublist_skip|by apply sublist_cons].
  - apply suffix_drop.
  - apply length_drop.
  - by intros e ->.
  - by intros resolved e -> ->.
Qed.

End Loader.

End LoaderExtras.

(** ** Properties of the rule on promises returned inside [try] *)

Module TryCatchRuleExtras.
Import TryCatchRule.

Local Notation "'let!' x ':=' m 'in' k" := (Access.bind m (fun x => k))
  (at level 10, x name, m at level 100, k at level 200).

Section Rule.

Variable checker : TypeChecker.
Variable append : Z -> string -> Linter.Replacement.
Variable ast : WrappedAst.

Let iterate := iterate checker append ast.
Let visitNode := visitNode checker append ast.
Let sound (st : RuleState) : Prop :=
  Forall (pointsAtReturn checker append ast) (reported st).

Lemma iterate_S fuel wrap end_ inTryCatch st :
  iterate (S fuel) wrap end_ inTryCatch st =
  let! w := deref ast wrap in
  let! turn :=
    (if isFunctionWithBody (node w) && hasAsyncModifier (node w) then
       let! st' := forEach (visitNode fuel) (children w)
                     (setInTryCatch false st) in
       Access.Ok (skip w, setInTryCatch inTryCatch st')
     else Access.Ok (next w, st)) in
  if bool_decide (fst turn = end_) then Access.Ok (snd turn)
  else iterate fuel (fst turn) end_ inTryCatch (snd turn).
Proof. reflexivity. Qed.

Lemma visitNode_S fuel wrap st :
  visitNode (S fuel) wrap st =
  let! w := deref ast (Some wrap) in
  let rest (st : RuleState) :=
    if isFunctionScopeBoundary (node w)
    then iterate fuel (Some wrap) (skip w) (inTryCatch st) st
    else forEach (visitNode fuel) (children w) st in
  let childrenOf (index : nat) (st : RuleState) :=
    let! child := deref ast (children w !! index) in
    forEach (visitNode fuel) (children child) st in
  if inTryCatch st then
    match shape (node w) with
    | ReturnStatement None => Access.Ok st
    | ReturnStatement (Some expression) =>
      let! st' := iterate fuel (next w) (skip w) true
                    (checkReturnExpression checker append expression st) in
      rest st'
    | _ => rest st
    end
  else
    match shape (node w) with
    | TryStatement catchClause finallyBlock =>
      let! st1 := childrenOf 0 (setInTryCatch true st) in
      let! st2 :=
        (if catchClause
         then childrenOf 1 (setInTryCatch finallyBlock st1)
         else Access.Ok st1) in
      if finallyBlock
      then match length (children w) with
           | O => Access.TypeError
           | S last => childrenOf last (setInTryCatch false st2)
           end
      else Access.Ok (setInTryCatch false st2)
    | _ => rest st
    end.
Proof. reflexivity. Qed.

Lemma deref_Some w wrap :
  deref ast (Some w) = Access.Ok wrap → wraps ast !! w = Some wrap.
Proof. unfold deref. simpl. by destruct (wraps ast !! w); intros [= ->]. Qed.

Lemma forEach_sound visit :
  (∀ w st st', visit w st = Access.Ok st' → sound st → sound st') →
  ∀ l st st', forEach visit l st = Access.Ok st' → sound st → sound st'.
Proof.
  intros Hvisit l. induction l as [|w l IH]; simpl; intros st st'.
  - by intros [= ->].
  - destruct (visit w st) as [st1| |] eqn:E; simpl; try done.
    intros Hrest Hst. apply (IH st1); [done|]. by apply (Hvisit w st).
Qed.

Lemma checkReturnExpression_sound w wrap expression st :
  wraps ast !! w = Some wrap →
  shape (node wrap) = ReturnStatement (Some expression) →
  sound st → sound (checkReturnExpression checker append expression st).
Proof.
  intros Hw Hshape Hst. unfold checkReturnExpression.
  assert (Hadd : (∀ p, unparenthesized expression ≠ AwaitExpression p) →
                 isPromiseLike checker (unparenthesized expression) = true →
                 sound (mkRuleState (inTryCatch st)
                          (reported st ++
                           [Linter.AddFailure
                              (pos expression - Z.of_nat (String.length "return"))
                              (pos expression) message
                              (Linter.FixOne (append (pos expression) " await"))]))).
  { intros Hawait Hpromise. unfold sound. simpl.
    apply Forall_app. split; [done|]. apply Forall_singleton.
    by exists w, wrap, expression. }
  destruct (unparenthesized expression) eqn:E; try done;
    (destruct (isPromiseLike checker _) eqn:Hp; [|done]);
    by apply Hadd.
Qed.

Lemma walk_sound fuel :
  (∀ wrap end_ b st st',
     iterate fuel wrap end_ b st = Access.Ok st' → sound st → sound st') ∧
  (∀ w st st', visitNode fuel w st = Access.Ok st' → sound st → sound st').
Proof.
  induction fuel as [|fuel [IHi IHv]]; [done|].
  pose proof (forEach_sound (visitNode fuel) IHv) as IHf.
  split.
  - intros wrap end_ b st st'. rewrite iterate_S.
    destruct (deref ast wrap) as [w| |]; simpl; try done.
    destruct (_ && _); simpl.
    + destruct (forEach _ _ _) as [st1| |] eqn:E; simpl; try done.
      intros Hrun Hst.
      assert (sound (setInTryCatch b st1)) by by apply (IHf _ _ _ E).
      destruct (bool_decide _); [by simplify_eq|by eapply IHi].
    + destruct (bool_decide _); [by intros [= ->]|apply IHi].
  - intros w st st'. rewrite visitNode_S.
    destruct (deref ast (Some w)) as [wrap| |] eqn:Hw; simpl; try done.
    apply deref_Some in Hw.
    assert (Hrest : ∀ st st',
              (if isFunctionScopeBoundary (node wrap)
               then iterate fuel (Some w) (skip wrap) (inTryCatch st) st
               else forEach (visitNode fuel) (children wrap) st)
              = Access.Ok st' → sound st → sound st').
    { intros s s'. destruct (isFunctionScopeBoundary _); [apply IHi|apply IHf]. }
    assert (Hchildren : ∀ index st st',
              (let! child := deref ast (children wrap !! index) in
               forEach (visitNode fuel) (children child) st)
              = Access.Ok st' → sound st → sound st').
    { intros index s s'. destruct (deref ast _); simpl; try done. apply IHf. }
    pose proof (Hrest st st') as Hst.
    destruct (inTryCatch st) eqn:Hin.
    + destruct (shape (node wrap)) as [[expression|]| |] eqn:Hshape;
        [|by intros [= ->]|exact Hst|exact Hst].
      clear Hst.
      destruct (iterate fuel _ _ _ _) as [st1| |] eqn:E; simpl; try done.
      intros Hrun Hst. apply (Hrest st1); [done|].
      apply (IHi _ _ _ _ _ E).
      by apply (checkReturnExpression_sound w wrap).
    + destruct (shape (node wrap)) as [expression|catchClause finallyBlock|]
        eqn:Hshape; [exact Hst| |exact Hst].
      clear Hst.
      destruct (Access.bind (deref ast (children wrap !! 0)) _)
        as [st1| |] eqn:E1; simpl; try done.
      intros Hrun Hst.
      assert (H1 : sound st1) by by apply (Hchildren _ _ _ E1).
      assert (Hlast : ∀ st2, sound st2 →
                (if finallyBlock
                 then match length (children wrap) with
                      | O => Access.TypeError
                      | S last =>
                        let! child := deref ast (children wrap !! last) in
                        forEach (visitNode fuel) (children child)
                          (setInTryCatch false st2)
                      end
                 else Access.Ok (setInTryCatch false st2)) = Access.Ok st' →
                sound st').
      { intros st2 H2. destruct finallyBlock; [|by intros [= <-]].
        destruct (length (children wrap)); [done|].
        intros Hrun'. by apply (Hchildren _ _ _ Hrun'). }
      destruct catchClause; simpl in Hrun.
      * destruct (Access.bind (deref ast (children wrap !! 1)) _)
          as [st2| |] eqn:E2; simpl in Hrun; try done.
        apply (Hlast st2); [|done]. by apply (Hchildren _ _ _ E2).
      * by apply (Hlast st1).
Qed.

(** X17. Every failure the rule reports points at a [return] statement of
    the file: it covers the six characters before the returned
    expression, its fix inserts [' await'] in front of that expression,
    and the expression, once its parentheses are taken off, is not an
    [await] and has a type like a promise: a [then] property that takes a
    callback. *)
Theorem apply_reports_point_at_returns (fuel : nat) (reports : list Linter.Report) :
  apply checker append ast fuel = Access.Ok reports →
  Forall (pointsAtReturn checker append ast) reports.
Proof.
  unfold apply. destruct (deref ast (Some (root ast))) as [w| |]; simpl; try done.
  destruct (TryCatchRule.iterate _ _ _ _ _ _ _ _) as [st| |] eqn:E;
    simpl; try done.
  intros [= <-]. destruct (walk_sound fuel) as [Hi _].
  apply (Hi _ _ _ _ _ E). constructor.
Qed.

Lemma walk_flag fuel :
  (∀ wrap end_ b st st',
     inTryCatch st = b →
     iterate fuel wrap end_ b st = Access.Ok st' → inTryCatch st' = b) ∧
  (∀ w st st',
     visitNode fuel w st = Access.Ok st' → inTryCatch st' = inTryCatch st).
Proof.
  induction fuel as [|fuel [IHi IHv]]; [done|].
  assert (IHf : ∀ l st st',
            forEach (visitNode fuel) l st = Access.Ok st' →
            inTryCatch st' = inTryCatch st).
  { intros l. induction l as [|w l IH]; simpl; intros st st'.
    - by intros [= ->].
    - destruct (visitNode fuel w st) as [st1| |] eqn:E; simpl; try done.
      intros Hrest. rewrite (IH _ _ Hrest). apply (IHv _ _ _ E). }
  split.
  - intros wrap end_ b st st' Hst. rewrite iterate_S.
    destruct (deref ast wrap) as [w| |]; simpl; try done.
    destruct (_ && _); simpl.
    + destruct (forEach _ _ _) as [st1| |]; simpl; try done.
      destruct (bool_decide _); [by intros [= <-]|by apply IHi].
    + destruct (bool_decide _); [by intros [= <-]|by apply IHi].
  - intros w st st'. rewrite visitNode_S.
    destruct (deref ast (Some w)) as [wrap| |]; simpl; try done.
    assert (Hrest : ∀ st st',
              (if isFunctionScopeBoundary (node wrap)
               then iterate fuel (Some w) (skip wrap) (inTryCatch st) st
               else forEach (visitNode fuel) (children wrap) st)
              = Access.Ok st' → inTryCatch st' = inTryCatch st).
    { intros s s'. destruct (isFunctionScopeBoundary _);
        [apply (IHi _ _ _ _ _ eq_refl)|apply IHf]. }
    assert (Hchildren : ∀ index st st',
              (let! child := deref ast (children wrap !! index) in
               forEach (visitNode fuel) (children child) st)
              = Access.Ok st' → inTryCatch st' = inTryCatch st).
    { intros index s s'. destruct (deref ast _); simpl; try done. apply IHf. }
    pose proof (Hrest st st') as Hst.
    destruct (inTryCatch st) eqn:Hin.
    + destruct (shape (node wrap)) as [[expression|]| |] eqn:Hshape;
        [|by intros [= <-]|exact Hst|exact Hst].
      clear Hst.
      destruct (iterate fuel _ _ _ _) as [st1| |] eqn:E; simpl; try done.
      intros Hrun. rewrite (Hrest _ _ Hrun).
      apply (IHi _ _ true _ _) in E; [done|].
      unfold checkReturnExpression.
      by destruct (unparenthesized expression);
        try destruct (isPromiseLike checker _).
    + destruct (shape (node wrap)) as [expression|catchClause finallyBlock|]
        eqn:Hshape; [exact Hst| |exact Hst].
      clear Hst.
      destruct (Access.bind (deref ast (children wrap !! 0)) _)
        as [st1| |] eqn:E1; simpl; try done.
      assert (Hlast : ∀ st2,
                (if finallyBlock
                 then match length (children wrap) with
                      | O => Access.TypeError
                      | S last =>
                        let! child := deref ast (children wrap !! last) in
                        forEach (visitNode fuel) (children child)
                          (setInTryCatch false st2)
                      end
                 else Access.Ok (setInTryCatch false st2)) = Access.Ok st' →
                inTryCatch st' = false).
      { intros st2. destruct finallyBlock; [|by intros [= <-]].
        destruct (length (children wrap)); [done|].
        intros Hrun'. by rewrite (Hchildren _ _ _ Hrun'). }
      destruct catchClause; simpl.
      * destruct (Access.bind (deref ast (children wrap !! 1)) _)
          as [st2| |] eqn:E2; simpl; try done. apply Hlast.
      * apply Hlast.
Qed.

(** X19. Both walks leave the field [inTryCatch] as they should: a
    linked-list walk of [iterate] that is entered with the field equal to
    its argument ends with it so, whatever the functions visited on the
    way did to it, and [visitNode] ends with the value it found, also when
    it went through a [try] statement. *)
Theorem walks_restore_inTryCatch (fuel : nat) :
  (∀ wrap end_ b st st',
     inTryCatch st = b →
     TryCatchRule.iterate checker append ast fuel wrap end_ b st
     = Access.Ok st' →
     inTryCatch st' = b) ∧
  (∀ w st st',
     TryCatchRule.visitNode checker append ast fuel w st = Access.Ok st' →
     inTryCatch st' = inTryCatch st).
Proof. apply walk_flag. Qed.

Lemma iterate_without_async fuel n wrap st :
  (∀ w wrap, wraps ast !! w = Some wrap →
             isFunctionWithBody (node wrap) && hasAsyncModifier (node wrap)
             = false) →
  endsWithin ast n wrap = true → n ≤ fuel →
  iterate fuel wrap None false st = Access.Ok st.
Proof.
  intros Hsync. revert n wrap.
  induction fuel as [|fuel IH]; intros [|n] wrap Hends Hfuel;
    [done|lia|done|].
  destruct wrap as [w|]; [|done]. simpl in Hends.
  rewrite iterate_S. unfold deref. simpl.
  destruct (wraps ast !! w) as [nw|] eqn:Hw; simpl; [|done].
  rewrite (Hsync w nw Hw). simpl.
  destruct (next nw) as [following|] eqn:Hnext.
  - rewrite bool_decide_eq_false_2 by done. apply (IH n); [done|lia].
  - by rewrite bool_decide_eq_true_2.
Qed.

(** X18. In a file without an [async] function that has a body the rule
    reports nothing, whatever the [try] statements of the file return: it
    walks the list linked by [next] to its end, and does so with any fuel
    that covers the length of that list. *)
Theorem apply_without_async_function (n fuel : nat) (file : NodeWrap) :
  (∀ w wrap, wraps ast !! w = Some wrap →
             isFunctionWithBody (node wrap) && hasAsyncModifier (node wrap)
             = false) →
  wraps ast !! root ast = Some file →
  endsWithin ast n (next file) = true →
  n ≤ fuel →
  apply checker append ast fuel = Access.Ok [].
Proof.
  intros Hsync Hroot Hends Hfuel. unfold apply, deref. simpl.
  rewrite Hroot. simpl.
  fold (iterate fuel (next file) None false (mkRuleState false [])).
  by rewrite (iterate_without_async fuel n _ _ Hsync Hends Hfuel).
Qed.

End Rule.

(** X20. The linter does not run the rule on a declaration file: a rule
    whose [supports] is the one of this rule is not prepared for it. *)
Theorem rule_not_prepared_for_declaration_file
    {SourceFile Program Options Settings : Type}
    (isDeclarationFile : SourceFile -> bool)
    (loadRule : string -> option (list string) ->
                option (@Linter.RuleConstructor SourceFile Program Options Settings))
    (config : @Linter.EffectiveConfiguration Options Settings)
    (sourceFile : SourceFile) (program : option Program) :
  isDeclarationFile sourceFile = true →
  Forall
    (fun p => Linter.supports (Linter.p_ctor p) ≠
              Some (fun file _ _ => supports isDeclarationFile file))
    (fst (Linter.prepareRules loadRule config sourceFile program)).
Proof.
  intros Hdeclaration. apply Forall_forall. intros p Hp Hsupports.
  unfold Linter.prepareRules in Hp.
  rewrite LinterProperties.prepareRules_fold in Hp. simpl in Hp.
  apply list_elem_of_omap in Hp as ([name c] & _ & Hkept).
  apply LinterProperties.kept_Some in Hkept as (ctor & (_ & _ & _ & Hs) & ->).
  simpl in Hsupports. apply (Hs _ Hsupports).
  unfold supports. by rewrite Hdeclaration.
Qed.

(** X21. The failures of the rule are not always distinct. [visitNode]
    goes on after the list walk that follows a [return] with an
    expression, so an [async] function in that expression is walked by
    that list walk and again by the visit of the children of the [return],
    and a [return] inside a [try] of it is reported twice. *)
Theorem apply_may_report_twice :
  ∃ checker append ast fuel report rest,
    apply checker append ast fuel = Access.Ok (report :: rest) ∧
    report ∈ rest.
Proof.
  exists TryCatchFixtures.checker, TryCatchFixtures.append,
    TryCatchFixtures.nestedFile, 30.
  eexists _, _. split; [reflexivity|]. apply list_elem_of_here.
Qed.

End TryCatchRuleExtras.

(** ** The further properties on the fixtures *)

Module ExtrasExamples.

(** The rule [no-foo] switched off: nothing is loaded and nothing
    reported, also behind a processor. *)
Lemma getFailures_all_off_witness :
  (∀ entry, entry ∈ Linter.rules LinterFixtures.configOff →
            Linter.severity (snd entry) = "off") ∧
  Linter.getFailures LinterFixtures.loadRule LinterFixtures.getDisabledRanges
    LinterFixtures.getLineAndCharacterOfPosition LinterFixtures.file
    LinterFixtures.configOff None (Some LinterFixtures.embedded) = ([], []).
Proof.
  assert (Hoff : ∀ entry, entry ∈ Linter.rules LinterFixtures.configOff →
                          Linter.severity (snd entry) = "off").
  { intros entry Hentry. apply list_elem_of_singleton in Hentry.
    rewrite Hentry. reflexivity. }
  split; [exact Hoff|].
  exact (proj1 (LinterExtras.getFailures_all_off
                  LinterFixtures.loadRule LinterFixtures.getDisabledRanges
                  LinterFixtures.getLineAndCharacterOfPosition
                  LinterFixtures.configOff LinterFixtures.file None
                  (Some LinterFixtures.embedded) Hoff)).
Defined.

(** The report of [no-var] on a file without a line switch. *)
Lemma applyRules_reports_all_without_disabled_ranges_witness :
  let r := Linter.mkPrepared "no-var" tt "error" FixableFixtures.noVar in
  Forall
    (fun rep =>
       Linter.failureOf FixableFixtures.getLineAndCharacterOfPosition
         FixableFixtures.file r rep ∈
       Linter.applyRules FixableFixtures.getDisabledRanges
         FixableFixtures.getLineAndCharacterOfPosition
         FixableFixtures.file (None : option unit) [r] tt)
    (Linter.reportsOf FixableFixtures.getDisabledRanges FixableFixtures.file
       (None : option unit) tt [r] r).
Proof.
  intros r.
  apply (LinterExtras.applyRules_reports_all_without_disabled_ranges
           FixableFixtures.getDisabledRanges
           FixableFixtures.getLineAndCharacterOfPosition
           FixableFixtures.file None [r] tt r).
  - apply list_elem_of_here.
  - reflexivity.
Defined.

(** [no-var] has fixed the file after one iteration: five change nothing. *)
Lemma lintAndFix_cap_irrelevant_once_settled_witness :
  let run cap :=
    Linter.lintAndFix FixableFixtures.loadRule
      FixableFixtures.getDisabledRanges
      FixableFixtures.getLineAndCharacterOfPosition
      FixableFixtures.applyFixes FixableFixtures.calculateChangeRange
      (fun file : string => file)
      FixableFixtures.file FixableFixtures.file FixableFixtures.fixing
      FixableFixtures.updateFile cap None None in
  Linter.failures (fst (run 1%Z)) = [] ∧ run 5%Z = run 1%Z.
Proof.
  intros run. split; [reflexivity|].
  apply (LinterExtras.lintAndFix_cap_irrelevant_once_settled
           FixableFixtures.loadRule FixableFixtures.getDisabledRanges
           FixableFixtures.getLineAndCharacterOfPosition
           FixableFixtures.applyFixes FixableFixtures.calculateChangeRange
           (fun file : string => file)
           FixableFixtures.file FixableFixtures.file FixableFixtures.fixing
           FixableFixtures.updateFile None None 1%Z 5%Z).
  - lia.
  - left. reflexivity.
Defined.

(** [warn-var] offers no fix: the file comes back as given. *)
Lemma lintAndFix_without_fixes_witness :
  let pass :=
    Linter.getFailures FixableFixtures.loadRule
      FixableFixtures.getDisabledRanges
      FixableFixtures.getLineAndCharacterOfPosition
      FixableFixtures.file FixableFixtures.warning
      (None : option unit) None in
  fst pass ≠ [] ∧
  Linter.lintAndFix FixableFixtures.loadRule
    FixableFixtures.getDisabledRanges
    FixableFixtures.getLineAndCharacterOfPosition
    FixableFixtures.applyFixes FixableFixtures.calculateChangeRange
    (fun file : string => file)
    FixableFixtures.file FixableFixtures.file FixableFixtures.warning
    FixableFixtures.updateFile 10%Z None None =
  (Linter.mkResult FixableFixtures.file (fst pass) 0, snd pass).
Proof.
  intros pass. split; [discriminate|].
  apply (LinterExtras.lintAndFix_without_fixes
           FixableFixtures.loadRule FixableFixtures.getDisabledRanges
           FixableFixtures.getLineAndCharacterOfPosition
           FixableFixtures.applyFixes FixableFixtures.calculateChangeRange
           (fun file : string => file)
           FixableFixtures.file FixableFixtures.file FixableFixtures.warning
           FixableFixtures.updateFile 10%Z None None).
  reflexivity.
Defined.

(** The [super] in the decorator of a class inside a static method. *)
Lemma isStaticSuper_of_enclosing_member_witness :
  Access.isStaticSuper (Access.access AccessFixtures.ClassDecorator.access)
  = Access.Ok true ∧
  ∃ k member,
    Access.ascend k (Access.access AccessFixtures.ClassDecorator.access)
    = Some member ∧
    ((Access.kind member = Access.Constructor ∧ true = false) ∨
     (Access.kind member ∈
        [Access.PropertyDeclaration; Access.MethodDeclaration;
         Access.GetAccessor; Access.SetAccessor] ∧
      true = Access.hasModifier (Access.modifiers member)
               Access.StaticKeyword)).
Proof.
  split; [reflexivity|].
  apply (AccessExtras.isStaticSuper_of_enclosing_member
           (Access.access AccessFixtures.ClassDecorator.access) true).
  reflexivity.
Defined.

(** The [this] of an arrow function inside a function with a [this]
    parameter. *)
Lemma getThisParameterFromContext_of_enclosing_function_witness :
  Access.isThisParameter ThisParameterFixtures.thisParameter = true ∧
  ∃ k f,
    Access.ascend k (Access.access ThisParameterFixtures.access) = Some f ∧
    Access.kind f ∈
      [Access.FunctionDeclaration; Access.FunctionExpression;
       Access.MethodDeclaration] ∧
    head (Access.parameters f) = Some ThisParameterFixtures.thisParameter.
Proof.
  apply (AccessExtras.getThisParameterFromContext_of_enclosing_function
           (Access.access ThisParameterFixtures.access)
           ThisParameterFixtures.thisParameter).
  reflexivity.
Defined.

(** [other['m']] for the public method [m] of [ProtectedThroughBase]. *)
Lemma public_access_permitted_witness :
  AccessFixtures.resolve
    (Access.mkSymbol (Some [AccessFixtures.ProtectedThroughBase.m])) "m"
    AccessFixtures.ProtectedThroughBase.access 11 = Access.Ok None.
Proof.
  apply (AccessExtras.public_access_permitted
           AccessFixtures.getCombinedModifierFlags
           AccessFixtures.isFunctionScopeBoundary
           AccessFixtures.getInstanceTypeOfClassLikeDeclaration
           AccessFixtures.checker 8
           (Access.mkSymbol (Some [AccessFixtures.ProtectedThroughBase.m]))
           "m" AccessFixtures.ProtectedThroughBase.access 11).
  - discriminate.
  - discriminate.
  - reflexivity.
Defined.

(** The message for the private property read in a subclass. *)
Lemma resolver_messages_witness :
  let message :=
    "Property 'x' is private and only accessible within class 'A'." in
  AccessFixtures.resolve AccessFixtures.PrivateInSubclass.symbol "x"
    AccessFixtures.PrivateInSubclass.access 11 = Access.Ok (Some message) ∧
  (message = Access.superMessage ∨
   ∃ cls,
     message = Access.abstractPropertyMessage "x" cls ∨
     message = Access.abstractSuperMessage "x" cls ∨
     message = Access.failVisibility "x" cls true ∨
     message = Access.failVisibility "x" cls false ∨
     message = Access.protectedInstanceMessage "x" cls).
Proof.
  intros message. split; [reflexivity|].
  apply (AccessExtras.resolver_messages
           AccessFixtures.getCombinedModifierFlags
           AccessFixtures.isFunctionScopeBoundary
           AccessFixtures.getInstanceTypeOfClassLikeDeclaration
           AccessFixtures.checker 8
           AccessFixtures.PrivateInSubclass.symbol "x"
           AccessFixtures.PrivateInSubclass.access 11 message).
  reflexivity.
Defined.

(** [B] inherits from [A], and [A] does not inherit from [B]. *)
Lemma hasBase_decides_inheritance_witness :
  Access.inheritsFrom AccessFixtures.checker Access.isIdentical 10 11 ∧
  ¬ Access.inheritsFrom AccessFixtures.checker Access.isIdentical 11 10.
Proof.
  split.
  - apply (proj1 (AccessExtras.hasBase_decides_inheritance
                    AccessFixtures.rank AccessFixtures.checker 8 11 10
                    (proj1 AccessExamples.fixture_types_ranked)
                    (proj2 AccessExamples.fixture_types_ranked 11))).
    reflexivity.
  - apply (proj2 (AccessExtras.hasBase_decides_inheritance
                    AccessFixtures.rank AccessFixtures.checker 8 10 11
                    (proj1 AccessExamples.fixture_types_ranked)
                    (proj2 AccessExamples.fixture_types_ranked 10))).
    reflexivity.
Defined.

(** The core formatter [missing] is not there, the file of [broken]
    throws. *)
Lemma loadCoreFormatter_swallows_only_missing_module_witness :
  FormatterLoader.loadCoreFormatter LoaderFixtures.require "missing"
  = FormatterLoader.Returns None ∧
  FormatterLoader.loadCoreFormatter LoaderFixtures.require "broken"
  = FormatterLoader.Throws
      (FormatterLoader.ThrownValue (Some "ERR_INVALID_SYNTAX")).
Proof.
  split.
  - apply (proj2 (LoaderExtras.loadCoreFormatter_swallows_only_missing_module
                    LoaderFixtures.require "missing")).
    left. reflexivity.
  - apply (proj1 (LoaderExtras.loadCoreFormatter_swallows_only_missing_module
                    LoaderFixtures.require "broken") _).
    split; [reflexivity|discriminate].
Defined.

(** The formatter [unknown] does not resolve; the file of [custom]
    throws [null]. *)
Lemma loadCustomFormatter_resolution_witness :
  FormatterLoader.loadCustomFormatter LoaderFixtures.require
    LoaderFixtures.resolve LoaderFixtures.extensions LoaderFixtures.paths 2
    "unknown" "/project" = FormatterLoader.Returns None ∧
  FormatterLoader.loadCustomFormatter LoaderFixtures.require
    LoaderFixtures.resolve LoaderFixtures.extensions LoaderFixtures.paths 2
    "custom" "/project" = FormatterLoader.Throws FormatterLoader.ThrownNull.
Proof.
  split.
  - destruct (LoaderExtras.loadCustomFormatter_resolution
                LoaderFixtures.require LoaderFixtures.resolve
                LoaderFixtures.extensions LoaderFixtures.paths 2
                "unknown" "/project") as (_ & _ & _ & _ & Hunresolved & _).
    apply (Hunresolved
             (FormatterLoader.ThrownValue (Some "MODULE_NOT_FOUND"))).
    reflexivity.
  - destruct (LoaderExtras.loadCustomFormatter_resolution
                LoaderFixtures.require LoaderFixtures.resolve
                LoaderFixtures.extensions LoaderFixtures.paths 2
                "custom" "/project") as (_ & _ & _ & _ & _ & Hloaded).
    apply (Hloaded "/project/node_modules/custom/index.js"); reflexivity.
Defined.

(** The report on [return (g())] inside the [try] of the async function. *)
Lemma apply_reports_point_at_returns_witness :
  Forall
    (TryCatchRule.pointsAtReturn TryCatchFixtures.checker
       TryCatchFixtures.append TryCatchFixtures.asyncFile)
    [TryCatchRule.missingAwait TryCatchFixtures.append 33].
Proof.
  apply (TryCatchRuleExtras.apply_reports_point_at_returns
           TryCatchFixtures.checker TryCatchFixtures.append
           TryCatchFixtures.asyncFile 20).
  reflexivity.
Defined.

(** The same file with a function that is not async. *)
Lemma apply_without_async_function_witness :
  TryCatchRule.apply TryCatchFixtures.checker TryCatchFixtures.append
    TryCatchFixtures.syncFile 9 = Access.Ok [].
Proof.
  apply (TryCatchRuleExtras.apply_without_async_function
           TryCatchFixtures.checker TryCatchFixtures.append
           TryCatchFixtures.syncFile 9 9
           (TryCatchRule.mkWrap TryCatchFixtures.plain [1] (Some 1) None)).
  - change (map_Forall
              (fun (_ : TryCatchRule.WrapId) wrap =>
                 TryCatchRule.isFunctionWithBody (TryCatchRule.node wrap) &&
                 TryCatchRule.hasAsyncModifier (TryCatchRule.node wrap)
                 = false)
              (TryCatchRule.wraps TryCatchFixtures.syncFile)).
    unfold TryCatchFixtures.syncFile, TryCatchFixtures.wrapsOf. simpl.
    repeat (apply map_Forall_insert_2; [reflexivity|]).
    apply map_Forall_empty.
  - reflexivity.
  - reflexivity.
  - lia.
Defined.

(** The walk of the async file and the visit of its [try] statement. *)
Lemma walks_restore_inTryCatch_witness :
  (∃ st',
     TryCatchRule.iterate TryCatchFixtures.checker TryCatchFixtures.append
       TryCatchFixtures.asyncFile 20 (Some 1) None false
       (TryCatchRule.mkRuleState false []) = Access.Ok st' ∧
     TryCatchRule.inTryCatch st' = false) ∧
  (∃ st',
     TryCatchRule.visitNode TryCatchFixtures.checker TryCatchFixtures.append
       TryCatchFixtures.asyncFile 20 5
       (TryCatchRule.mkRuleState true []) = Access.Ok st' ∧
     TryCatchRule.inTryCatch st' = true).
Proof.
  split.
  - eexists. split; [reflexivity|].
    apply (proj1 (TryCatchRuleExtras.walks_restore_inTryCatch
                    TryCatchFixtures.checker TryCatchFixtures.append
                    TryCatchFixtures.asyncFile 20)
             (Some 1) None false (TryCatchRule.mkRuleState false []));
      reflexivity.
  - eexists. split; [reflexivity|].
    apply (proj2 (TryCatchRuleExtras.walks_restore_inTryCatch
                    TryCatchFixtures.checker TryCatchFixtures.append
                    TryCatchFixtures.asyncFile 20)
             5 (TryCatchRule.mkRuleState true [])).
    reflexivity.
Defined.

(** The rule is prepared for a source file and not for a declaration
    file. *)
Lemma rule_not_prepared_for_declaration_file_witness :
  fst (Linter.prepareRules TryCatchFixtures.loadRule TryCatchFixtures.config
         false (Some tt)) ≠ [] ∧
  Forall
    (fun p => Linter.supports (Linter.p_ctor p) ≠
              Some (fun file _ _ =>
                      TryCatchRule.supports
                        TryCatchFixtures.isDeclarationFile file))
    (fst (Linter.prepareRules TryCatchFixtures.loadRule
            TryCatchFixtures.config true (Some tt))).
Proof.
  split; [discriminate|].
  apply (TryCatchRuleExtras.rule_not_prepared_for_declaration_file
           TryCatchFixtures.isDeclarationFile TryCatchFixtures.loadRule
           TryCatchFixtures.config true (Some tt)).
  reflexivity.
Defined.

End ExtrasExamples.
